(** * EC schema class metadata: ECClass, its variants and RelationshipConstraint

    A shallow embedding of the TypeScript module that declares [ECClass],
    [EntityClass], [MixinClass], [StructClass], [CustomAttributeClass],
    [RelationshipClass] and [RelationshipConstraint].

    The objects of the module are mutable and refer to each other (a
    relationship class owns two constraints, each of which points back at
    the class), so they live in a heap indexed by locations and every
    method is a computation over that heap which ends normally or by
    throwing.  A throw keeps the heap as the method left it: what was
    written before the [throw] stays written. *)

From Stdlib Require Import ZArith Ascii String.
From stdpp Require Import base option list strings gmap.

Set Warnings "-register-all".

Local Open Scope string_scope.

(** ** JavaScript values *)

Abbreviation loc := nat (only parsing).

(** The values a [jsonObj: any] argument, an optional parameter or a field
    can hold at run time.  TypeScript's annotations and [as] casts are
    erased, so the embedding is typed the way the running program is.
    Numbers are restricted to integers; the methods only ever test a number
    for truthiness. *)
Inductive JsValue : Type :=
| VUndefined
| VNull
| VBool (b : bool)
| VNumber (n : Z)
| VString (s : string)
| VArray (elems : list JsValue)
| VObject (fields : list (string * JsValue))
| VRef (l : loc).

(** [if (v)]: ToBoolean. *)
Definition truthy (v : JsValue) : bool :=
  match v with
  | VUndefined | VNull => false
  | VBool b => b
  | VNumber n => negb (n =? 0)%Z
  | VString s => negb (String.eqb s "")
  | VArray _ | VObject _ | VRef _ => true
  end.

(** [typeof(v) === "string"]. *)
Definition typeof_string (v : JsValue) : bool :=
  match v with VString _ => true | _ => false end.

(** [Array.isArray(v)]. *)
Definition isArray (v : JsValue) : bool :=
  match v with VArray _ => true | _ => false end.

(** The object handed to [fromJson]: its own fields, each key once. *)
Definition JsonObj := list (string * JsValue).

(** [jsonObj.key]: the field's value, [undefined] when there is none. *)
Fixpoint get_field (jsonObj : JsonObj) (key : string) : JsValue :=
  match jsonObj with
  | [] => VUndefined
  | (k, v) :: rest => if String.eqb k key then v else get_field rest key
  end.

(** ** Errors *)

(** The members of [ECObjectsStatus] that the module raises itself; the
    enumeration is declared in [../Exception] and has further members,
    which only imported functions raise. *)
Inductive ECObjectsStatus : Type :=
| ECOBJECTS_ERROR_BASE
| DuplicateProperty
| InvalidECJson
| InvalidMultiplicity
| OtherStatus (code : nat).

(** What a [throw] carries: an [ECObjectsError] with its status and
    message, or the run time's own [TypeError] (a method called on
    [undefined] or on a string, a field read from a value that has none). *)
Inductive Exn : Type :=
| ECObjectsError (status : ECObjectsStatus) (message : string)
| TypeError.

Inductive Completion (A : Type) : Type :=
| Normal (a : A)
| Throw (e : Exn).
Arguments Normal {A} a.
Arguments Throw {A} e.

(** ** Objects *)

(** Modelled from the spec: the [Schema] class is not among the sources.
    The spec gives its contract: it exposes [getChild(name)], a lookup by
    name that returns the schema child or [undefined].  The lookup is a
    function of the name: the theorems cover a schema whose children exist
    when a method looks them up, not one that constructs them on demand. *)
Record Schema : Type := { getChild : JsValue → option loc }.

(** What [this.schema] holds: nothing, the schema's name, or the schema. *)
Inductive SchemaSlot : Type :=
| SchemaUndefined
| SchemaName (s : string)
| SchemaObject (sch : Schema).

(** Modelled from the spec: [SchemaChild], the base class of [ECClass], is
    not among the sources.  The fields the module reads from it are [name]
    and [schema]. *)
Record SchemaChild : Type := { name : string; schema : SchemaSlot }.

(** Modelled from the spec: [RelationshipMultiplicity] is declared in
    [../ECObjects]; a cardinality range whose upper limit may be unbounded. *)
Record RelationshipMultiplicity : Type :=
  { lowerLimit : nat; upperLimit : option nat }.

(** Modelled from the spec: the property classes are declared in
    [./Property]; each constructor stores its arguments. *)
Inductive Property : Type :=
| PrimitiveProperty (name : string) (type : JsValue)
| PrimitiveArrayProperty (name : string) (type : JsValue)
| StructProperty (name : string) (type : JsValue)
| StructArrayProperty (name : string) (type : JsValue)
| NavigationProperty (name : string) (relationship direction : JsValue).

Definition Property_name (p : Property) : string :=
  match p with
  | PrimitiveProperty n _ | PrimitiveArrayProperty n _
  | StructProperty n _ | StructArrayProperty n _
  | NavigationProperty n _ _ => n
  end.

(** Which class of the module an object was constructed from. *)
Inductive ClassKind : Type :=
| EntityClass | MixinClass | StructClass | CustomAttributeClass | RelationshipClass.

(** An instance of [ECClass] or of one of its subclasses.  As in the
    running program an object is a bag of fields: those a constructor has
    not assigned read [undefined] ([None] for the arrays). *)
Record ECClass : Type := mkECClass {
  kind : ClassKind;
  base : SchemaChild;
  modifier : JsValue;
  baseClass : JsValue;
  properties : option (list loc);
  mixins : option (list loc);            (* EntityClass *)
  appliesTo : JsValue;                   (* MixinClass *)
  containerType : JsValue;               (* CustomAttributeClass *)
  strength : JsValue;                    (* RelationshipClass *)
  strengthDirection : JsValue;
  source : JsValue;
  target : JsValue
}.

Record RelationshipConstraint : Type := mkRelationshipConstraint {
  _abstractConstraint : JsValue;
  relationshipClass : loc;
  relationshipEnd : JsValue;
  multiplicity : RelationshipMultiplicity;
  polymorphic : JsValue;
  roleLabel : JsValue;
  constraintClasses : option (list JsValue)
}.

Inductive HeapObj : Type :=
| OClass (c : ECClass)
| OConstraint (rc : RelationshipConstraint)
| OProperty (p : Property).

Abbreviation Heap := (gmap nat HeapObj) (only parsing).

(** ** Imported functions and constants

    [../ECObjects] and [./SchemaChild] are not among the sources, and
    neither is the case mapping of the language's strings.  What the
    module calls from them is taken as given: every definition below is
    parametric in a value of this record, and every theorem holds for all
    of them. *)
Record Imports : Type := {
  (* [String.prototype.toLowerCase], the built-in of the language: its
     case mapping covers all of Unicode and is not reproduced here *)
  toLowerCase : string → string;
  (* ./SchemaChild: [super(name)] and [super.fromJson(jsonObj)] *)
  SchemaChild_constructor : string → Completion SchemaChild;
  SchemaChild_fromJson : SchemaChild → JsonObj → Completion unit * SchemaChild;
  (* ../ECObjects: parsers, which return the enumeration member or throw *)
  parsePrimitiveType : JsValue → Completion JsValue;
  parseClassModifier : JsValue → Completion JsValue;
  parseStrength : JsValue → Completion JsValue;
  parseStrengthDirection : JsValue → Completion JsValue;
  parseCustomAttributeContainerType : JsValue → Completion JsValue;
  (* [RelationshipMultiplicity.fromString]: the multiplicity or [undefined] *)
  RelationshipMultiplicity_fromString : JsValue → option RelationshipMultiplicity;
  RelationshipMultiplicity_zeroOne : RelationshipMultiplicity;
  (* ../ECObjects: enumeration members *)
  ECClassModifier_None : JsValue;
  StrengthType_Referencing : JsValue;
  RelatedInstanceDirection_Forward : JsValue;
  RelationshipEnd_Source : JsValue;
  RelationshipEnd_Target : JsValue
}.

(** ** Computations over the heap *)

Definition Js (A : Type) : Type := Heap → Completion A * Heap.

Definition ret {A} (a : A) : Js A := λ h, (Normal a, h).

Definition throw {A} (e : Exn) : Js A := λ h, (Throw e, h).

Definition bind {A B} (m : Js A) (k : A → Js B) : Js B :=
  λ h, match m h with
       | (Normal a, h') => k a h'
       | (Throw e, h') => (Throw e, h')
       end.

Declare Scope js_scope.
Delimit Scope js_scope with js.
Notation "x <- m ;; k" := (bind m (λ x, k))
  (at level 100, m at next level, right associativity) : js_scope.
Notation "m ;; k" := (bind m (λ _, k))
  (at level 100, right associativity) : js_scope.
Local Open Scope js_scope.

(** The outcome of an imported pure function, inside a computation. *)
Definition lift {A} (r : Completion A) : Js A := λ h, (r, h).

(** [new C(...)]: the object is placed at a location not in use. *)
Definition alloc (o : HeapObj) : Js loc :=
  λ h, let l := fresh (dom h) in (Normal l, <[l := o]> h).

(** Reading [this] where the method expects an [ECClass]. *)
Definition readClass (this : loc) : Js ECClass :=
  λ h, match h !! this with
       | Some (OClass c) => (Normal c, h)
       | _ => (Throw TypeError, h)
       end.

Definition readConstraint (this : loc) : Js RelationshipConstraint :=
  λ h, match h !! this with
       | Some (OConstraint rc) => (Normal rc, h)
       | _ => (Throw TypeError, h)
       end.

(** Field assignments [this.f = v]. *)
Definition set_base v c := mkECClass (kind c) v (modifier c) (baseClass c) (properties c) (mixins c) (appliesTo c) (containerType c) (strength c) (strengthDirection c) (source c) (target c).
Definition set_modifier v c := mkECClass (kind c) (base c) v (baseClass c) (properties c) (mixins c) (appliesTo c) (containerType c) (strength c) (strengthDirection c) (source c) (target c).
Definition set_baseClass v c := mkECClass (kind c) (base c) (modifier c) v (properties c) (mixins c) (appliesTo c) (containerType c) (strength c) (strengthDirection c) (source c) (target c).
Definition set_properties v c := mkECClass (kind c) (base c) (modifier c) (baseClass c) v (mixins c) (appliesTo c) (containerType c) (strength c) (strengthDirection c) (source c) (target c).
Definition set_mixins v c := mkECClass (kind c) (base c) (modifier c) (baseClass c) (properties c) v (appliesTo c) (containerType c) (strength c) (strengthDirection c) (source c) (target c).
Definition set_appliesTo v c := mkECClass (kind c) (base c) (modifier c) (baseClass c) (properties c) (mixins c) v (containerType c) (strength c) (strengthDirection c) (source c) (target c).
Definition set_containerType v c := mkECClass (kind c) (base c) (modifier c) (baseClass c) (properties c) (mixins c) (appliesTo c) v (strength c) (strengthDirection c) (source c) (target c).
Definition set_strength v c := mkECClass (kind c) (base c) (modifier c) (baseClass c) (properties c) (mixins c) (appliesTo c) (containerType c) v (strengthDirection c) (source c) (target c).
Definition set_strengthDirection v c := mkECClass (kind c) (base c) (modifier c) (baseClass c) (properties c) (mixins c) (appliesTo c) (containerType c) (strength c) v (source c) (target c).
Definition set_source v c := mkECClass (kind c) (base c) (modifier c) (baseClass c) (properties c) (mixins c) (appliesTo c) (containerType c) (strength c) (strengthDirection c) v (target c).
Definition set_target v c := mkECClass (kind c) (base c) (modifier c) (baseClass c) (properties c) (mixins c) (appliesTo c) (containerType c) (strength c) (strengthDirection c) (source c) v.

Definition set__abstractConstraint v rc := mkRelationshipConstraint v (relationshipClass rc) (relationshipEnd rc) (multiplicity rc) (polymorphic rc) (roleLabel rc) (constraintClasses rc).
Definition set_multiplicity v rc := mkRelationshipConstraint (_abstractConstraint rc) (relationshipClass rc) (relationshipEnd rc) v (polymorphic rc) (roleLabel rc) (constraintClasses rc).
Definition set_polymorphic v rc := mkRelationshipConstraint (_abstractConstraint rc) (relationshipClass rc) (relationshipEnd rc) (multiplicity rc) v (roleLabel rc) (constraintClasses rc).
Definition set_roleLabel v rc := mkRelationshipConstraint (_abstractConstraint rc) (relationshipClass rc) (relationshipEnd rc) (multiplicity rc) (polymorphic rc) v (constraintClasses rc).
Definition set_constraintClasses v rc := mkRelationshipConstraint (_abstractConstraint rc) (relationshipClass rc) (relationshipEnd rc) (multiplicity rc) (polymorphic rc) (roleLabel rc) v.

(** [this.f = v] on a class: read the object, write it back with the
    field replaced. *)
Definition assign (this : loc) (upd : ECClass → ECClass) : Js unit :=
  λ h, match h !! this with
       | Some (OClass c) => (Normal (), <[this := OClass (upd c)]> h)
       | _ => (Throw TypeError, h)
       end.

Definition assignConstraint (this : loc)
    (upd : RelationshipConstraint → RelationshipConstraint) : Js unit :=
  λ h, match h !! this with
       | Some (OConstraint rc) => (Normal (), <[this := OConstraint (upd rc)]> h)
       | _ => (Throw TypeError, h)
       end.

(** A lookup result as a value: the child or [undefined]. *)
Definition of_option (o : option loc) : JsValue :=
  match o with Some l => VRef l | None => VUndefined end.

(** [slot && typeof(slot) !== "string"]. *)
Definition is_schema_object (slot : SchemaSlot) : bool :=
  match slot with SchemaObject _ => true | _ => false end.

(** [slot.getChild(arg)] without a guard around it: a [TypeError] when the
    slot holds no schema object. *)
Definition call_getChild (slot : SchemaSlot) (arg : JsValue) : Completion (option loc) :=
  match slot with
  | SchemaObject sch => Normal (getChild sch arg)
  | _ => Throw TypeError
  end.

(** [array.forEach(f)]; a throw of [f] ends the iteration. *)
Fixpoint forEach {A} (f : A → Js unit) (array : list A) : Js unit :=
  match array with
  | [] => ret ()
  | x :: rest => f x ;; forEach f rest
  end.

(** [this.name] on a class. *)
Definition this_name (c : ECClass) : string := name (base c).

Definition isSome {A} (o : option A) : bool :=
  match o with Some _ => true | None => false end.

Section Methods.
Context (ext : Imports).

(** *** ECClass *)

(** [constructor(name, modifier?)], for the subclass [k]. *)
Definition new_ECClass (k : ClassKind) (name : string) (modifier : JsValue) : Js loc :=
  b <- lift (SchemaChild_constructor ext name) ;;
  alloc (OClass {|
    kind := k; base := b;
    modifier := if truthy modifier then modifier else ECClassModifier_None ext;
    baseClass := VUndefined; properties := None; mixins := None;
    appliesTo := VUndefined; containerType := VUndefined;
    strength := VUndefined; strengthDirection := VUndefined;
    source := VUndefined; target := VUndefined |}).

(** [this.properties.find((prop) => prop.name.toLowerCase() === name.toLowerCase())] *)
Fixpoint find_property (h : Heap) (name : string) (props : list loc)
    : Completion (option loc) :=
  match props with
  | [] => Normal None
  | prop :: rest =>
      match h !! prop with
      | Some (OProperty p) =>
          if String.eqb (toLowerCase ext (Property_name p)) (toLowerCase ext name)
          then Normal (Some prop)
          else find_property h name rest
      | _ => Throw TypeError
      end
  end.

Definition getProperty (this : loc) (name : string) : Js (option loc) :=
  c <- readClass this ;;
  match properties c with
  | None => ret None
  | Some props => λ h, (find_property h name props, h)
  end.

Definition duplicate_message (name className : string) : string :=
  "An ECProperty with the name " +:+ name +:+
  " already exists in the class " +:+ className +:+ ".".

(** [if (!this.properties) this.properties = []; this.properties.push(prop);] *)
Definition push_property (this : loc) (prop : loc) : Js unit :=
  c <- readClass this ;;
  (if negb (isSome (properties c)) then assign this (set_properties (Some []))
   else ret ()) ;;
  c <- readClass this ;;
  match properties c with
  | Some props => assign this (set_properties (Some (props ++ [prop])%list))
  | None => throw TypeError
  end.

Definition createPrimitiveProperty (this : loc) (name : string) (type : JsValue) : Js loc :=
  found <- getProperty this name ;;
  if isSome found then
    c <- readClass this ;;
    throw (ECObjectsError DuplicateProperty (duplicate_message name (this_name c)))
  else
    correctType <- (if truthy type && typeof_string type
                    then lift (parsePrimitiveType ext type)
                    else ret type) ;;
    primProp <- alloc (OProperty (PrimitiveProperty name correctType)) ;;
    push_property this primProp ;;
    ret primProp.

Definition createPrimitiveArrayProperty (this : loc) (name : string) (type : JsValue) : Js loc :=
  found <- getProperty this name ;;
  if isSome found then
    c <- readClass this ;;
    throw (ECObjectsError DuplicateProperty (duplicate_message name (this_name c)))
  else
    correctType <- (if truthy type && typeof_string type
                    then lift (parsePrimitiveType ext type)
                    else ret type) ;;
    primArrProp <- alloc (OProperty (PrimitiveArrayProperty name correctType)) ;;
    push_property this primArrProp ;;
    ret primArrProp.

Definition createStructProperty (this : loc) (name : string) (type : JsValue) : Js loc :=
  found <- getProperty this name ;;
  if isSome found then
    c <- readClass this ;;
    throw (ECObjectsError DuplicateProperty (duplicate_message name (this_name c)))
  else
    correctType <- (if typeof_string type
                    then c <- readClass this ;;
                         child <- lift (call_getChild (schema (base c)) type) ;;
                         ret (of_option child)
                    else ret type) ;;
    if negb (truthy correctType) then
      throw (ECObjectsError ECOBJECTS_ERROR_BASE "")
    else
      structProp <- alloc (OProperty (StructProperty name correctType)) ;;
      push_property this structProp ;;
      ret structProp.

Definition createStructArrayProperty (this : loc) (name : string) (type : JsValue) : Js loc :=
  found <- getProperty this name ;;
  if isSome found then
    c <- readClass this ;;
    throw (ECObjectsError DuplicateProperty (duplicate_message name (this_name c)))
  else
    correctType <- (if typeof_string type
                    then c <- readClass this ;;
                         child <- lift (call_getChild (schema (base c)) type) ;;
                         ret (of_option child)
                    else ret type) ;;
    if negb (truthy correctType) then
      throw (ECObjectsError ECOBJECTS_ERROR_BASE "")
    else
      structProp <- alloc (OProperty (StructArrayProperty name correctType)) ;;
      push_property this structProp ;;
      ret structProp.

(** [super.fromJson(jsonObj)] of [ECClass]: [SchemaChild]'s method, run on
    the [SchemaChild] part of [this]. *)
Definition SchemaChild_fromJson_on (this : loc) (jsonObj : JsonObj) : Js unit :=
  c <- readClass this ;;
  assign this (set_base (SchemaChild_fromJson ext (base c) jsonObj).2) ;;
  lift (SchemaChild_fromJson ext (base c) jsonObj).1.

Definition ECClass_fromJson (this : loc) (jsonObj : JsonObj) : Js unit :=
  SchemaChild_fromJson_on this jsonObj ;;
  (if truthy (get_field jsonObj "modifier") then
     m <- lift (parseClassModifier ext (get_field jsonObj "modifier")) ;;
     assign this (set_modifier m)
   else ret ()) ;;
  if truthy (get_field jsonObj "baseClass") then
    c <- readClass this ;;
    if negb (typeof_string (get_field jsonObj "baseClass")) then
      throw (ECObjectsError InvalidECJson
               ("The base class of " +:+ this_name c +:+ " is not a string type."))
    else
      match schema (base c) with
      | SchemaObject sch =>
          match getChild sch (get_field jsonObj "baseClass") with
          | None => throw (ECObjectsError InvalidECJson "")
          | Some baseClass => assign this (set_baseClass (VRef baseClass))
          end
      | _ => assign this (set_baseClass (get_field jsonObj "baseClass"))
      end
  else ret ().

(** *** EntityClass *)

Definition EntityClass_createNavigationProperty (this : loc) (name : string)
    (relationship direction : JsValue) : Js loc :=
  found <- getProperty this name ;;
  if isSome found then
    c <- readClass this ;;
    throw (ECObjectsError DuplicateProperty (duplicate_message name (this_name c)))
  else if typeof_string relationship then
    throw (ECObjectsError ECOBJECTS_ERROR_BASE "")
  else
    direction <- (if typeof_string direction
                  then lift (parseStrengthDirection ext direction)
                  else ret direction) ;;
    navProp <- alloc (OProperty (NavigationProperty name relationship direction)) ;;
    push_property this navProp ;;
    ret navProp.

(** The closure [loadMixin] of [EntityClass.fromJson]. *)
Definition loadMixin (this : loc) (mixinFullName : JsValue) : Js unit :=
  c <- readClass this ;;
  tempMixin <- lift (call_getChild (schema (base c)) mixinFullName) ;;
  match tempMixin with
  | None => throw (ECObjectsError InvalidECJson "")
  | Some tempMixin =>
      c <- readClass this ;;
      (if negb (isSome (mixins c)) then assign this (set_mixins (Some []))
       else ret ()) ;;
      c <- readClass this ;;
      match mixins c with
      | Some ms => assign this (set_mixins (Some (ms ++ [tempMixin])%list))
      | None => throw TypeError
      end
  end.

Definition EntityClass_fromJson (this : loc) (jsonObj : JsonObj) : Js unit :=
  ECClass_fromJson this jsonObj ;;
  if truthy (get_field jsonObj "mixin") then
    match get_field jsonObj "mixin" with
    | VString _ => loadMixin this (get_field jsonObj "mixin")
    | VArray mixinNames => forEach (loadMixin this) mixinNames
    | _ =>
        c <- readClass this ;;
        throw (ECObjectsError InvalidECJson
                 ("The Mixin on ECEntityClass " +:+ this_name c +:+
                  " is an invalid type. It must be of Json type string or an array of strings."))
    end
  else ret ().

(** *** MixinClass *)

Definition MixinClass_fromJson (this : loc) (jsonObj : JsonObj) : Js unit :=
  ECClass_fromJson this jsonObj ;;
  if truthy (get_field jsonObj "appliesTo") then
    c <- readClass this ;;
    tmpClass <- lift (call_getChild (schema (base c)) (get_field jsonObj "appliesTo")) ;;
    match tmpClass with
    | None => throw (ECObjectsError InvalidECJson "")
    | Some tmpClass => assign this (set_appliesTo (VRef tmpClass))
    end
  else ret ().

(** *** CustomAttributeClass *)

Definition CustomAttributeClass_fromJson (this : loc) (jsonObj : JsonObj) : Js unit :=
  ECClass_fromJson this jsonObj ;;
  if negb (truthy (get_field jsonObj "appliesTo")) then
    c <- readClass this ;;
    throw (ECObjectsError InvalidECJson
             ("The Custom Attribute class " +:+ this_name c +:+
              " is missing the required 'appliesTo' property."))
  else if negb (typeof_string (get_field jsonObj "appliesTo")) then
    throw (ECObjectsError InvalidECJson "")
  else
    containerType <- lift (parseCustomAttributeContainerType ext (get_field jsonObj "appliesTo")) ;;
    assign this (set_containerType containerType).

(** *** RelationshipConstraint *)

(** [constructor(relClass, relEnd)] *)
Definition new_RelationshipConstraint (relClass : loc) (relEnd : JsValue) : Js loc :=
  alloc (OConstraint {|
    relationshipEnd := relEnd;
    polymorphic := VBool false;
    multiplicity := RelationshipMultiplicity_zeroOne ext;
    relationshipClass := relClass;
    _abstractConstraint := VUndefined;
    roleLabel := VUndefined;
    constraintClasses := None |}).

(** [get abstractConstraint()], on the fields of [this]. *)
Definition get_abstractConstraint (rc : RelationshipConstraint) : JsValue :=
  if truthy (_abstractConstraint rc) then _abstractConstraint rc
  else
    match constraintClasses rc with
    | Some classes =>
        if (length classes =? 1)%nat then default VUndefined (classes !! 0%nat)
        else _abstractConstraint rc
    | None => _abstractConstraint rc
    end.

Definition abstractConstraint (this : loc) : Js JsValue :=
  rc <- readConstraint this ;;
  ret (get_abstractConstraint rc).

(** [set abstractConstraint(abstractConstraint)] *)
Definition abstractConstraint_set (this : loc) (abstractConstraint : JsValue) : Js unit :=
  assignConstraint this (set__abstractConstraint abstractConstraint).

(** [addClass(constraint)].  The [as] casts of the source are erased when
    it is compiled: [areEntityConstraints] is
    [undefined !== this.constraintClasses] and the guard of the throw
    tests [undefined === constraint]. *)
Definition addClass (this : loc) (constraint : JsValue) : Js unit :=
  rc <- readConstraint this ;;
  let areEntityConstraints := isSome (constraintClasses rc) in
  if areEntityConstraints && (match constraint with VUndefined => true | _ => false end) then
    throw (ECObjectsError InvalidECJson "")
  else
    (if negb (isSome (constraintClasses rc))
     then assignConstraint this (set_constraintClasses (Some []))
     else ret ()) ;;
    rc <- readConstraint this ;;
    match constraintClasses rc with
    | Some classes =>
        if areEntityConstraints
        then assignConstraint this (set_constraintClasses (Some (classes ++ [constraint])%list))
        else assignConstraint this (set_constraintClasses (Some (classes ++ [constraint])%list))
    | None => throw TypeError
    end.

(** [this.relationshipClass.schema] *)
Definition relationshipClass_schema (this : loc) : Js SchemaSlot :=
  rc <- readConstraint this ;;
  relClass <- readClass (relationshipClass rc) ;;
  ret (schema (base relClass)).

Definition RelationshipConstraint_fromJson (this : loc) (jsonObj : JsonObj) : Js unit :=
  (if truthy (get_field jsonObj "roleLabel")
   then assignConstraint this (set_roleLabel (get_field jsonObj "roleLabel"))
   else ret ()) ;;
  (if truthy (get_field jsonObj "polymorphic")
   then assignConstraint this (set_polymorphic (get_field jsonObj "polymorphic"))
   else ret ()) ;;
  (if truthy (get_field jsonObj "multiplicity") then
     match RelationshipMultiplicity_fromString ext (get_field jsonObj "multiplicity") with
     | None => throw (ECObjectsError InvalidMultiplicity "")
     | Some multTmp => assignConstraint this (set_multiplicity multTmp)
     end
   else ret ()) ;;
  (if truthy (get_field jsonObj "abstractConstraint") then
     if negb (typeof_string (get_field jsonObj "abstractConstraint")) then
       throw (ECObjectsError InvalidECJson "")
     else
       slot <- relationshipClass_schema this ;;
       match slot with
       | SchemaObject sch =>
           match getChild sch (get_field jsonObj "abstractConstraint") with
           | None => throw (ECObjectsError InvalidECJson "")
           | Some tempAbstractConstraint =>
               abstractConstraint_set this (VRef tempAbstractConstraint)
           end
       | _ => ret ()
       end
   else ret ()) ;;
  if truthy (get_field jsonObj "constraintClasses") then
    match get_field jsonObj "constraintClasses" with
    | VArray names =>
        forEach (λ constraintClass,
          slot <- relationshipClass_schema this ;;
          match slot with
          | SchemaObject sch =>
              match getChild sch constraintClass with
              | None => throw (ECObjectsError InvalidECJson "")
              | Some tempConstraintClass => addClass this (VRef tempConstraintClass)
              end
          | _ => ret ()
          end) names
    | _ => throw (ECObjectsError InvalidECJson "")
    end
  else ret ().

(** *** RelationshipClass *)

(** [constructor(name, strength?, strengthDirection?, modifier?)] *)
Definition new_RelationshipClass (name : string)
    (strength strengthDirection modifier : JsValue) : Js loc :=
  this <- new_ECClass RelationshipClass name modifier ;;
  (if truthy strength then assign this (set_strength strength)
   else assign this (set_strength (StrengthType_Referencing ext))) ;;
  (if truthy strengthDirection then assign this (set_strengthDirection strengthDirection)
   else assign this (set_strengthDirection (RelatedInstanceDirection_Forward ext))) ;;
  src <- new_RelationshipConstraint this (RelationshipEnd_Source ext) ;;
  assign this (set_source (VRef src)) ;;
  tgt <- new_RelationshipConstraint this (RelationshipEnd_Target ext) ;;
  assign this (set_target (VRef tgt)) ;;
  ret this.

Definition RelationshipClass_createNavigationProperty (this : loc) (name : string)
    (relationship direction : JsValue) : Js loc :=
  found <- getProperty this name ;;
  if isSome found then
    c <- readClass this ;;
    throw (ECObjectsError DuplicateProperty (duplicate_message name (this_name c)))
  else if typeof_string relationship then
    throw (ECObjectsError ECOBJECTS_ERROR_BASE "")
  else
    direction <- (if typeof_string direction
                  then lift (parseStrengthDirection ext direction)
                  else ret direction) ;;
    navProp <- alloc (OProperty (NavigationProperty name relationship direction)) ;;
    push_property this navProp ;;
    ret navProp.

Definition RelationshipClass_fromJson (this : loc) (jsonObj : JsonObj) : Js unit :=
  ECClass_fromJson this jsonObj ;;
  (if truthy (get_field jsonObj "strength") then
     s <- lift (parseStrength ext (get_field jsonObj "strength")) ;;
     assign this (set_strength s)
   else ret ()) ;;
  if truthy (get_field jsonObj "strengthDirection") then
    d <- lift (parseStrengthDirection ext (get_field jsonObj "strengthDirection")) ;;
    assign this (set_strengthDirection d)
  else ret ().
End Methods.

(** ** An instance of the imports

    Used to run the methods on concrete inputs; the theorems do not depend
    on it. *)
Module Sample.

(** The case mapping of the examples: it folds the letters A to Z, as
    [String.prototype.toLowerCase] does on a string of ASCII characters.
    The names of the examples are such strings. *)
Definition ascii_lower (a : ascii) : ascii :=
  let n := nat_of_ascii a in
  if ((65 <=? n) && (n <=? 90))%nat then ascii_of_nat (n + 32)%nat else a.

Fixpoint ascii_toLowerCase (s : string) : string :=
  match s with
  | EmptyString => EmptyString
  | String a rest => String (ascii_lower a) (ascii_toLowerCase rest)
  end.

(** A parser that knows the member names in [table]. *)
Definition parse_member (table : list (string * JsValue)) (v : JsValue)
    : Completion JsValue :=
  match v with
  | VString s =>
      match get_field table s with
      | VUndefined => Throw (ECObjectsError (OtherStatus 0) s)
      | member => Normal member
      end
  | _ => Throw (ECObjectsError (OtherStatus 0) "")
  end.

Definition zeroOne : RelationshipMultiplicity :=
  {| lowerLimit := 0; upperLimit := Some 1 |}.
Definition zeroMany : RelationshipMultiplicity :=
  {| lowerLimit := 0; upperLimit := None |}.

(** The multiplicity string "zero to many": an opening parenthesis,
    [0..], a star and a closing parenthesis. *)
Definition zeroMany_string : string := "(0..*" +:+ ")".

(** Modelled from the spec: [RelationshipMultiplicity.fromString] is not
    among the sources.  The spec names the default [0..1] and gives the
    zero-to-many string as a valid multiplicity; nothing else is accepted
    here. *)
Definition fromString (v : JsValue) : option RelationshipMultiplicity :=
  match v with
  | VString s =>
      if String.eqb s "(0..1)" then Some zeroOne
      else if String.eqb s zeroMany_string then Some zeroMany
      else None
  | _ => None
  end.

(** Stand-ins for what is imported: parsers that know a few member names
    and number them, the enumeration members the module names as numbers,
    and a [SchemaChild] that stores its name and reads nothing from the
    JSON object. *)
Definition imports : Imports := {|
  toLowerCase := ascii_toLowerCase;
  SchemaChild_constructor := λ name, Normal {| name := name; schema := SchemaUndefined |};
  SchemaChild_fromJson := λ b _, (Normal (), b);
  parsePrimitiveType :=
    parse_member [("string", VNumber 1); ("int", VNumber 2)];
  parseClassModifier :=
    parse_member [("None", VNumber 0); ("Abstract", VNumber 1); ("Sealed", VNumber 2)];
  parseStrength := parse_member [("Referencing", VNumber 0)];
  parseStrengthDirection := parse_member [("Forward", VNumber 1)];
  parseCustomAttributeContainerType := parse_member [("Schema", VNumber 1)];
  RelationshipMultiplicity_fromString := fromString;
  RelationshipMultiplicity_zeroOne := zeroOne;
  ECClassModifier_None := VNumber 0;
  StrengthType_Referencing := VNumber 0;
  RelatedInstanceDirection_Forward := VNumber 1;
  RelationshipEnd_Source := VNumber 0;
  RelationshipEnd_Target := VNumber 1
|}.

(** Two entity classes as the module's own methods leave them on an
    empty heap: [Element] at location 0 with its property [Id] at 1, and
    [Pipe] at location 2 with its property [Length] at 3 and
    [pipe.baseClass = element]. *)
Definition pipe_heap : Heap :=
  ((new_ECClass imports EntityClass "Element" VUndefined ;;
    createPrimitiveProperty imports 0 "Id" (VString "string") ;;
    new_ECClass imports EntityClass "Pipe" VUndefined ;;
    createPrimitiveProperty imports 2 "Length" (VString "int") ;;
    assign 2 (set_baseClass (VRef 0))) ∅).2.

Definition pipe : ECClass := {|
  kind := EntityClass;
  base := {| name := "Pipe"; schema := SchemaUndefined |};
  modifier := VNumber 0;
  baseClass := VRef 0; properties := Some [3]; mixins := None;
  appliesTo := VUndefined; containerType := VUndefined;
  strength := VUndefined; strengthDirection := VUndefined;
  source := VUndefined; target := VUndefined |}.

Definition element : ECClass := {|
  kind := EntityClass;
  base := {| name := "Element"; schema := SchemaUndefined |};
  modifier := VNumber 0;
  baseClass := VUndefined; properties := Some [1]; mixins := None;
  appliesTo := VUndefined; containerType := VUndefined;
  strength := VUndefined; strengthDirection := VUndefined;
  source := VUndefined; target := VUndefined |}.

(** On top of [pipe_heap]: a relationship class [PipeConnects] at
    location 4, whose constructor places its source constraint at 5 and
    its target constraint at 6; the entity class [Pipe] is then added to
    the source constraint. *)
Definition connects_heap : Heap :=
  ((new_RelationshipClass imports "PipeConnects" VUndefined VUndefined VUndefined ;;
    addClass 5 (VRef 2)) pipe_heap).2.

Definition connects_source : RelationshipConstraint := {|
  _abstractConstraint := VUndefined;
  relationshipClass := 4;
  relationshipEnd := VNumber 0;
  multiplicity := zeroOne;
  polymorphic := VBool false;
  roleLabel := VUndefined;
  constraintClasses := Some [VRef 2] |}.

Definition connects_target : RelationshipConstraint := {|
  _abstractConstraint := VUndefined;
  relationshipClass := 4;
  relationshipEnd := VNumber 1;
  multiplicity := zeroOne;
  polymorphic := VBool false;
  roleLabel := VUndefined;
  constraintClasses := None |}.

(** A schema whose children are the classes of the heaps of this
    module, by name. *)
Definition children : list (string * JsValue) :=
  [("Element", VRef 0); ("Pipe", VRef 2); ("PipeConnects", VRef 4);
   ("Insulated", VRef 7); ("Labelled", VRef 8); ("Units", VRef 9)].

Definition piping : Schema := {|
  getChild := λ v,
    match v with
    | VString s => match get_field children s with VRef l => Some l | _ => None end
    | _ => None
    end |}.

(** [cls.schema = schema] *)
Definition set_schema (this : loc) : Js unit :=
  c <- readClass this ;;
  assign this (set_base {| name := name (base c); schema := SchemaObject piping |}).

(** On top of [connects_heap]: the mixin classes [Insulated] at 7 and
    [Labelled] at 8 and the custom attribute class [Units] at 9; [Pipe],
    [PipeConnects], [Insulated] and [Units] are given the schema. *)
Definition schema_heap : Heap :=
  ((new_ECClass imports MixinClass "Insulated" VUndefined ;;
    new_ECClass imports MixinClass "Labelled" VUndefined ;;
    new_ECClass imports CustomAttributeClass "Units" VUndefined ;;
    set_schema 2 ;; set_schema 4 ;; set_schema 7 ;; set_schema 9) connects_heap).2.

Definition pipe_in_schema : ECClass :=
  set_base {| name := "Pipe"; schema := SchemaObject piping |} pipe.

(** [schema_heap] after the source constraint of [PipeConnects] has read
    a role label, the polymorphic flag and a multiplicity. *)
Definition labelled_heap : Heap :=
  (RelationshipConstraint_fromJson imports 5
     [("roleLabel", VString "connects"); ("polymorphic", VBool true);
      ("multiplicity", VString zeroMany_string)] schema_heap).2.

Definition labelled_source : RelationshipConstraint := {|
  _abstractConstraint := VUndefined;
  relationshipClass := 4;
  relationshipEnd := VNumber 0;
  multiplicity := zeroMany;
  polymorphic := VBool true;
  roleLabel := VString "connects";
  constraintClasses := Some [VRef 2] |}.

Definition insulated : ECClass := {|
  kind := MixinClass;
  base := {| name := "Insulated"; schema := SchemaObject piping |};
  modifier := VNumber 0;
  baseClass := VUndefined; properties := None; mixins := None;
  appliesTo := VUndefined; containerType := VUndefined;
  strength := VUndefined; strengthDirection := VUndefined;
  source := VUndefined; target := VUndefined |}.

Definition pipe_connects : ECClass := {|
  kind := RelationshipClass;
  base := {| name := "PipeConnects"; schema := SchemaObject piping |};
  modifier := VNumber 0;
  baseClass := VUndefined; properties := None; mixins := None;
  appliesTo := VUndefined; containerType := VUndefined;
  strength := VNumber 0; strengthDirection := VNumber 1;
  source := VRef 5; target := VRef 6 |}.

(** [pipe_heap] after [createPrimitiveProperty("Diameter", "int")] on
    [Pipe]: the new property is at location 4. *)
Definition diameter_heap : Heap :=
  (createPrimitiveProperty imports 2 "Diameter" (VString "int") pipe_heap).2.

End Sample.


(** ** Predicates on states *)

(** Every element of the array is a property object. *)
Definition all_properties (h : Heap) (props : list loc) : Prop :=
  Forall (λ prop, ∃ p, h !! prop = Some (OProperty p)) props.

(** [prop] is a property object of the array whose name is [name] up to
    case. *)
Definition named (ext : Imports) (h : Heap) (props : list loc) (name : string) (prop : loc) : Prop :=
  prop ∈ props ∧
  ∃ p, h !! prop = Some (OProperty p) ∧
       toLowerCase ext (Property_name p) = toLowerCase ext name.

(** The invariant the creation methods keep: no two property objects of
    the array have the same name up to case. *)
Definition names_unique (ext : Imports) (h : Heap) (props : list loc) : Prop :=
  ∀ prop1 prop2 p1 p2,
    prop1 ∈ props → prop2 ∈ props →
    h !! prop1 = Some (OProperty p1) → h !! prop2 = Some (OProperty p2) →
    toLowerCase ext (Property_name p1) = toLowerCase ext (Property_name p2) →
    prop1 = prop2.

(** What every creation method answers when the name is taken: the
    [DuplicateProperty] error, and the heap it was called on. *)
Definition duplicate_failure (h : Heap) (c : ECClass) (name : string)
    : Completion loc * Heap :=
  (Throw (ECObjectsError DuplicateProperty (duplicate_message name (this_name c))), h).


(** The class an object reference designates, when it designates one. *)
Definition kind_at (h : Heap) (v : JsValue) : option ClassKind :=
  match v with
  | VRef l => match h !! l with Some (OClass c) => Some (kind c) | _ => None end
  | _ => None
  end.

(** [constraintClasses] of the constraint at [this]. *)
Definition constraintClasses_at (h : Heap) (this : loc) : option (list JsValue) :=
  match h !! this with
  | Some (OConstraint rc) => constraintClasses rc
  | _ => None
  end.

(** The [modifier] field of the JSON object is falsy, or the imported
    parser accepts it. *)
Definition modifier_parses (ext : Imports) (jsonObj : JsonObj) : Prop :=
  truthy (get_field jsonObj "modifier") = true →
  ∃ m, parseClassModifier ext (get_field jsonObj "modifier") = Normal m.

(** [baseClass] of the class at [this]. *)
Definition baseClass_at (h : Heap) (this : loc) : option JsValue :=
  match h !! this with
  | Some (OClass c) => Some (baseClass c)
  | _ => None
  end.

(** The constraint at [this] has the value [v] in the field [proj]. *)
Definition constraint_field {T} (this : loc) (proj : RelationshipConstraint → T) (v : T)
    (h : Heap) : Prop :=
  ∃ rc, h !! this = Some (OConstraint rc) ∧ proj rc = v.

(** The class at [this] has the value [v] in the field [proj]. *)
Definition class_field {T} (this : loc) (proj : ECClass → T) (v : T) (h : Heap) : Prop :=
  ∃ c, h !! this = Some (OClass c) ∧ proj c = v.

(** [m] keeps [I]: the heap after [m], ended normally or by a throw,
    satisfies [I] when the heap before did. *)
Definition keeps {A} (I : Heap → Prop) (m : Js A) : Prop :=
  ∀ h, I h → I (m h).2.

(** The constraint once [fromJson] has gone through [roleLabel] and
    [polymorphic]: each is copied when the field of the JSON object is
    truthy. *)
Definition copy_scalars (jsonObj : JsonObj) (rc : RelationshipConstraint)
    : RelationshipConstraint :=
  let rc1 := if truthy (get_field jsonObj "roleLabel")
             then set_roleLabel (get_field jsonObj "roleLabel") rc else rc in
  if truthy (get_field jsonObj "polymorphic")
  then set_polymorphic (get_field jsonObj "polymorphic") rc1 else rc1.

(** The class once the mixins [resolved] have been pushed, in order, on its
    [mixins] array (created when the first is pushed). *)
Definition append_mixins (resolved : list loc) (c : ECClass) : ECClass :=
  match resolved with
  | [] => c
  | _ => set_mixins (Some (default [] (mixins c) ++ resolved)%list) c
  end.

(** Each name has a child in the schema; [resolved] lists them in the
    order of the names. *)
Definition resolves (sch : Schema) (names : list JsValue) (resolved : list loc) : Prop :=
  Forall2 (λ mixinName child, getChild sch mixinName = Some child) names resolved.

Definition mixin_type_message (c : ECClass) : string :=
  "The Mixin on ECEntityClass " +:+ this_name c +:+
  " is an invalid type. It must be of Json type string or an array of strings.".

Definition missing_appliesTo_message (c : ECClass) : string :=
  "The Custom Attribute class " +:+ this_name c +:+
  " is missing the required 'appliesTo' property.".

(** The class at [this] differs from [c] at most in its property list,
    of which the list of [c] is a prefix. *)
Definition only_appends (this : loc) (c : ECClass) (h : Heap) : Prop :=
  ∃ c', h !! this = Some (OClass c') ∧
        set_properties (properties c) c' = c ∧
        default [] (properties c) `prefix_of` default [] (properties c').

(** The fields of a class that no [fromJson] assigns. *)
Definition structure (c : ECClass) : ClassKind * option (list loc) * JsValue * JsValue :=
  (kind c, properties c, source c, target c).

(** The class at [this] is [c], the elements of its property list are
    property objects, and their names are unique up to case. *)
Definition well_formed_class (ext : Imports) (h : Heap) (this : loc) (c : ECClass) : Prop :=
  h !! this = Some (OClass c) ∧
  all_properties h (default [] (properties c)) ∧
  names_unique ext h (default [] (properties c)).

(** No property of the class has the name [name], up to case. *)
Definition fresh_name (ext : Imports) (h : Heap) (c : ECClass) (name : string) : Prop :=
  ∀ prop, ¬ named ext h (default [] (properties c)) name prop.

(** From [h] to [h']: the new object [prop], which is [p], has been pushed
    at the end of the property list of the class at [this]; the class is
    otherwise as it was, and still well formed; the other objects are as
    they were. *)
Definition appended (ext : Imports) (this : loc) (c : ECClass) (p : Property) (prop : loc)
    (h h' : Heap) : Prop :=
  h !! prop = None ∧
  h' !! prop = Some (OProperty p) ∧
  (∀ l o, l ≠ this → h !! l = Some o → h' !! l = Some o) ∧
  well_formed_class ext h' this
    (set_properties (Some (default [] (properties c) ++ [prop])%list) c).

(** The type a primitive property is created with: a non-empty string goes
    through the imported parser, anything else is taken as it is. *)
Definition correct_primitive_type (ext : Imports) (type : JsValue) : Completion JsValue :=
  if truthy type && typeof_string type then parsePrimitiveType ext type else Normal type.

(** The type a struct property is created with: a string is looked up in
    the schema of the class, anything else is taken as it is. *)
Definition correct_struct_type (c : ECClass) (type : JsValue) : Completion JsValue :=
  if typeof_string type
  then match schema (base c) with
       | SchemaObject sch => Normal (of_option (getChild sch type))
       | _ => Throw TypeError
       end
  else Normal type.

(** The direction a navigation property is created with: a string goes
    through the imported parser. *)
Definition correct_direction (ext : Imports) (direction : JsValue) : Completion JsValue :=
  if typeof_string direction then parseStrengthDirection ext direction else Normal direction.

(** The constraint the constructor of [RelationshipClass] creates for the
    end [relEnd] of the class at [relClass]. *)
Definition initial_constraint (ext : Imports) (relClass : loc) (relEnd : JsValue)
    : RelationshipConstraint := {|
  _abstractConstraint := VUndefined;
  relationshipClass := relClass;
  relationshipEnd := relEnd;
  multiplicity := RelationshipMultiplicity_zeroOne ext;
  polymorphic := VBool false;
  roleLabel := VUndefined;
  constraintClasses := None |}.

(** [undefined === v] *)
Definition is_undefined (v : JsValue) : bool :=
  match v with VUndefined => true | _ => false end.

(** The constraint with [constraint] pushed on its collection, which is
    created when there is none. *)
Definition with_class (constraint : JsValue) (rc : RelationshipConstraint)
    : RelationshipConstraint :=
  set_constraintClasses (Some (default [] (constraintClasses rc) ++ [constraint])%list) rc.

(** The [multiplicity] field of the JSON object is falsy, or the imported
    parser returns a multiplicity for it. *)
Definition multiplicity_parses (ext : Imports) (jsonObj : JsonObj) : Prop :=
  truthy (get_field jsonObj "multiplicity") = true →
  RelationshipMultiplicity_fromString ext (get_field jsonObj "multiplicity") ≠ None.

(** The constraint once [fromJson] has gone through [roleLabel],
    [polymorphic] and [multiplicity]. *)
Definition scalars (ext : Imports) (jsonObj : JsonObj) (rc : RelationshipConstraint)
    : RelationshipConstraint :=
  if truthy (get_field jsonObj "multiplicity") then
    match RelationshipMultiplicity_fromString ext (get_field jsonObj "multiplicity") with
    | Some multTmp => set_multiplicity multTmp (copy_scalars jsonObj rc)
    | None => copy_scalars jsonObj rc
    end
  else copy_scalars jsonObj rc.

(** The constraint once the classes [resolved] have been pushed, in order,
    on its collection (created when the first is pushed). *)
Definition append_classes (resolved : list loc) (rc : RelationshipConstraint)
    : RelationshipConstraint :=
  match resolved with
  | [] => rc
  | _ => set_constraintClasses
           (Some (default [] (constraintClasses rc) ++ (VRef <$> resolved))%list) rc
  end.

(** The callback [fromJson] runs on each entry of [constraintClasses]. *)
Definition add_resolved (this : loc) (constraintClass : JsValue) : Js unit :=
  slot <- relationshipClass_schema this ;;
  match slot with
  | SchemaObject sch =>
      match getChild sch constraintClass with
      | None => throw (ECObjectsError InvalidECJson "")
      | Some tempConstraintClass => addClass this (VRef tempConstraintClass)
      end
  | _ => ret ()
  end.

(** An enumeration field read from the JSON object: a truthy value goes
    through the imported parser, a falsy one leaves the field as it is. *)
Definition parsed_or (parser : JsValue → Completion JsValue) (v current : JsValue)
    : Completion JsValue :=
  if truthy v then parser v else Normal current.

(** The outcome [r] is a throw of an [ECObjectsError] with this status. *)
Definition raises {A} (status : ECObjectsStatus) (r : Completion A * Heap) : Prop :=
  ∃ message, r.1 = Throw (ECObjectsError status message).

(** The computation raises no [ECObjectsError] with this status, whatever
    the heap it is run in. *)
Definition never_raises {A} (status : ECObjectsStatus) (m : Js A) : Prop :=
  ∀ h, ¬ raises status (m h).

(** * IModel and IModelToken

    The second module of the sources: a token that names a briefcase and
    the abstract [IModel], which holds a token and creates its class
    meta-data registry the first time it is asked for.  Its objects live
    in a heap of their own. *)
Module IModel.

(** The fields of an [IModelToken]; a field not assigned reads
    [undefined]. *)
Record IModelToken : Type := mkIModelToken {
  pathname : JsValue;
  openMode : JsValue;
  imodelId : JsValue;
  briefcaseId : JsValue;
  userId : JsValue;
  changeSetId : JsValue;
  changeSetIndex : JsValue;
  isOpen : JsValue
}.

Record IModelObj : Type := mkIModel {
  _iModelToken : JsValue;
  _classMetaDataRegistry : JsValue
}.

(** The registry itself is declared in [./ClassRegistry], which is not
    among the sources: its instances are objects without modelled
    content. *)
Inductive Obj : Type :=
| OToken (token : IModelToken)
| OIModel (imodel : IModelObj)
| ORegistry.

Abbreviation Store := (gmap nat Obj) (only parsing).

(** [new IModelToken()]: no field assigned. *)
Definition empty_token : IModelToken :=
  mkIModelToken VUndefined VUndefined VUndefined VUndefined
                VUndefined VUndefined VUndefined VUndefined.

(** [IModelToken.fromFile(pathname, openMode, isOpen)] *)
Definition fromFile (pathname openMode isOpen : JsValue) (s : Store) : loc * Store :=
  let token := fresh (dom s) in
  (token, <[token := OToken (mkIModelToken pathname openMode VUndefined VUndefined
                               VUndefined VUndefined VUndefined isOpen)]> s).

(** [IModelToken.fromBriefcase(imodelId, briefcaseId, pathname, userId)] *)
Definition fromBriefcase (imodelId briefcaseId pathname userId : JsValue) (s : Store)
    : loc * Store :=
  let token := fresh (dom s) in
  (token, <[token := OToken (mkIModelToken pathname VUndefined imodelId briefcaseId
                               userId VUndefined VUndefined VUndefined)]> s).

(** [constructor(iModelToken)] of [IModel]. *)
Definition new_IModel (iModelToken : JsValue) (s : Store) : loc * Store :=
  let this := fresh (dom s) in
  (this, <[this := OIModel (mkIModel iModelToken VUndefined)]> s).

(** [toJSON()] *)
Definition toJSON (this : loc) (s : Store) : Completion JsValue * Store :=
  (Normal VUndefined, s).

(** [get iModelToken()] *)
Definition iModelToken (this : loc) (s : Store) : Completion JsValue * Store :=
  match s !! this with
  | Some (OIModel m) => (Normal (_iModelToken m), s)
  | _ => (Throw TypeError, s)
  end.

(** [get classMetaDataRegistry()].  [registry_error] is what the imported
    [new MetaDataRegistry()] throws, if it throws. *)
Definition classMetaDataRegistry (registry_error : option Exn) (this : loc) (s : Store)
    : Completion JsValue * Store :=
  match s !! this with
  | Some (OIModel m) =>
      if negb (truthy (_classMetaDataRegistry m)) then
        match registry_error with
        | Some e => (Throw e, s)
        | None =>
            let registry := fresh (dom s) in
            let s1 := <[registry := ORegistry]> s in
            (Normal (VRef registry),
             <[this := OIModel (mkIModel (_iModelToken m) (VRef registry))]> s1)
        end
      else (Normal (_classMetaDataRegistry m), s)
  | _ => (Throw TypeError, s)
  end.

End IModel.

(** * The Icon component

    [Icon(props)] of the third source, a function from the icon
    specification to what is rendered. *)
Module IconComponent.

(** The type [IconSpec] of the source: a string, a
    [ConditionalStringValue] or a React node; among the nodes the function
    tells apart those that are falsy.  Objects are named by a number. *)
Inductive IconSpec : Type :=
| SpecUndefined
| SpecNull
| SpecBool (b : bool)
| SpecNumber (n : Z)
| SpecString (s : string)
| SpecConditional (id : nat)
| SpecElement (id : nat).

(** [!props.iconSpec] is the negation of this. *)
Definition spec_truthy (iconSpec : IconSpec) : bool :=
  match iconSpec with
  | SpecUndefined | SpecNull => false
  | SpecBool b => b
  | SpecNumber n => negb (n =? 0)%Z
  | SpecString s => negb (String.eqb s "")
  | SpecConditional _ | SpecElement _ => true
  end.

(** [typeof iconSpec === "string" || iconSpec instanceof ConditionalStringValue] *)
Definition string_like (iconSpec : IconSpec) : bool :=
  match iconSpec with
  | SpecString _ | SpecConditional _ => true
  | _ => false
  end.

(** What is between the tags of the [i] element. *)
Inductive Children : Type :=
| NoChildren
| SvgSprite (src : string)
| SpecItself (iconSpec : IconSpec).

(** What the component returns: [null] or an [i] element. *)
Inductive Rendered : Type :=
| RenderNull
| RenderI (className : string) (children : Children).

Section Icon.
(** [ConditionalStringValue.getValue] and [IconSpecUtilities.getSvgSource]
    come from another package; each answers a string or [undefined]. *)
Context (getValue : IconSpec → option string) (getSvgSource : string → option string).

Definition Icon (iconSpec : IconSpec) : Rendered :=
  if negb (spec_truthy iconSpec) then RenderNull
  else
    let iconString := if string_like iconSpec then getValue iconSpec else None in
    match iconString with
    | Some iconString =>
        if negb (String.eqb iconString "") then
          match getSvgSource iconString with
          | Some svgSource => RenderI "icon core-svg-icon" (SvgSprite svgSource)
          | None => RenderI ("icon " +:+ iconString) NoChildren
          end
        else RenderI "icon core-svg-icon" (SpecItself iconSpec)
    | None => RenderI "icon core-svg-icon" (SpecItself iconSpec)
    end.
End Icon.

(** An instance of the two imported functions: a string is its own value,
    and a string that begins with [svg:] has the rest as its SVG source. *)
Definition sample_getValue (iconSpec : IconSpec) : option string :=
  match iconSpec with
  | SpecString s => Some s
  | _ => None
  end.

Definition sample_getSvgSource (iconString : string) : option string :=
  match iconString with
  | String "s" (String "v" (String "g" (String ":" (String a rest)))) => Some (String a rest)
  | _ => None
  end.

End IconComponent.
(** ** Reasoning about computations *)

Section Steps.
Context {A B : Type}.

Lemma bind_normal (m : Js A) (k : A → Js B) h a h' :
  m h = (Normal a, h') → bind m k h = k a h'.
Proof. intros E. unfold bind. by rewrite E. Qed.

Lemma bind_throw (m : Js A) (k : A → Js B) h e h' :
  m h = (Throw e, h') → bind m k h = (Throw e, h').
Proof. intros E. unfold bind. by rewrite E. Qed.
End Steps.

Lemma readClass_at h this c :
  h !! this = Some (OClass c) → readClass this h = (Normal c, h).
Proof. intros E. unfold readClass. by rewrite E. Qed.

Lemma readConstraint_at h this rc :
  h !! this = Some (OConstraint rc) → readConstraint this h = (Normal rc, h).
Proof. intros E. unfold readConstraint. by rewrite E. Qed.

Lemma assign_at h this c upd :
  h !! this = Some (OClass c) →
  assign this upd h = (Normal (), <[this := OClass (upd c)]> h).
Proof. intros E. unfold assign. by rewrite E. Qed.

Lemma assignConstraint_at h this rc upd :
  h !! this = Some (OConstraint rc) →
  assignConstraint this upd h = (Normal (), <[this := OConstraint (upd rc)]> h).
Proof. intros E. unfold assignConstraint. by rewrite E. Qed.

(** ** The property list *)

Lemma find_property_found {ext : Imports} h name props prop :
  all_properties h props → named ext h props name prop →
  ∃ found, find_property ext h name props = Normal (Some found) ∧ named ext h props name found.
Proof.
  intros Hall [Hin (p & Hp & Hname)].
  induction Hall as [|x rest [px Hx] Hrest IH].
  - by apply elem_of_nil in Hin.
  - simpl. rewrite Hx.
    destruct (String.eqb (toLowerCase ext (Property_name px)) (toLowerCase ext name)) eqn:E.
    + exists x. split; [done|]. split; [left|].
      exists px. split; [done|]. by apply String.eqb_eq.
    + apply elem_of_cons in Hin as [->|Hin].
      * rewrite Hx in Hp. injection Hp as ->.
        rewrite Hname, String.eqb_refl in E. done.
      * destruct (IH Hin) as (found & Hf & Hin' & Hnamed).
        exists found. split; [done|]. split; [by right|done].
Qed.

Lemma find_property_none {ext : Imports} h name props :
  all_properties h props →
  (∀ prop, ¬ named ext h props name prop) →
  find_property ext h name props = Normal None.
Proof.
  intros Hall Hno.
  induction Hall as [|x rest [px Hx] Hrest IH]; [done|].
  simpl. rewrite Hx.
  destruct (String.eqb (toLowerCase ext (Property_name px)) (toLowerCase ext name)) eqn:E.
  - exfalso. apply (Hno x). split; [left|].
    exists px. split; [done|]. by apply String.eqb_eq.
  - apply IH. intros prop [Hin Hp]. apply (Hno prop). split; [by right|done].
Qed.

(** The lookup only reads the lower-cased name. *)
Lemma find_property_case {ext : Imports} h name name' props :
  toLowerCase ext name' = toLowerCase ext name →
  find_property ext h name' props = find_property ext h name props.
Proof.
  intros E. induction props as [|x rest IH]; [done|].
  simpl. rewrite E, IH. done.
Qed.

Lemma getProperty_at {ext : Imports} h this c props name :
  h !! this = Some (OClass c) → properties c = Some props →
  getProperty ext this name h = (find_property ext h name props, h).
Proof.
  intros Hc Hp. unfold getProperty.
  rewrite (bind_normal _ _ _ _ _ (readClass_at _ _ _ Hc)), Hp. done.
Qed.

Lemma getProperty_duplicate {ext : Imports} h this c props name prop :
  h !! this = Some (OClass c) → properties c = Some props →
  all_properties h props → named ext h props name prop →
  ∃ found, getProperty ext this name h = (Normal (Some found), h).
Proof.
  intros Hc Hp Hall Hn.
  destruct (find_property_found _ _ _ _ Hall Hn) as (found & Hf & _).
  exists found. rewrite (getProperty_at _ _ _ _ _ Hc Hp), Hf. done.
Qed.

(** ** Creating a property under a name that is taken *)

Ltac duplicate_case Hfound Hc :=
  rewrite (bind_normal _ _ _ _ _ Hfound); simpl;
  rewrite (bind_normal _ _ _ _ _ (readClass_at _ _ _ Hc)); reflexivity.

(** C1: when the local property list of a class already holds a property
    whose name equals [name] up to case, each of the creation methods
    (createPrimitiveProperty, createPrimitiveArrayProperty,
    createStructProperty, createStructArrayProperty and
    createNavigationProperty of EntityClass and of RelationshipClass)
    throws DuplicateProperty, and the heap after the call is the heap
    before it: the property list, and everything else, is unchanged. *)
Theorem create_property_duplicate (ext : Imports) (h : Heap) (this : loc) (c : ECClass)
    (props : list loc) (name : string) (prop : loc)
    (type relationship direction : JsValue) :
  h !! this = Some (OClass c) →
  properties c = Some props →
  all_properties h props →
  named ext h props name prop →
  createPrimitiveProperty ext this name type h = duplicate_failure h c name ∧
  createPrimitiveArrayProperty ext this name type h = duplicate_failure h c name ∧
  createStructProperty ext this name type h = duplicate_failure h c name ∧
  createStructArrayProperty ext this name type h = duplicate_failure h c name ∧
  EntityClass_createNavigationProperty ext this name relationship direction h
    = duplicate_failure h c name ∧
  RelationshipClass_createNavigationProperty ext this name relationship direction h
    = duplicate_failure h c name.
Proof.
  intros Hc Hp Hall Hn.
  destruct (getProperty_duplicate _ _ _ _ _ _ Hc Hp Hall Hn) as [found Hfound].
  unfold duplicate_failure.
  repeat split.
  - unfold createPrimitiveProperty. duplicate_case Hfound Hc.
  - unfold createPrimitiveArrayProperty. duplicate_case Hfound Hc.
  - unfold createStructProperty. duplicate_case Hfound Hc.
  - unfold createStructArrayProperty. duplicate_case Hfound Hc.
  - unfold EntityClass_createNavigationProperty. duplicate_case Hfound Hc.
  - unfold RelationshipClass_createNavigationProperty. duplicate_case Hfound Hc.
Qed.

Lemma pipe_heap_pipe : Sample.pipe_heap !! 2 = Some (OClass Sample.pipe).
Proof. vm_compute. reflexivity. Qed.

Lemma pipe_heap_element : Sample.pipe_heap !! 0 = Some (OClass Sample.element).
Proof. vm_compute. reflexivity. Qed.

Lemma pipe_heap_Length :
  Sample.pipe_heap !! 3 = Some (OProperty (PrimitiveProperty "Length" (VNumber 2))).
Proof. vm_compute. reflexivity. Qed.

Lemma pipe_heap_Id :
  Sample.pipe_heap !! 1 = Some (OProperty (PrimitiveProperty "Id" (VNumber 1))).
Proof. vm_compute. reflexivity. Qed.

Lemma pipe_all_properties : all_properties Sample.pipe_heap [3].
Proof. repeat constructor. eexists. apply pipe_heap_Length. Qed.

Lemma pipe_named_Length name :
  toLowerCase Sample.imports "Length" = toLowerCase Sample.imports name → named Sample.imports Sample.pipe_heap [3] name 3.
Proof.
  intros E. split; [constructor|].
  eexists. split; [apply pipe_heap_Length|exact E].
Qed.

Lemma create_property_duplicate_witness :
  named Sample.imports Sample.pipe_heap [3] "LENGTH" 3 ∧
  createPrimitiveProperty Sample.imports 2 "LENGTH" (VString "string") Sample.pipe_heap
    = duplicate_failure Sample.pipe_heap Sample.pipe "LENGTH" ∧
  EntityClass_createNavigationProperty Sample.imports 2 "LENGTH" (VRef 0) (VString "Forward")
    Sample.pipe_heap
    = duplicate_failure Sample.pipe_heap Sample.pipe "LENGTH".
Proof.
  split; [apply pipe_named_Length; reflexivity|].
  pose proof (create_property_duplicate Sample.imports Sample.pipe_heap 2 Sample.pipe [3]
                "LENGTH" 3 (VString "string") (VRef 0) (VString "Forward")
                pipe_heap_pipe eq_refl pipe_all_properties
                (pipe_named_Length "LENGTH" eq_refl)) as H.
  split; [apply H|apply H].
Defined.

Lemma alloc_fresh (h : Heap) (o : HeapObj) :
  alloc o h = (Normal (fresh (dom h)), <[fresh (dom h) := o]> h) ∧
  h !! fresh (dom h) = None.
Proof.
  split; [done|]. apply not_elem_of_dom. apply is_fresh.
Qed.

(** ** Creating a property under a new name *)

Lemma push_property_at (h : Heap) (this : loc) (c : ECClass) (prop : loc) :
  h !! this = Some (OClass c) →
  push_property this prop h
  = (Normal (),
     <[this := OClass (set_properties (Some (default [] (properties c) ++ [prop])%list) c)]> h).
Proof.
  intros Hc. unfold push_property.
  rewrite (bind_normal _ _ _ _ _ (readClass_at _ _ _ Hc)).
  destruct (properties c) as [props|] eqn:Hp; simpl.
  - unfold bind, ret. rewrite (readClass_at _ _ _ Hc), Hp.
    by rewrite (assign_at _ _ _ _ Hc).
  - unfold bind. rewrite (assign_at _ _ _ _ Hc).
    unfold readClass, assign. repeat (rewrite lookup_insert_eq; simpl).
    by rewrite insert_insert_eq.
Qed.

(** The invariant of the property list, and how a creation method extends
    it: under a name no local property has, [createPrimitiveProperty]
    returns a new property object of that name, pushed at the end of the
    list, and the names of the list are still unique up to case. *)
Lemma createPrimitiveProperty_new_name (ext : Imports) (h : Heap) (this : loc)
    (c : ECClass) (name : string) (type : JsValue) :
  h !! this = Some (OClass c) →
  all_properties h (default [] (properties c)) →
  names_unique ext h (default [] (properties c)) →
  (∀ prop, ¬ named ext h (default [] (properties c)) name prop) →
  truthy type && typeof_string type = false →
  ∃ prop h',
    createPrimitiveProperty ext this name type h = (Normal prop, h') ∧
    h !! prop = None ∧
    h' !! prop = Some (OProperty (PrimitiveProperty name type)) ∧
    h' !! this
    = Some (OClass (set_properties (Some (default [] (properties c) ++ [prop])%list) c)) ∧
    all_properties h' (default [] (properties c) ++ [prop]) ∧
    names_unique ext h' (default [] (properties c) ++ [prop]).
Proof.
  intros Hc Hall Huniq Hnew Htype.
  assert (Hget : getProperty ext this name h = (Normal None, h)).
  { unfold getProperty. rewrite (bind_normal _ _ _ _ _ (readClass_at _ _ _ Hc)).
    destruct (properties c) as [ps|] eqn:Hp; [|done].
    by rewrite (find_property_none h name ps Hall Hnew). }
  set (props := default [] (properties c)) in *.
  set (p := PrimitiveProperty name type).
  destruct (alloc_fresh h (OProperty p)) as [Ealloc Hfresh].
  set (prop := fresh (dom h)) in *.
  assert (Nthis : prop ≠ this) by (intros E; rewrite E, Hc in Hfresh; done).
  set (h1 := <[prop := OProperty p]> h) in *.
  assert (Hc1 : h1 !! this = Some (OClass c)) by (subst h1; by rewrite lookup_insert_ne).
  set (c' := set_properties (Some (props ++ [prop])%list) c).
  set (h2 := <[this := OClass c']> h1).
  assert (Hold : ∀ l q, h !! l = Some (OProperty q) → h2 !! l = Some (OProperty q)).
  { intros l q Hl. subst h2 h1.
    rewrite !lookup_insert_ne; [done| |]; intros E; subst l; congruence. }
  assert (Hprop : h2 !! prop = Some (OProperty p)).
  { subst h2 h1. rewrite lookup_insert_ne by done. apply lookup_insert_eq. }
  assert (Hback : ∀ l q, l ∈ props → h2 !! l = Some (OProperty q) → h !! l = Some (OProperty q)).
  { intros l q Hin Hl.
    apply (proj1 (Forall_forall _ _) Hall) in Hin as [q' Hq'].
    rewrite (Hold _ _ Hq') in Hl. congruence. }
  exists prop, h2.
  split; [|split; [done|split; [done|split; [apply lookup_insert_eq|split]]]].
  - unfold createPrimitiveProperty.
    rewrite (bind_normal _ _ _ _ _ Hget). simpl. rewrite Htype.
    unfold bind at 1. unfold ret at 1.
    rewrite (bind_normal _ _ _ _ _ Ealloc).
    by rewrite (bind_normal _ _ _ _ _ (push_property_at _ _ _ _ Hc1)).
  - apply Forall_app. split.
    + eapply Forall_impl; [exact Hall|]. intros l [q Hq]. exists q. by apply Hold.
    + repeat constructor. by exists p.
  - intros l1 l2 q1 q2 Hin1 Hin2 H1 H2 Hname.
    apply elem_of_app in Hin1 as [Hin1|Hin1%list_elem_of_singleton];
      apply elem_of_app in Hin2 as [Hin2|Hin2%list_elem_of_singleton].
    + apply (Huniq l1 l2 q1 q2); eauto.
    + exfalso. subst l2. rewrite Hprop in H2. injection H2 as <-.
      apply (Hnew l1). split; [done|]. exists q1. split; [by apply Hback|done].
    + exfalso. subst l1. rewrite Hprop in H1. injection H1 as <-.
      apply (Hnew l2). split; [done|]. exists q2. split; [by apply Hback|done].
    + congruence.
Qed.

(** ** Looking a property up *)

(** C8: [getProperty] only reads the lower-cased lookup name, so every case
    variant of a name (every name with the same lower-case form, whatever
    the case mapping of the language makes of it) gets the same answer.
    When the local property list holds a property of that name, the answer
    is a property object of the list with that name, the very object [prop]
    when names are unique up to case, as the creation methods keep them.
    When the local list holds none, the answer is [undefined] whatever
    [baseClass] refers to: the base-class chain is not searched. *)
Theorem getProperty_case_insensitive (ext : Imports) (h : Heap) (this : loc) (c : ECClass)
    (props : list loc) (name name' : string) :
  h !! this = Some (OClass c) →
  properties c = Some props →
  all_properties h props →
  toLowerCase ext name' = toLowerCase ext name →
  getProperty ext this name' h = getProperty ext this name h ∧
  (∀ prop, named ext h props name prop →
     ∃ found, getProperty ext this name' h = (Normal (Some found), h) ∧
              named ext h props name found ∧
              (names_unique ext h props → found = prop)) ∧
  ((∀ prop, ¬ named ext h props name prop) →
     getProperty ext this name' h = (Normal None, h)).
Proof.
  intros Hc Hp Hall E.
  rewrite !(getProperty_at _ _ _ _ _ Hc Hp), (find_property_case _ _ _ _ E).
  split; [done|]. split.
  - intros prop Hn.
    destruct (find_property_found _ _ _ _ Hall Hn) as (found & Hf & Hnf).
    exists found. rewrite Hf. split; [done|]. split; [done|].
    intros Huniq.
    destruct Hn as [Hin (p & Hp' & Hname)].
    destruct Hnf as [Hinf (pf & Hpf & Hnamef)].
    apply (Huniq found prop pf p); try done. congruence.
  - intros Hno. by rewrite (find_property_none _ _ _ Hall Hno).
Qed.

Lemma pipe_names_unique : names_unique Sample.imports Sample.pipe_heap [3].
Proof.
  intros prop1 prop2 p1 p2 H1 H2 _ _ _.
  apply list_elem_of_singleton in H1, H2. congruence.
Qed.

Lemma pipe_not_named_Id prop : ¬ named Sample.imports Sample.pipe_heap [3] "ID" prop.
Proof.
  intros [Hin (p & Hp & Hname)].
  apply list_elem_of_singleton in Hin. subst prop.
  rewrite pipe_heap_Length in Hp. injection Hp as <-. discriminate Hname.
Qed.

Lemma pipe_not_named_Height prop :
  ¬ named Sample.imports Sample.pipe_heap [3] "Height" prop.
Proof.
  intros [Hin (p & Hp & Hname)].
  apply list_elem_of_singleton in Hin. subst prop.
  rewrite pipe_heap_Length in Hp. injection Hp as <-. discriminate Hname.
Qed.

Lemma getProperty_case_insensitive_witness :
  getProperty Sample.imports 2 "LENGTH" Sample.pipe_heap = getProperty Sample.imports 2 "length" Sample.pipe_heap ∧
  getProperty Sample.imports 2 "LENGTH" Sample.pipe_heap = (Normal (Some 3), Sample.pipe_heap) ∧
  getProperty Sample.imports 0 "iD" Sample.pipe_heap = (Normal (Some 1), Sample.pipe_heap) ∧
  getProperty Sample.imports 2 "iD" Sample.pipe_heap = (Normal None, Sample.pipe_heap) ∧
  getProperty Sample.imports 2 "HEIGHT" Sample.pipe_heap = (Normal None, Sample.pipe_heap).
Proof.
  pose proof (getProperty_case_insensitive Sample.imports Sample.pipe_heap 2 Sample.pipe [3]
                "length" "LENGTH" pipe_heap_pipe eq_refl pipe_all_properties eq_refl)
    as (Hsame & Hfound & _).
  pose proof (getProperty_case_insensitive Sample.imports Sample.pipe_heap 2 Sample.pipe [3]
                "ID" "iD" pipe_heap_pipe eq_refl pipe_all_properties eq_refl)
    as (_ & _ & Hnone).
  pose proof (getProperty_case_insensitive Sample.imports Sample.pipe_heap 2 Sample.pipe [3]
                "Height" "HEIGHT" pipe_heap_pipe eq_refl pipe_all_properties eq_refl)
    as (_ & _ & Hother).
  split; [exact Hsame|]. split; [|split; [|split]].
  - destruct (Hfound 3 (pipe_named_Length "length" eq_refl)) as (found & Hget & _ & Huniq).
    rewrite Hget, (Huniq pipe_names_unique). reflexivity.
  - vm_compute. reflexivity.
  - exact (Hnone pipe_not_named_Id).
  - exact (Hother pipe_not_named_Height).
Defined.

(** ** RelationshipConstraint *)

Lemma connects_heap_source :
  Sample.connects_heap !! 5 = Some (OConstraint Sample.connects_source).
Proof. vm_compute. reflexivity. Qed.

Lemma connects_heap_target :
  Sample.connects_heap !! 6 = Some (OConstraint Sample.connects_target).
Proof. vm_compute. reflexivity. Qed.

(** C3: the [abstractConstraint] getter reads the heap without changing it
    and returns the explicitly set abstract constraint when there is one (a
    truthy [_abstractConstraint]); otherwise the single constraint class
    when exactly one is registered; otherwise the absent explicit value. *)
Theorem abstractConstraint_getter (h : Heap) (this : loc) (rc : RelationshipConstraint) :
  h !! this = Some (OConstraint rc) →
  ∃ v, abstractConstraint this h = (Normal v, h) ∧
       (truthy (_abstractConstraint rc) = true → v = _abstractConstraint rc) ∧
       (truthy (_abstractConstraint rc) = false →
        ∀ single, constraintClasses rc = Some [single] → v = single) ∧
       (truthy (_abstractConstraint rc) = false →
        (∀ single, constraintClasses rc ≠ Some [single]) →
        v = _abstractConstraint rc).
Proof.
  intros Hrc. exists (get_abstractConstraint rc). split.
  - unfold abstractConstraint.
    by rewrite (bind_normal _ _ _ _ _ (readConstraint_at _ _ _ Hrc)).
  - unfold get_abstractConstraint.
    destruct (truthy (_abstractConstraint rc)); repeat split; try done.
    + intros _ single ->. done.
    + intros _ Hnot. destruct (constraintClasses rc) as [[|x [|y rest]]|]; try done.
      by destruct (Hnot x).
Qed.

Lemma abstractConstraint_getter_witness :
  abstractConstraint 5 Sample.connects_heap = (Normal (VRef 2), Sample.connects_heap) ∧
  abstractConstraint 6 Sample.connects_heap = (Normal VUndefined, Sample.connects_heap).
Proof.
  split.
  - destruct (abstractConstraint_getter Sample.connects_heap 5 Sample.connects_source
                connects_heap_source) as (v & Hv & _ & Hsingle & _).
    rewrite Hv, (Hsingle eq_refl (VRef 2) eq_refl). reflexivity.
  - destruct (abstractConstraint_getter Sample.connects_heap 6 Sample.connects_target
                connects_heap_target) as (v & Hv & _ & _ & Habsent).
    rewrite Hv, (Habsent eq_refl); [reflexivity|]. intros single. discriminate.
Defined.

(** [addClass] with any argument but [undefined] never throws: it appends
    the argument, whatever the classes already registered are. *)
Lemma addClass_appends (h : Heap) (this : loc) (rc : RelationshipConstraint)
    (constraint : JsValue) :
  h !! this = Some (OConstraint rc) →
  constraint ≠ VUndefined →
  addClass this constraint h =
    (Normal (),
     <[this := OConstraint
        (set_constraintClasses
           (Some (default [] (constraintClasses rc) ++ [constraint])%list) rc)]> h).
Proof.
  intros Hrc Hdef. unfold addClass.
  rewrite (bind_normal _ _ _ _ _ (readConstraint_at _ _ _ Hrc)).
  destruct (constraintClasses rc) as [classes|] eqn:Hcc; simpl.
  - destruct constraint; try done; simpl;
      unfold bind, ret; rewrite (readConstraint_at _ _ _ Hrc), Hcc;
      by rewrite (assignConstraint_at _ _ _ _ Hrc).
  - unfold bind. rewrite (assignConstraint_at _ _ _ _ Hrc).
    unfold readConstraint, assignConstraint.
    repeat (rewrite lookup_insert_eq; simpl).
    by rewrite insert_insert_eq.
Qed.

(** The only throw of [addClass]: an [undefined] argument when a collection
    exists. *)
Lemma addClass_undefined (h : Heap) (this : loc) (rc : RelationshipConstraint)
    (classes : list JsValue) :
  h !! this = Some (OConstraint rc) →
  constraintClasses rc = Some classes →
  addClass this VUndefined h = (Throw (ECObjectsError InvalidECJson ""), h).
Proof.
  intros Hrc Hcc. unfold addClass.
  rewrite (bind_normal _ _ _ _ _ (readConstraint_at _ _ _ Hrc)), Hcc. done.
Qed.

(** C2: the source checks no kind.  On the source constraint of
    [PipeConnects], which holds the entity class [Pipe], [addClass] given
    the relationship class [PipeConnects] ends normally and the collection
    then holds both; symmetrically the target constraint, once it holds the
    relationship class, accepts the entity class. *)
Theorem addClass_accepts_kind_mismatch :
  constraintClasses_at Sample.connects_heap 5 = Some [VRef 2] ∧
  kind_at Sample.connects_heap (VRef 2) = Some EntityClass ∧
  kind_at Sample.connects_heap (VRef 4) = Some RelationshipClass ∧
  (addClass 5 (VRef 4) Sample.connects_heap).1 = Normal () ∧
  constraintClasses_at (addClass 5 (VRef 4) Sample.connects_heap).2 5
    = Some [VRef 2; VRef 4] ∧
  ((addClass 6 (VRef 4) ;; addClass 6 (VRef 2)) Sample.connects_heap).1 = Normal () ∧
  constraintClasses_at ((addClass 6 (VRef 4) ;; addClass 6 (VRef 2)) Sample.connects_heap).2 6
    = Some [VRef 4; VRef 2].
Proof. vm_compute. repeat split. Qed.

(** ** Constructing a relationship class *)


(** C4: when the base constructor returns, [new RelationshipClass(name)]
    with [strength] and [strengthDirection] omitted returns a new class
    object whose [strength] is [Referencing] and whose [strengthDirection]
    is [Forward]; its [source] and [target] are two distinct new constraint
    objects, whose [relationshipClass] is the constructed class itself and
    whose ends are [Source] and [Target]. *)
Theorem new_RelationshipClass_defaults (ext : Imports) (h : Heap) (name : string)
    (modifier : JsValue) (b : SchemaChild) :
  SchemaChild_constructor ext name = Normal b →
  ∃ this src tgt h' c rs rt,
    new_RelationshipClass ext name VUndefined VUndefined modifier h = (Normal this, h') ∧
    h !! this = None ∧ h !! src = None ∧ h !! tgt = None ∧
    this ≠ src ∧ this ≠ tgt ∧ src ≠ tgt ∧
    h' !! this = Some (OClass c) ∧
    kind c = RelationshipClass ∧
    strength c = StrengthType_Referencing ext ∧
    strengthDirection c = RelatedInstanceDirection_Forward ext ∧
    source c = VRef src ∧
    target c = VRef tgt ∧
    h' !! src = Some (OConstraint rs) ∧
    relationshipClass rs = this ∧
    relationshipEnd rs = RelationshipEnd_Source ext ∧
    h' !! tgt = Some (OConstraint rt) ∧
    relationshipClass rt = this ∧
    relationshipEnd rt = RelationshipEnd_Target ext.
Proof.
  intros Hb.
  unfold new_RelationshipClass, new_ECClass, new_RelationshipConstraint.
  unfold bind at 1. unfold bind at 1. unfold lift at 1. rewrite Hb.
  set (c0 := mkECClass _ _ _ _ _ _ _ _ _ _ _ _).
  destruct (alloc_fresh h (OClass c0)) as [-> Hthis].
  set (this := fresh (dom h)) in *.
  set (h1 := <[this := OClass c0]> h).
  assert (H1 : h1 !! this = Some (OClass c0)) by apply lookup_insert_eq.
  simpl truthy. cbv iota.
  rewrite (bind_normal _ _ _ _ _ (assign_at _ _ _ _ H1)).
  set (c1 := set_strength _ c0).
  set (h2 := <[this := OClass c1]> h1).
  assert (H2 : h2 !! this = Some (OClass c1)) by apply lookup_insert_eq.
  rewrite (bind_normal _ _ _ _ _ (assign_at _ _ _ _ H2)).
  set (c2 := set_strengthDirection _ c1).
  set (h3 := <[this := OClass c2]> h2).
  assert (H3 : h3 !! this = Some (OClass c2)) by apply lookup_insert_eq.
  set (rs := mkRelationshipConstraint _ this (RelationshipEnd_Source ext) _ _ _ _).
  destruct (alloc_fresh h3 (OConstraint rs)) as [Es Hsrc].
  rewrite (bind_normal _ _ _ _ _ Es).
  set (src := fresh (dom h3)) in *.
  assert (Nsrc : this ≠ src) by (intros E; rewrite <- E, H3 in Hsrc; done).
  set (h4 := <[src := OConstraint rs]> h3).
  assert (H4 : h4 !! this = Some (OClass c2)) by (subst h4; by rewrite lookup_insert_ne).
  rewrite (bind_normal _ _ _ _ _ (assign_at _ _ _ _ H4)).
  set (c3 := set_source _ c2).
  set (h5 := <[this := OClass c3]> h4).
  assert (H5 : h5 !! this = Some (OClass c3)) by apply lookup_insert_eq.
  assert (H5s : h5 !! src = Some (OConstraint rs)).
  { subst h5 h4. rewrite lookup_insert_ne by done. apply lookup_insert_eq. }
  set (rt := mkRelationshipConstraint _ this (RelationshipEnd_Target ext) _ _ _ _).
  destruct (alloc_fresh h5 (OConstraint rt)) as [Et Htgt].
  rewrite (bind_normal _ _ _ _ _ Et).
  set (tgt := fresh (dom h5)) in *.
  assert (Ntgt : this ≠ tgt) by (intros E; rewrite <- E, H5 in Htgt; done).
  assert (Nst : src ≠ tgt) by (intros E; rewrite <- E, H5s in Htgt; done).
  set (h6 := <[tgt := OConstraint rt]> h5).
  assert (H6 : h6 !! this = Some (OClass c3)) by (subst h6; by rewrite lookup_insert_ne).
  rewrite (bind_normal _ _ _ _ _ (assign_at _ _ _ _ H6)).
  set (c4 := set_target _ c3).
  set (h7 := <[this := OClass c4]> h6).
  exists this, src, tgt, h7, c4, rs, rt.
  split; [done|]. split; [done|].
  assert (Hs0 : h !! src = None).
  { subst h3 h2 h1. by rewrite !lookup_insert_ne in Hsrc. }
  assert (Ht0 : h !! tgt = None).
  { subst h5 h4 h3 h2 h1. by rewrite !lookup_insert_ne in Htgt. }
  repeat split; try done.
  - apply lookup_insert_eq.
  - subst h7 h6. by rewrite !lookup_insert_ne.
  - subst h7 h6. rewrite lookup_insert_ne by done. apply lookup_insert_eq.
Qed.

Lemma new_RelationshipClass_defaults_witness :
  SchemaChild_constructor Sample.imports "PipeConnects"
    = Normal {| name := "PipeConnects"; schema := SchemaUndefined |} ∧
  ∃ this src h' c rs,
    new_RelationshipClass Sample.imports "PipeConnects" VUndefined VUndefined VUndefined
      Sample.pipe_heap = (Normal this, h') ∧
    h' !! this = Some (OClass c) ∧
    strength c = VNumber 0 ∧ strengthDirection c = VNumber 1 ∧
    source c = VRef src ∧
    h' !! src = Some (OConstraint rs) ∧
    relationshipClass rs = this ∧ relationshipEnd rs = VNumber 0.
Proof.
  split; [reflexivity|].
  destruct (new_RelationshipClass_defaults Sample.imports Sample.pipe_heap "PipeConnects"
              VUndefined {| name := "PipeConnects"; schema := SchemaUndefined |} eq_refl)
    as (this & src & tgt & h' & c & rs & rt & Hnew & _ & _ & _ & _ & _ & _ & Hc & _ &
        Hstrength & Hdirection & Hsource & _ & Hrs & Hback & Hend & _).
  exists this, src, h', c, rs. repeat split; assumption.
Defined.

(** ** ECClass.fromJson *)

(** The class object when [fromJson] comes to the [baseClass] field: the
    [SchemaChild] part as the base method left it, the modifier parsed. *)
Lemma ECClass_fromJson_prefix (ext : Imports) (h : Heap) (this : loc) (c : ECClass)
    (jsonObj : JsonObj) (b' : SchemaChild) :
  h !! this = Some (OClass c) →
  SchemaChild_fromJson ext (base c) jsonObj = (Normal (), b') →
  modifier_parses ext jsonObj →
  ∃ c1, base c1 = b' ∧ baseClass c1 = baseClass c ∧
    ∀ (k : Js unit),
      (SchemaChild_fromJson_on ext this jsonObj ;;
       (if truthy (get_field jsonObj "modifier") then
          m <- lift (parseClassModifier ext (get_field jsonObj "modifier")) ;;
          assign this (set_modifier m)
        else ret ()) ;;
       k) h
      = k (<[this := OClass c1]> h) ∧
      (<[this := OClass c1]> h) !! this = Some (OClass c1).
Proof.
  intros Hc Hbase Hmod.
  assert (Hstep : SchemaChild_fromJson_on ext this jsonObj h
                  = (Normal (), <[this := OClass (set_base b' c)]> h)).
  { unfold SchemaChild_fromJson_on.
    rewrite (bind_normal _ _ _ _ _ (readClass_at _ _ _ Hc)), Hbase. simpl.
    by rewrite (bind_normal _ _ _ _ _ (assign_at _ _ _ _ Hc)). }
  destruct (truthy (get_field jsonObj "modifier")) eqn:Ht.
  - destruct (Hmod Ht) as [m Hm].
    exists (set_modifier m (set_base b' c)). repeat split.
    + rewrite (bind_normal _ _ _ _ _ Hstep).
      unfold bind at 1. unfold bind at 1. unfold lift at 1. rewrite Hm.
      rewrite (assign_at _ _ (set_base b' c)) by apply lookup_insert_eq.
      by rewrite insert_insert_eq.
    + apply lookup_insert_eq.
  - exists (set_base b' c). repeat split.
    + rewrite (bind_normal _ _ _ _ _ Hstep). done.
    + apply lookup_insert_eq.
Qed.

(** C5, as the code has it: once the base method and the modifier parser
    have returned, [ECClass.fromJson] ignores a falsy [baseClass] field
    (absent, [null], [false], [0] or the empty string); throws
    InvalidECJson for a truthy one that is not a string; for a non-empty
    string it asks the schema object of the class and throws InvalidECJson
    when there is no such child, else sets [baseClass] to the child; and
    when the class has no schema object it stores the name itself. *)
Theorem ECClass_fromJson_baseClass (ext : Imports) (h : Heap) (this : loc) (c : ECClass)
    (jsonObj : JsonObj) (b' : SchemaChild) :
  h !! this = Some (OClass c) →
  SchemaChild_fromJson ext (base c) jsonObj = (Normal (), b') →
  modifier_parses ext jsonObj →
  ∃ c1, base c1 = b' ∧ baseClass c1 = baseClass c ∧
    (truthy (get_field jsonObj "baseClass") = false →
       ECClass_fromJson ext this jsonObj h = (Normal (), <[this := OClass c1]> h)) ∧
    (truthy (get_field jsonObj "baseClass") = true →
     typeof_string (get_field jsonObj "baseClass") = false →
       ECClass_fromJson ext this jsonObj h
       = (Throw (ECObjectsError InvalidECJson
                   ("The base class of " +:+ name b' +:+ " is not a string type.")),
          <[this := OClass c1]> h)) ∧
    (truthy (get_field jsonObj "baseClass") = true →
     typeof_string (get_field jsonObj "baseClass") = true →
     ∀ sch, schema b' = SchemaObject sch →
       ECClass_fromJson ext this jsonObj h
       = match getChild sch (get_field jsonObj "baseClass") with
         | None => (Throw (ECObjectsError InvalidECJson ""), <[this := OClass c1]> h)
         | Some resolved =>
             (Normal (), <[this := OClass (set_baseClass (VRef resolved) c1)]> h)
         end) ∧
    (truthy (get_field jsonObj "baseClass") = true →
     typeof_string (get_field jsonObj "baseClass") = true →
     is_schema_object (schema b') = false →
       ECClass_fromJson ext this jsonObj h
       = (Normal (),
          <[this := OClass (set_baseClass (get_field jsonObj "baseClass") c1)]> h)).
Proof.
  intros Hc Hbase Hmod.
  destruct (ECClass_fromJson_prefix ext h this c jsonObj b' Hc Hbase Hmod)
    as (c1 & Hb1 & Hbc1 & Hk).
  exists c1. split; [done|]. split; [done|].
  unfold ECClass_fromJson.
  repeat split.
  - intros Hf. match goal with |- (_ ;; _ ;; ?k) h = _ => destruct (Hk k) as [-> H1] end.
    by rewrite Hf.
  - intros Ht Hs. match goal with |- (_ ;; _ ;; ?k) h = _ => destruct (Hk k) as [-> H1] end.
    rewrite Ht, (bind_normal _ _ _ _ _ (readClass_at _ _ _ H1)), Hs. simpl.
    unfold this_name. by rewrite Hb1.
  - intros Ht Hs sch Hsch.
    match goal with |- (_ ;; _ ;; ?k) h = _ => destruct (Hk k) as [-> H1] end.
    rewrite Ht, (bind_normal _ _ _ _ _ (readClass_at _ _ _ H1)), Hs. simpl.
    rewrite Hb1, Hsch.
    destruct (getChild sch (get_field jsonObj "baseClass")); [|done].
    rewrite (assign_at _ _ _ _ H1). by rewrite insert_insert_eq.
  - intros Ht Hs Hno.
    match goal with |- (_ ;; _ ;; ?k) h = _ => destruct (Hk k) as [-> H1] end.
    rewrite Ht, (bind_normal _ _ _ _ _ (readClass_at _ _ _ H1)), Hs. simpl.
    rewrite Hb1.
    destruct (schema b'); try done;
      rewrite (assign_at _ _ _ _ H1); by rewrite insert_insert_eq.
Qed.

Lemma schema_heap_pipe : Sample.schema_heap !! 2 = Some (OClass Sample.pipe_in_schema).
Proof. vm_compute. reflexivity. Qed.

Lemma no_modifier_parses (ext : Imports) (jsonObj : JsonObj) :
  truthy (get_field jsonObj "modifier") = false → modifier_parses ext jsonObj.
Proof. intros Hf Ht. congruence. Qed.

Lemma ECClass_fromJson_baseClass_witness :
  ∃ c1,
    base c1 = {| name := "Pipe"; schema := SchemaObject Sample.piping |} ∧
    ECClass_fromJson Sample.imports 2 [("baseClass", VString "Element")] Sample.schema_heap
    = (Normal (), <[2 := OClass (set_baseClass (VRef 0) c1)]> Sample.schema_heap).
Proof.
  destruct (ECClass_fromJson_baseClass Sample.imports Sample.schema_heap 2
              Sample.pipe_in_schema [("baseClass", VString "Element")]
              {| name := "Pipe"; schema := SchemaObject Sample.piping |}
              schema_heap_pipe eq_refl
              (no_modifier_parses Sample.imports [("baseClass", VString "Element")] eq_refl))
    as (c1 & Hbase & _ & _ & _ & Hresolve & _).
  exists c1. split; [exact Hbase|].
  exact (Hresolve eq_refl eq_refl Sample.piping eq_refl).
Defined.

(** C5, refuted as stated: a [baseClass] field that is present and not a
    string ([false]) is accepted without an error, and a class that has no
    schema object stores an unresolvable name instead of failing. *)
Lemma ECClass_fromJson_baseClass_false_accepted :
  typeof_string (get_field [("baseClass", VBool false)] "baseClass") = false ∧
  (ECClass_fromJson Sample.imports 2 [("baseClass", VBool false)] Sample.schema_heap).1
    = Normal () ∧
  (ECClass_fromJson Sample.imports 2 [("baseClass", VString "Valve")] Sample.pipe_heap).1
    = Normal () ∧
  baseClass_at
    (ECClass_fromJson Sample.imports 2 [("baseClass", VString "Valve")] Sample.pipe_heap).2 2
    = Some (VString "Valve").
Proof. vm_compute. repeat split. Qed.

(** ** Fields a method leaves alone *)

Section Keeps.
Context {A B : Type} (I : Heap → Prop).

Lemma keeps_ret (a : A) : keeps I (ret a).
Proof. by intros h Hh. Qed.

Lemma keeps_throw (e : Exn) : keeps I (throw (A := A) e).
Proof. by intros h Hh. Qed.

Lemma keeps_lift (r : Completion A) : keeps I (lift r).
Proof. by intros h Hh. Qed.

Lemma keeps_bind (m : Js A) (k : A → Js B) :
  keeps I m → (∀ a, keeps I (k a)) → keeps I (bind m k).
Proof.
  intros Hm Hk h Hh. unfold bind. specialize (Hm h Hh).
  destruct (m h) as [[a|e] h']; simpl in *; [by apply (Hk a)|done].
Qed.
End Keeps.

Lemma keeps_forEach {A} (I : Heap → Prop) (f : A → Js unit) (array : list A) :
  (∀ x, keeps I (f x)) → keeps I (forEach f array).
Proof.
  intros Hf. induction array as [|x rest IH]; simpl.
  - apply keeps_ret.
  - apply keeps_bind; [apply Hf|]. intros _. apply IH.
Qed.

Lemma keeps_readClass (I : Heap → Prop) (l : loc) : keeps I (readClass l).
Proof. intros h Hh. unfold readClass. by destruct (h !! l) as [[]|]. Qed.

Lemma keeps_readConstraint (I : Heap → Prop) (l : loc) : keeps I (readConstraint l).
Proof. intros h Hh. unfold readConstraint. by destruct (h !! l) as [[]|]. Qed.

Lemma keeps_assignConstraint {T} (this : loc) (proj : RelationshipConstraint → T) (v : T)
    (upd : RelationshipConstraint → RelationshipConstraint) :
  (∀ rc, proj (upd rc) = proj rc) →
  keeps (constraint_field this proj v) (assignConstraint this upd).
Proof.
  intros Hupd h (rc & Hrc & Hv). rewrite (assignConstraint_at _ _ _ _ Hrc). simpl.
  exists (upd rc). split; [apply lookup_insert_eq|]. by rewrite Hupd.
Qed.

Lemma keeps_assign {T} (this : loc) (proj : ECClass → T) (v : T) (upd : ECClass → ECClass) :
  (∀ c, proj (upd c) = proj c) →
  keeps (class_field this proj v) (assign this upd).
Proof.
  intros Hupd h (c & Hc & Hv). rewrite (assign_at _ _ _ _ Hc). simpl.
  exists (upd c). split; [apply lookup_insert_eq|]. by rewrite Hupd.
Qed.

(** Splits a computation along its binds and its case distinctions, down
    to reads, throws and assignments. *)
Ltac keeps_steps :=
  repeat first
    [ apply keeps_ret | apply keeps_throw | apply keeps_lift
    | apply keeps_readClass | apply keeps_readConstraint
    | apply keeps_assignConstraint; intros ?; reflexivity
    | apply keeps_assign; intros ?; reflexivity
    | apply keeps_bind; [|intros ?]
    | apply keeps_forEach; intros ?
    | match goal with
      | |- keeps _ (if ?b then _ else _) => destruct b
      | |- keeps _ (match ?x with _ => _ end) => destruct x
      end ].

Lemma keeps_addClass {T} (this : loc) (proj : RelationshipConstraint → T) (v : T)
    (constraint : JsValue) :
  (∀ classes rc, proj (set_constraintClasses classes rc) = proj rc) →
  keeps (constraint_field this proj v) (addClass this constraint).
Proof.
  intros Hproj. unfold addClass.
  apply keeps_bind; [apply keeps_readConstraint|]. intros rc.
  destruct (isSome (constraintClasses rc) && _); [apply keeps_throw|].
  apply keeps_bind.
  - destruct (negb _); [by apply keeps_assignConstraint|apply keeps_ret].
  - intros _. apply keeps_bind; [apply keeps_readConstraint|]. intros rc'.
    destruct (constraintClasses rc'); [|apply keeps_throw].
    destruct (isSome (constraintClasses rc)); by apply keeps_assignConstraint.
Qed.

Lemma keeps_relationshipClass_schema (I : Heap → Prop) (this : loc) :
  keeps I (relationshipClass_schema this).
Proof. unfold relationshipClass_schema. keeps_steps. Qed.

Ltac keeps_constraint :=
  repeat first
    [ simple apply keeps_addClass; intros ? ?; reflexivity
    | simple apply keeps_relationshipClass_schema
    | simple apply keeps_ret | simple apply keeps_throw | simple apply keeps_lift
    | simple apply keeps_readClass | simple apply keeps_readConstraint
    | simple apply keeps_assignConstraint; intros ?; reflexivity
    | simple apply keeps_bind; [|intros ?]
    | simple apply keeps_forEach; intros ?
    | match goal with
      | |- keeps _ (if ?b then _ else _) => destruct b
      | |- keeps _ (match ?x with _ => _ end) => destruct x
      | |- keeps _ (abstractConstraint_set _ _) => unfold abstractConstraint_set
      end ].

Lemma assignConstraint_if (h : Heap) (this : loc) (rc : RelationshipConstraint)
    (b : bool) (upd : RelationshipConstraint → RelationshipConstraint) :
  h !! this = Some (OConstraint rc) →
  (if b then assignConstraint this upd else ret ()) h
  = (Normal (), <[this := OConstraint (if b then upd rc else rc)]> h).
Proof.
  intros Hrc. destruct b; [by apply assignConstraint_at|].
  unfold ret. by rewrite insert_id.
Qed.

(** [fromJson] up to the [multiplicity] field. *)
Lemma RelationshipConstraint_fromJson_prefix (h : Heap) (this : loc)
    (rc : RelationshipConstraint) (jsonObj : JsonObj) (k : Js unit) :
  h !! this = Some (OConstraint rc) →
  ((if truthy (get_field jsonObj "roleLabel")
    then assignConstraint this (set_roleLabel (get_field jsonObj "roleLabel"))
    else ret ()) ;;
   (if truthy (get_field jsonObj "polymorphic")
    then assignConstraint this (set_polymorphic (get_field jsonObj "polymorphic"))
    else ret ()) ;;
   k) h
  = k (<[this := OConstraint (copy_scalars jsonObj rc)]> h).
Proof.
  intros Hrc.
  rewrite (bind_normal _ _ _ _ _ (assignConstraint_if _ _ _ _ _ Hrc)).
  erewrite bind_normal; [|by apply assignConstraint_if, lookup_insert_eq].
  rewrite insert_insert_eq. unfold copy_scalars.
  by destruct (truthy (get_field jsonObj "roleLabel")),
              (truthy (get_field jsonObj "polymorphic")).
Qed.

(** C10: [RelationshipConstraint.fromJson] copies [polymorphic] and
    [roleLabel] only when the field of the JSON object is truthy.  With a
    falsy field ([polymorphic: false], [roleLabel] the empty string, or
    the field absent) the constraint has, when the call has ended, normally
    or by a throw, the value it had before; with a truthy field it has the
    value of the JSON object. *)
Theorem RelationshipConstraint_fromJson_copies_truthy (ext : Imports) (h : Heap)
    (this : loc) (rc : RelationshipConstraint) (jsonObj : JsonObj) :
  h !! this = Some (OConstraint rc) →
  constraint_field this polymorphic
    (if truthy (get_field jsonObj "polymorphic")
     then get_field jsonObj "polymorphic" else polymorphic rc)
    (RelationshipConstraint_fromJson ext this jsonObj h).2 ∧
  constraint_field this roleLabel
    (if truthy (get_field jsonObj "roleLabel")
     then get_field jsonObj "roleLabel" else roleLabel rc)
    (RelationshipConstraint_fromJson ext this jsonObj h).2.
Proof.
  intros Hrc. unfold RelationshipConstraint_fromJson.
  rewrite (RelationshipConstraint_fromJson_prefix _ _ _ _ _ Hrc).
  split.
  - match goal with |- constraint_field _ _ ?v (?k ?h1).2 =>
      assert (Hk : keeps (constraint_field this polymorphic v) k) by keeps_constraint
    end.
    apply Hk. eexists. split; [apply lookup_insert_eq|].
    unfold copy_scalars.
    by destruct (truthy (get_field jsonObj "roleLabel")),
                (truthy (get_field jsonObj "polymorphic")).
  - match goal with |- constraint_field _ _ ?v (?k ?h1).2 =>
      assert (Hk : keeps (constraint_field this roleLabel v) k) by keeps_constraint
    end.
    apply Hk. eexists. split; [apply lookup_insert_eq|].
    unfold copy_scalars.
    by destruct (truthy (get_field jsonObj "roleLabel")),
                (truthy (get_field jsonObj "polymorphic")).
Qed.

Lemma labelled_heap_source :
  Sample.labelled_heap !! 5 = Some (OConstraint Sample.labelled_source).
Proof. vm_compute. reflexivity. Qed.

Lemma RelationshipConstraint_fromJson_copies_truthy_witness :
  constraint_field 5 polymorphic (VBool true)
    (RelationshipConstraint_fromJson Sample.imports 5
       [("polymorphic", VBool false); ("roleLabel", VString "")] Sample.labelled_heap).2 ∧
  constraint_field 5 roleLabel (VString "connects")
    (RelationshipConstraint_fromJson Sample.imports 5
       [("polymorphic", VBool false); ("roleLabel", VString "")] Sample.labelled_heap).2.
Proof.
  exact (RelationshipConstraint_fromJson_copies_truthy Sample.imports Sample.labelled_heap 5
           Sample.labelled_source [("polymorphic", VBool false); ("roleLabel", VString "")]
           labelled_heap_source).
Defined.

Section NeverRaises.
Context {A B : Type} (status : ECObjectsStatus).

Lemma never_ret (a : A) : never_raises status (ret a).
Proof. intros h [message Hm]. discriminate Hm. Qed.

Lemma never_throw (e : Exn) :
  (∀ message, e ≠ ECObjectsError status message) → never_raises status (throw (A := A) e).
Proof. intros He h [message Hm]. injection Hm as ->. by apply (He message). Qed.

Lemma never_bind (m : Js A) (k : A → Js B) :
  never_raises status m → (∀ a, never_raises status (k a)) → never_raises status (bind m k).
Proof.
  intros Hm Hk h [message Hr]. unfold bind in Hr.
  destruct (m h) as [[a|e] h'] eqn:Hrun.
  - apply (Hk a h'). by exists message.
  - apply (Hm h). exists message. rewrite Hrun. simpl in *. congruence.
Qed.
End NeverRaises.

Lemma never_forEach {A} (status : ECObjectsStatus) (f : A → Js unit) (array : list A) :
  (∀ x, never_raises status (f x)) → never_raises status (forEach f array).
Proof.
  intros Hf. induction array as [|x rest IH]; simpl.
  - apply never_ret.
  - apply never_bind; [apply Hf|]. intros _. apply IH.
Qed.

Lemma never_readClass (status : ECObjectsStatus) (l : loc) :
  never_raises status (readClass l).
Proof.
  intros h [message Hm]. unfold readClass in Hm.
  by destruct (h !! l) as [[]|].
Qed.

Lemma never_readConstraint (status : ECObjectsStatus) (l : loc) :
  never_raises status (readConstraint l).
Proof.
  intros h [message Hm]. unfold readConstraint in Hm.
  by destruct (h !! l) as [[]|].
Qed.

Lemma never_assignConstraint (status : ECObjectsStatus) (this : loc)
    (upd : RelationshipConstraint → RelationshipConstraint) :
  never_raises status (assignConstraint this upd).
Proof.
  intros h [message Hm]. unfold assignConstraint in Hm.
  by destruct (h !! this) as [[]|].
Qed.

(** Splits a computation as [keeps_constraint] does, to show that none of
    its throws has the status in question. *)
Ltac never_steps :=
  repeat first
    [ simple apply never_ret
    | simple apply never_throw; intros ?; discriminate
    | simple apply never_readClass | simple apply never_readConstraint
    | simple apply never_assignConstraint
    | simple apply never_bind; [|intros ?]
    | simple apply never_forEach; intros ?
    | match goal with
      | |- never_raises _ (if ?b then _ else _) => destruct b
      | |- never_raises _ (match ?x with _ => _ end) => destruct x
      end
    | progress unfold addClass, relationshipClass_schema, abstractConstraint_set
    | progress cbv zeta ].

(** C7, as the code has it: a truthy [multiplicity] field (for a string:
    a non-empty one) goes to the imported parser.  When the parser returns
    a multiplicity, the constraint holds it once [fromJson] has ended, and
    [fromJson] does not raise InvalidMultiplicity; when the parser returns
    [undefined], [fromJson] throws InvalidMultiplicity and the multiplicity
    is not assigned.  A falsy field, the empty string among them, is
    skipped without an error: the multiplicity stays as it was, [fromJson]
    does not raise InvalidMultiplicity, and it returns normally, the
    constraint changed in [roleLabel] and [polymorphic] at most, when the
    object has no truthy [abstractConstraint] or [constraintClasses]
    either. *)
Theorem RelationshipConstraint_fromJson_multiplicity (ext : Imports) (h : Heap)
    (this : loc) (rc : RelationshipConstraint) (jsonObj : JsonObj) :
  h !! this = Some (OConstraint rc) →
  (truthy (get_field jsonObj "multiplicity") = true →
   ∀ parsed,
     RelationshipMultiplicity_fromString ext (get_field jsonObj "multiplicity") = Some parsed →
     constraint_field this multiplicity parsed
       (RelationshipConstraint_fromJson ext this jsonObj h).2 ∧
     ¬ raises InvalidMultiplicity (RelationshipConstraint_fromJson ext this jsonObj h) ∧
     (truthy (get_field jsonObj "abstractConstraint") = false →
      truthy (get_field jsonObj "constraintClasses") = false →
      RelationshipConstraint_fromJson ext this jsonObj h
      = (Normal (),
         <[this := OConstraint (set_multiplicity parsed (copy_scalars jsonObj rc))]> h))) ∧
  (truthy (get_field jsonObj "multiplicity") = true →
   RelationshipMultiplicity_fromString ext (get_field jsonObj "multiplicity") = None →
   RelationshipConstraint_fromJson ext this jsonObj h
   = (Throw (ECObjectsError InvalidMultiplicity ""),
      <[this := OConstraint (copy_scalars jsonObj rc)]> h) ∧
   multiplicity (copy_scalars jsonObj rc) = multiplicity rc) ∧
  (truthy (get_field jsonObj "multiplicity") = false →
   constraint_field this multiplicity (multiplicity rc)
     (RelationshipConstraint_fromJson ext this jsonObj h).2 ∧
   ¬ raises InvalidMultiplicity (RelationshipConstraint_fromJson ext this jsonObj h) ∧
   (truthy (get_field jsonObj "abstractConstraint") = false →
    truthy (get_field jsonObj "constraintClasses") = false →
    RelationshipConstraint_fromJson ext this jsonObj h
    = (Normal (), <[this := OConstraint (copy_scalars jsonObj rc)]> h))).
Proof.
  intros Hrc. unfold RelationshipConstraint_fromJson.
  rewrite (RelationshipConstraint_fromJson_prefix _ _ _ _ _ Hrc).
  assert (Hm : multiplicity (copy_scalars jsonObj rc) = multiplicity rc).
  { unfold copy_scalars.
    by destruct (truthy (get_field jsonObj "roleLabel")),
                (truthy (get_field jsonObj "polymorphic")). }
  set (h2 := <[this := OConstraint (copy_scalars jsonObj rc)]> h).
  assert (H2 : h2 !! this = Some (OConstraint (copy_scalars jsonObj rc)))
    by apply lookup_insert_eq.
  split; [|split].
  - intros Ht parsed Hparsed. rewrite Ht, Hparsed.
    rewrite (bind_normal _ _ _ _ _ (assignConstraint_at _ _ _ _ H2)).
    split; [|split].
    + match goal with |- constraint_field _ _ _ (?k ?h3).2 =>
        assert (Hk : keeps (constraint_field this multiplicity parsed) k)
          by keeps_constraint
      end.
      apply Hk. eexists. split; [apply lookup_insert_eq|done].
    + match goal with |- ¬ raises _ (?k ?h3) =>
        assert (Hk : never_raises InvalidMultiplicity k) by never_steps
      end.
      apply Hk.
    + intros Ha Hcc. rewrite Ha, Hcc. subst h2. by rewrite insert_insert_eq.
  - intros Ht Hnone. rewrite Ht, Hnone. done.
  - intros Hf. rewrite Hf. split; [|split].
    + match goal with |- constraint_field _ _ _ (?k ?h3).2 =>
        assert (Hk : keeps (constraint_field this multiplicity (multiplicity rc)) k)
          by keeps_constraint
      end.
      apply Hk. eexists. split; [exact H2|exact Hm].
    + match goal with |- ¬ raises _ (?k ?h3) =>
        assert (Hk : never_raises InvalidMultiplicity k) by never_steps
      end.
      apply Hk.
    + intros Ha Hcc. rewrite Ha, Hcc. done.
Qed.

Lemma RelationshipConstraint_fromJson_multiplicity_witness :
  constraint_field 5 multiplicity Sample.zeroMany
    (RelationshipConstraint_fromJson Sample.imports 5
       [("multiplicity", VString Sample.zeroMany_string)] Sample.connects_heap).2 ∧
  RelationshipConstraint_fromJson Sample.imports 5
    [("multiplicity", VString "many")] Sample.connects_heap
  = (Throw (ECObjectsError InvalidMultiplicity ""),
     <[5 := OConstraint (copy_scalars [("multiplicity", VString "many")]
                           Sample.connects_source)]> Sample.connects_heap) ∧
  RelationshipConstraint_fromJson Sample.imports 5
    [("multiplicity", VString "")] Sample.connects_heap
  = (Normal (),
     <[5 := OConstraint (copy_scalars [("multiplicity", VString "")]
                           Sample.connects_source)]> Sample.connects_heap) ∧
  ¬ raises InvalidMultiplicity
      (RelationshipConstraint_fromJson Sample.imports 5
         [("multiplicity", VString ""); ("abstractConstraint", VNumber 1)]
         Sample.connects_heap).
Proof.
  split; [|split; [|split]].
  - exact (proj1 (proj1 (RelationshipConstraint_fromJson_multiplicity Sample.imports
                    Sample.connects_heap 5 Sample.connects_source
                    [("multiplicity", VString Sample.zeroMany_string)] connects_heap_source)
             eq_refl Sample.zeroMany eq_refl)).
  - exact (proj1 (proj1 (proj2 (RelationshipConstraint_fromJson_multiplicity Sample.imports
                    Sample.connects_heap 5 Sample.connects_source
                    [("multiplicity", VString "many")] connects_heap_source))
             eq_refl eq_refl)).
  - exact (proj2 (proj2 (proj2 (proj2 (RelationshipConstraint_fromJson_multiplicity
                    Sample.imports Sample.connects_heap 5 Sample.connects_source
                    [("multiplicity", VString "")] connects_heap_source))
             eq_refl)) eq_refl eq_refl).
  - exact (proj1 (proj2 (proj2 (proj2 (RelationshipConstraint_fromJson_multiplicity
                    Sample.imports Sample.connects_heap 5 Sample.connects_source
                    [("multiplicity", VString ""); ("abstractConstraint", VNumber 1)]
                    connects_heap_source))
             eq_refl))).
Defined.

(** C7, refuted as stated: the empty string is no multiplicity, and
    [fromJson] given it as the [multiplicity] ends normally. *)
Lemma RelationshipConstraint_fromJson_empty_multiplicity_accepted :
  RelationshipMultiplicity_fromString Sample.imports
    (get_field [("multiplicity", VString "")] "multiplicity") = None ∧
  RelationshipConstraint_fromJson Sample.imports 5 [("multiplicity", VString "")]
    Sample.connects_heap
  = (Normal (), Sample.connects_heap).
Proof. split; [reflexivity|]. vm_compute. reflexivity. Qed.

(** ** EntityClass.fromJson *)

Lemma loadMixin_resolved (h : Heap) (this : loc) (c : ECClass) (sch : Schema)
    (mixinFullName : JsValue) (child : loc) :
  h !! this = Some (OClass c) →
  schema (base c) = SchemaObject sch →
  getChild sch mixinFullName = Some child →
  loadMixin this mixinFullName h
  = (Normal (), <[this := OClass (append_mixins [child] c)]> h).
Proof.
  intros Hc Hsch Hchild. unfold loadMixin.
  rewrite (bind_normal _ _ _ _ _ (readClass_at _ _ _ Hc)).
  unfold bind at 1. unfold lift at 1. rewrite Hsch. simpl. rewrite Hchild.
  rewrite (bind_normal _ _ _ _ _ (readClass_at _ _ _ Hc)).
  destruct (mixins c) as [ms|] eqn:Hms; simpl.
  - unfold bind, ret. rewrite (readClass_at _ _ _ Hc), Hms.
    by rewrite (assign_at _ _ _ _ Hc).
  - unfold bind. rewrite (assign_at _ _ _ _ Hc).
    unfold readClass, assign. repeat (rewrite lookup_insert_eq; simpl).
    by rewrite insert_insert_eq.
Qed.

Lemma loadMixin_unresolved (h : Heap) (this : loc) (c : ECClass) (sch : Schema)
    (mixinFullName : JsValue) :
  h !! this = Some (OClass c) →
  schema (base c) = SchemaObject sch →
  getChild sch mixinFullName = None →
  loadMixin this mixinFullName h = (Throw (ECObjectsError InvalidECJson ""), h).
Proof.
  intros Hc Hsch Hchild. unfold loadMixin.
  rewrite (bind_normal _ _ _ _ _ (readClass_at _ _ _ Hc)).
  unfold bind at 1. unfold lift at 1. rewrite Hsch. simpl. by rewrite Hchild.
Qed.

Lemma append_mixins_cons (child : loc) (resolved : list loc) (c : ECClass) :
  append_mixins resolved (append_mixins [child] c) = append_mixins (child :: resolved) c.
Proof.
  destruct resolved as [|r rest]; [done|].
  unfold append_mixins, set_mixins. simpl. by rewrite <- app_assoc.
Qed.

Lemma forEach_loadMixin (this : loc) (sch : Schema) (names : list JsValue)
    (resolved : list loc) :
  resolves sch names resolved →
  ∀ (h : Heap) (c : ECClass),
    h !! this = Some (OClass c) →
    schema (base c) = SchemaObject sch →
    forEach (loadMixin this) names h
    = (Normal (), <[this := OClass (append_mixins resolved c)]> h) ∧
    ∀ bad rest,
      getChild sch bad = None →
      forEach (loadMixin this) (names ++ bad :: rest) h
      = (Throw (ECObjectsError InvalidECJson ""),
         <[this := OClass (append_mixins resolved c)]> h).
Proof.
  induction 1 as [|mixinName child names resolved Hchild Hrest IH]; intros h c Hc Hsch.
  - simpl. rewrite (insert_id _ _ _ Hc). split; [done|].
    intros bad rest Hbad.
    by rewrite (bind_throw _ _ _ _ _ (loadMixin_unresolved _ _ _ _ _ Hc Hsch Hbad)).
  - simpl.
    rewrite !(bind_normal _ _ _ _ _ (loadMixin_resolved _ _ _ _ _ _ Hc Hsch Hchild)).
    destruct (IH (<[this := OClass (append_mixins [child] c)]> h) (append_mixins [child] c))
      as [Hall Hbad]; [apply lookup_insert_eq|done|].
    rewrite append_mixins_cons, insert_insert_eq in Hall, Hbad.
    split; [done|]. intros bad rest Hnone. simpl.
    rewrite (bind_normal _ _ _ _ _ (loadMixin_resolved _ _ _ _ _ _ Hc Hsch Hchild)).
    by rewrite (Hbad bad rest Hnone).
Qed.

(** C6, as the code has it: once the inherited [ECClass.fromJson] has
    returned, [EntityClass.fromJson] skips a falsy [mixin] field (absent,
    [null], [false], [0], the empty string) and throws InvalidECJson for a
    truthy one that is neither a string nor an array.  With the schema of
    the class at hand, an array of names that all resolve has each resolved
    mixin pushed on [mixins] in the order of the array; at the first name
    that does not resolve [fromJson] throws InvalidECJson, the mixins
    before it pushed; a non-empty string is one such name. *)
Theorem EntityClass_fromJson_mixin (ext : Imports) (h h1 : Heap) (this : loc)
    (c1 : ECClass) (jsonObj : JsonObj) :
  ECClass_fromJson ext this jsonObj h = (Normal (), h1) →
  h1 !! this = Some (OClass c1) →
  (truthy (get_field jsonObj "mixin") = false →
     EntityClass_fromJson ext this jsonObj h = (Normal (), h1)) ∧
  (truthy (get_field jsonObj "mixin") = true →
   typeof_string (get_field jsonObj "mixin") = false →
   isArray (get_field jsonObj "mixin") = false →
     EntityClass_fromJson ext this jsonObj h
     = (Throw (ECObjectsError InvalidECJson (mixin_type_message c1)), h1)) ∧
  (∀ sch, schema (base c1) = SchemaObject sch →
     (∀ names resolved,
        get_field jsonObj "mixin" = VArray names →
        resolves sch names resolved →
        EntityClass_fromJson ext this jsonObj h
        = (Normal (), <[this := OClass (append_mixins resolved c1)]> h1)) ∧
     (∀ names resolved bad rest,
        get_field jsonObj "mixin" = VArray (names ++ bad :: rest) →
        resolves sch names resolved →
        getChild sch bad = None →
        EntityClass_fromJson ext this jsonObj h
        = (Throw (ECObjectsError InvalidECJson ""),
           <[this := OClass (append_mixins resolved c1)]> h1)) ∧
     (truthy (get_field jsonObj "mixin") = true →
      typeof_string (get_field jsonObj "mixin") = true →
        EntityClass_fromJson ext this jsonObj h
        = match getChild sch (get_field jsonObj "mixin") with
          | Some child => (Normal (), <[this := OClass (append_mixins [child] c1)]> h1)
          | None => (Throw (ECObjectsError InvalidECJson ""), h1)
          end)).
Proof.
  intros Hsuper Hc1. unfold EntityClass_fromJson.
  rewrite (bind_normal _ _ _ _ _ Hsuper).
  split; [|split].
  - intros Hf. by rewrite Hf.
  - intros Ht Hs Ha. rewrite Ht.
    destruct (get_field jsonObj "mixin"); try done;
      by rewrite (bind_normal _ _ _ _ _ (readClass_at _ _ _ Hc1)).
  - intros sch Hsch. split; [|split].
    + intros names resolved -> Hres. simpl.
      by destruct (forEach_loadMixin this sch names resolved Hres h1 c1 Hc1 Hsch) as [-> _].
    + intros names resolved bad rest -> Hres Hbad. simpl.
      destruct (forEach_loadMixin this sch names resolved Hres h1 c1 Hc1 Hsch) as [_ Hthrow].
      by rewrite (Hthrow bad rest Hbad).
    + intros Ht Hs. rewrite Ht.
      destruct (get_field jsonObj "mixin") as [| | | |s| | |] eqn:Hmixin; try done.
      destruct (getChild sch (VString s)) as [child|] eqn:Hchild.
      * by apply loadMixin_resolved with (sch := sch).
      * by apply loadMixin_unresolved with (c := c1) (sch := sch).
Qed.

Lemma EntityClass_fromJson_mixin_witness :
  EntityClass_fromJson Sample.imports 2
    [("mixin", VArray [VString "Insulated"; VString "Labelled"])] Sample.schema_heap
  = (Normal (),
     <[2 := OClass (append_mixins [7; 8] Sample.pipe_in_schema)]> Sample.schema_heap) ∧
  EntityClass_fromJson Sample.imports 2
    [("mixin", VArray [VString "Insulated"; VString "Painted"; VString "Labelled"])]
    Sample.schema_heap
  = (Throw (ECObjectsError InvalidECJson ""),
     <[2 := OClass (append_mixins [7] Sample.pipe_in_schema)]> Sample.schema_heap) ∧
  EntityClass_fromJson Sample.imports 2 [("mixin", VNumber 7)] Sample.schema_heap
  = (Throw (ECObjectsError InvalidECJson (mixin_type_message Sample.pipe_in_schema)),
     Sample.schema_heap).
Proof.
  assert (Hsuper : ∀ mixin, ECClass_fromJson Sample.imports 2 [("mixin", mixin)]
                               Sample.schema_heap = (Normal (), Sample.schema_heap)).
  { intros mixin. vm_compute. reflexivity. }
  split; [|split].
  - refine (proj1 (proj2 (proj2 (EntityClass_fromJson_mixin Sample.imports Sample.schema_heap
              Sample.schema_heap 2 Sample.pipe_in_schema
              [("mixin", VArray [VString "Insulated"; VString "Labelled"])]
              (Hsuper _) schema_heap_pipe))
              Sample.piping eq_refl) [VString "Insulated"; VString "Labelled"] [7; 8]
              eq_refl _).
    repeat constructor.
  - refine (proj1 (proj2 (proj2 (proj2 (EntityClass_fromJson_mixin Sample.imports
              Sample.schema_heap Sample.schema_heap 2 Sample.pipe_in_schema
              [("mixin", VArray [VString "Insulated"; VString "Painted"; VString "Labelled"])]
              (Hsuper _) schema_heap_pipe)) Sample.piping eq_refl))
              [VString "Insulated"] [7] (VString "Painted") [VString "Labelled"]
              eq_refl _ eq_refl).
    repeat constructor.
  - exact (proj1 (proj2 (EntityClass_fromJson_mixin Sample.imports Sample.schema_heap
             Sample.schema_heap 2 Sample.pipe_in_schema [("mixin", VNumber 7)]
             (Hsuper _) schema_heap_pipe))
             eq_refl eq_refl eq_refl).
Defined.

(** C6, refuted as stated: a [mixin] field that is neither a string nor
    an array ([false]) is accepted without an error. *)
Lemma EntityClass_fromJson_mixin_false_accepted :
  typeof_string (get_field [("mixin", VBool false)] "mixin") = false ∧
  isArray (get_field [("mixin", VBool false)] "mixin") = false ∧
  EntityClass_fromJson Sample.imports 2 [("mixin", VBool false)] Sample.schema_heap
  = (Normal (), Sample.schema_heap).
Proof. split; [reflexivity|]. split; [reflexivity|]. vm_compute. reflexivity. Qed.

(** ** MixinClass.fromJson and CustomAttributeClass.fromJson *)

Lemma bind_ret_unit (m : Js unit) (h : Heap) : (m ;; ret ()) h = m h.
Proof. unfold bind, ret. by destruct (m h) as [[[]|e] h']. Qed.

Ltac keeps_class :=
  repeat first
    [ simple apply keeps_ret | simple apply keeps_throw | simple apply keeps_lift
    | simple apply keeps_readClass
    | simple apply keeps_assign; intros ?; reflexivity
    | simple apply keeps_bind; [|intros ?]
    | match goal with
      | |- keeps _ (if ?b then _ else _) => destruct b
      | |- keeps _ (match ?x with _ => _ end) => destruct x
      | |- keeps _ (SchemaChild_fromJson_on _ _ _) => unfold SchemaChild_fromJson_on
      end ].

(** The inherited [fromJson] writes [base], [modifier] and [baseClass] and
    no other field of the class. *)
Lemma ECClass_fromJson_keeps_appliesTo (ext : Imports) (this : loc) (jsonObj : JsonObj)
    (v : JsValue) :
  keeps (class_field this appliesTo v) (ECClass_fromJson ext this jsonObj).
Proof. unfold ECClass_fromJson. keeps_class. Qed.

(** C9: with no [appliesTo] field (or a falsy one) [MixinClass.fromJson]
    does what the inherited [ECClass.fromJson] does and nothing more: once
    the inherited method has returned it returns too, with the heap the
    inherited method left, raising no error for the missing field, and it
    leaves [appliesTo] as it was.  [CustomAttributeClass.fromJson] on such
    an object always throws, and what it throws once the inherited method
    has returned is InvalidECJson. *)
Theorem MixinClass_fromJson_without_appliesTo (ext : Imports) (h : Heap) (this : loc)
    (jsonObj : JsonObj) :
  truthy (get_field jsonObj "appliesTo") = false →
  MixinClass_fromJson ext this jsonObj h = ECClass_fromJson ext this jsonObj h ∧
  (∀ h1, ECClass_fromJson ext this jsonObj h = (Normal (), h1) →
     MixinClass_fromJson ext this jsonObj h = (Normal (), h1)) ∧
  (∀ c, h !! this = Some (OClass c) →
     class_field this appliesTo (appliesTo c) (MixinClass_fromJson ext this jsonObj h).2) ∧
  (∃ e h', CustomAttributeClass_fromJson ext this jsonObj h = (Throw e, h')) ∧
  (∀ h1 c1,
     ECClass_fromJson ext this jsonObj h = (Normal (), h1) →
     h1 !! this = Some (OClass c1) →
     CustomAttributeClass_fromJson ext this jsonObj h
     = (Throw (ECObjectsError InvalidECJson (missing_appliesTo_message c1)), h1)).
Proof.
  intros Hf.
  assert (Hsame : MixinClass_fromJson ext this jsonObj h = ECClass_fromJson ext this jsonObj h).
  { unfold MixinClass_fromJson. rewrite Hf. apply bind_ret_unit. }
  split; [exact Hsame|]. split; [|split; [|split]].
  - intros h1 Hsuper. by rewrite Hsame.
  - intros c Hc. rewrite Hsame. apply ECClass_fromJson_keeps_appliesTo. by exists c.
  - unfold CustomAttributeClass_fromJson, bind. rewrite Hf. simpl.
    destruct (ECClass_fromJson ext this jsonObj h) as [[[]|e] h1]; [|by eauto].
    destruct (readClass this h1) as [[c|e] h2]; by eauto.
  - intros h1 c1 Hsuper Hc1. unfold CustomAttributeClass_fromJson.
    rewrite (bind_normal _ _ _ _ _ Hsuper), Hf. simpl.
    by rewrite (bind_normal _ _ _ _ _ (readClass_at _ _ _ Hc1)).
Qed.

Lemma schema_heap_insulated : Sample.schema_heap !! 7 = Some (OClass Sample.insulated).
Proof. vm_compute. reflexivity. Qed.

Lemma schema_heap_insulated_modifier :
  ECClass_fromJson Sample.imports 7 [("modifier", VString "Abstract")] Sample.schema_heap
  = (Normal (),
     <[7 := OClass (set_modifier (VNumber 1) Sample.insulated)]> Sample.schema_heap).
Proof. vm_compute. reflexivity. Qed.

Lemma MixinClass_fromJson_without_appliesTo_witness :
  MixinClass_fromJson Sample.imports 7 [("modifier", VString "Abstract")] Sample.schema_heap
  = (Normal (),
     <[7 := OClass (set_modifier (VNumber 1) Sample.insulated)]> Sample.schema_heap) ∧
  class_field 7 appliesTo VUndefined
    (MixinClass_fromJson Sample.imports 7 [("modifier", VString "Abstract")]
       Sample.schema_heap).2 ∧
  ∃ e h', CustomAttributeClass_fromJson Sample.imports 9 [("modifier", VString "Abstract")]
            Sample.schema_heap = (Throw e, h').
Proof.
  split; [|split].
  - exact (proj1 (proj2 (MixinClass_fromJson_without_appliesTo Sample.imports
                    Sample.schema_heap 7 [("modifier", VString "Abstract")] eq_refl))
             _ schema_heap_insulated_modifier).
  - exact (proj1 (proj2 (proj2 (MixinClass_fromJson_without_appliesTo Sample.imports
                    Sample.schema_heap 7 [("modifier", VString "Abstract")] eq_refl)))
             Sample.insulated schema_heap_insulated).
  - exact (proj1 (proj2 (proj2 (proj2 (MixinClass_fromJson_without_appliesTo Sample.imports
                    Sample.schema_heap 9 [("modifier", VString "Abstract")] eq_refl))))).
Defined.


(** * Further properties of the module *)

(** ** What the methods leave alone *)

Lemma keeps_read {A} (I : Heap → Prop) (f : Heap → Completion A) :
  keeps I (λ h, (f h, h)).
Proof. by intros h Hh. Qed.

Lemma keeps_assign_other (this l : loc) (o : option HeapObj) (upd : ECClass → ECClass) :
  l ≠ this → keeps (λ h, h !! l = o) (assign this upd).
Proof.
  intros Hl h Hh. unfold assign.
  destruct (h !! this) as [[c|rc|p]|]; simpl; try done. by rewrite lookup_insert_ne.
Qed.

Lemma keeps_alloc_other (l : loc) (o x : HeapObj) :
  keeps (λ h, h !! l = Some o) (alloc x).
Proof.
  intros h Hh. unfold alloc. simpl. rewrite lookup_insert_ne; [done|].
  intros E. pose proof (is_fresh (dom h)) as Hfresh. rewrite E in Hfresh.
  apply Hfresh, elem_of_dom. by eexists.
Qed.

(** Walks through a method: its binds, its case distinctions and the
    methods it calls, down to the reads and writes, which [leaf] settles. *)
Ltac keeps_walk leaf :=
  repeat first
    [ simple apply keeps_ret | simple apply keeps_throw | simple apply keeps_lift
    | simple apply keeps_readClass | simple apply keeps_readConstraint
    | simple apply keeps_bind; [|intros ?]
    | simple apply keeps_forEach; intros ?
    | leaf
    | match goal with
      | |- keeps _ (if ?b then _ else _) => destruct b
      | |- keeps _ (match ?x with _ => _ end) => destruct x
      end
    | progress unfold ECClass_fromJson, SchemaChild_fromJson_on, loadMixin, getProperty,
        push_property, addClass, relationshipClass_schema, abstractConstraint_set
    | progress cbv zeta
    | apply keeps_read ].

Ltac creation_frame_leaf :=
  first [ simple apply keeps_assign_other; assumption
        | simple apply keeps_alloc_other ].

(** The creation methods write the class they are called on and the
    property they create, nothing else: every other object of the heap
    (the properties created before, the other classes) is, after the call,
    what it was. *)
Theorem creation_keeps_other_objects (ext : Imports) (this l : loc) (o : HeapObj)
    (name : string) (type relationship direction : JsValue) (h : Heap) :
  l ≠ this →
  h !! l = Some o →
  (createPrimitiveProperty ext this name type h).2 !! l = Some o ∧
  (createPrimitiveArrayProperty ext this name type h).2 !! l = Some o ∧
  (createStructProperty ext this name type h).2 !! l = Some o ∧
  (createStructArrayProperty ext this name type h).2 !! l = Some o ∧
  (EntityClass_createNavigationProperty ext this name relationship direction h).2 !! l
    = Some o ∧
  (RelationshipClass_createNavigationProperty ext this name relationship direction h).2 !! l
    = Some o.
Proof.
  intros Hl Ho.
  assert (H1 : keeps (λ h', h' !! l = Some o) (createPrimitiveProperty ext this name type))
    by (unfold createPrimitiveProperty; keeps_walk creation_frame_leaf).
  assert (H2 : keeps (λ h', h' !! l = Some o) (createPrimitiveArrayProperty ext this name type))
    by (unfold createPrimitiveArrayProperty; keeps_walk creation_frame_leaf).
  assert (H3 : keeps (λ h', h' !! l = Some o) (createStructProperty ext this name type))
    by (unfold createStructProperty; keeps_walk creation_frame_leaf).
  assert (H4 : keeps (λ h', h' !! l = Some o) (createStructArrayProperty ext this name type))
    by (unfold createStructArrayProperty; keeps_walk creation_frame_leaf).
  assert (H5 : keeps (λ h', h' !! l = Some o)
                 (EntityClass_createNavigationProperty ext this name relationship direction))
    by (unfold EntityClass_createNavigationProperty; keeps_walk creation_frame_leaf).
  assert (H6 : keeps (λ h', h' !! l = Some o)
                 (RelationshipClass_createNavigationProperty ext this name relationship
                    direction))
    by (unfold RelationshipClass_createNavigationProperty; keeps_walk creation_frame_leaf).
  repeat split; [apply H1|apply H2|apply H3|apply H4|apply H5|apply H6]; exact Ho.
Qed.

Lemma creation_keeps_other_objects_witness :
  (createPrimitiveProperty Sample.imports 2 "Diameter" (VString "int") Sample.pipe_heap).2 !! 3
  = Some (OProperty (PrimitiveProperty "Length" (VNumber 2))) ∧
  (createStructProperty Sample.imports 2 "Material" (VString "Steel") Sample.pipe_heap).2 !! 0
  = Some (OClass Sample.element).
Proof.
  split.
  - apply (creation_keeps_other_objects Sample.imports 2 3 _ "Diameter" (VString "int")
             VUndefined VUndefined Sample.pipe_heap); [done|apply pipe_heap_Length].
  - apply (creation_keeps_other_objects Sample.imports 2 0 _ "Material" (VString "Steel")
             VUndefined VUndefined Sample.pipe_heap); [done|apply pipe_heap_element].
Defined.

Lemma keeps_alloc_class {T} (this : loc) (proj : ECClass → T) (v : T) (x : HeapObj) :
  keeps (class_field this proj v) (alloc x).
Proof.
  intros h (c & Hc & Hv). exists c. split; [|done]. by apply keeps_alloc_other.
Qed.

Lemma keeps_only_appends_alloc (this : loc) (c : ECClass) (x : HeapObj) :
  keeps (only_appends this c) (alloc x).
Proof.
  intros h (c' & Hc & Hrest). exists c'. split; [|done]. by apply keeps_alloc_other.
Qed.

Lemma keeps_only_appends_push (this : loc) (c : ECClass) (prop : loc) :
  keeps (only_appends this c) (push_property this prop).
Proof.
  intros h (c' & Hc & Hfields & Hprefix).
  rewrite (push_property_at _ _ _ _ Hc). simpl.
  eexists. split; [apply lookup_insert_eq|]. split; [exact Hfields|].
  simpl. by apply prefix_app_r.
Qed.

Ltac only_appends_leaf :=
  first [ simple apply keeps_only_appends_push
        | simple apply keeps_only_appends_alloc ].

(** A creation method only ever appends: when the call has ended, normally
    or by a throw, the class has the fields it had, except that its
    property list may have grown at the end.  No property is removed or
    moved, and no other field of the class is written. *)
Theorem creation_only_appends (ext : Imports) (this : loc) (c : ECClass)
    (name : string) (type relationship direction : JsValue) (h : Heap) :
  h !! this = Some (OClass c) →
  only_appends this c (createPrimitiveProperty ext this name type h).2 ∧
  only_appends this c (createPrimitiveArrayProperty ext this name type h).2 ∧
  only_appends this c (createStructProperty ext this name type h).2 ∧
  only_appends this c (createStructArrayProperty ext this name type h).2 ∧
  only_appends this c
    (EntityClass_createNavigationProperty ext this name relationship direction h).2 ∧
  only_appends this c
    (RelationshipClass_createNavigationProperty ext this name relationship direction h).2.
Proof.
  intros Hc.
  assert (H0 : only_appends this c h).
  { exists c. split; [done|]. split; [by destruct c|done]. }
  assert (H1 : keeps (only_appends this c) (createPrimitiveProperty ext this name type))
    by (unfold createPrimitiveProperty; keeps_walk only_appends_leaf).
  assert (H2 : keeps (only_appends this c) (createPrimitiveArrayProperty ext this name type))
    by (unfold createPrimitiveArrayProperty; keeps_walk only_appends_leaf).
  assert (H3 : keeps (only_appends this c) (createStructProperty ext this name type))
    by (unfold createStructProperty; keeps_walk only_appends_leaf).
  assert (H4 : keeps (only_appends this c) (createStructArrayProperty ext this name type))
    by (unfold createStructArrayProperty; keeps_walk only_appends_leaf).
  assert (H5 : keeps (only_appends this c)
                 (EntityClass_createNavigationProperty ext this name relationship direction))
    by (unfold EntityClass_createNavigationProperty; keeps_walk only_appends_leaf).
  assert (H6 : keeps (only_appends this c)
                 (RelationshipClass_createNavigationProperty ext this name relationship
                    direction))
    by (unfold RelationshipClass_createNavigationProperty; keeps_walk only_appends_leaf).
  split; [by apply H1|]. split; [by apply H2|]. split; [by apply H3|].
  split; [by apply H4|]. split; [by apply H5|by apply H6].
Qed.

Lemma creation_only_appends_witness :
  only_appends 2 Sample.pipe
    (createPrimitiveProperty Sample.imports 2 "Diameter" (VString "int") Sample.pipe_heap).2 ∧
  only_appends 2 Sample.pipe
    (createStructProperty Sample.imports 2 "Material" (VString "Steel") Sample.pipe_heap).2.
Proof.
  split.
  - apply (creation_only_appends Sample.imports 2 Sample.pipe "Diameter" (VString "int")
             VUndefined VUndefined Sample.pipe_heap pipe_heap_pipe).
  - apply (creation_only_appends Sample.imports 2 Sample.pipe "Material" (VString "Steel")
             VUndefined VUndefined Sample.pipe_heap pipe_heap_pipe).
Defined.

Ltac structure_leaf :=
  simple apply keeps_assign; intros ?; reflexivity.

(** No [fromJson] of a class writes its kind, its property list or its
    [source] and [target]: the constraints a relationship class was
    constructed with are never reassigned, and properties only come from
    the creation methods. *)
Theorem class_fromJson_keeps_structure (ext : Imports) (this : loc) (c : ECClass)
    (jsonObj : JsonObj) (h : Heap) :
  h !! this = Some (OClass c) →
  class_field this structure (structure c) (ECClass_fromJson ext this jsonObj h).2 ∧
  class_field this structure (structure c) (EntityClass_fromJson ext this jsonObj h).2 ∧
  class_field this structure (structure c) (MixinClass_fromJson ext this jsonObj h).2 ∧
  class_field this structure (structure c)
    (CustomAttributeClass_fromJson ext this jsonObj h).2 ∧
  class_field this structure (structure c) (RelationshipClass_fromJson ext this jsonObj h).2.
Proof.
  intros Hc.
  assert (H0 : class_field this structure (structure c) h) by (by exists c).
  assert (H1 : keeps (class_field this structure (structure c))
                 (ECClass_fromJson ext this jsonObj))
    by keeps_walk structure_leaf.
  assert (H2 : keeps (class_field this structure (structure c))
                 (EntityClass_fromJson ext this jsonObj))
    by (unfold EntityClass_fromJson; keeps_walk structure_leaf).
  assert (H3 : keeps (class_field this structure (structure c))
                 (MixinClass_fromJson ext this jsonObj))
    by (unfold MixinClass_fromJson; keeps_walk structure_leaf).
  assert (H4 : keeps (class_field this structure (structure c))
                 (CustomAttributeClass_fromJson ext this jsonObj))
    by (unfold CustomAttributeClass_fromJson; keeps_walk structure_leaf).
  assert (H5 : keeps (class_field this structure (structure c))
                 (RelationshipClass_fromJson ext this jsonObj))
    by (unfold RelationshipClass_fromJson; keeps_walk structure_leaf).
  split; [by apply H1|]. split; [by apply H2|]. split; [by apply H3|].
  split; [by apply H4|by apply H5].
Qed.

Lemma schema_heap_pipe_connects :
  Sample.schema_heap !! 4 = Some (OClass Sample.pipe_connects).
Proof. vm_compute. reflexivity. Qed.

Lemma class_fromJson_keeps_structure_witness :
  class_field 4 structure (RelationshipClass, None, VRef 5, VRef 6)
    (RelationshipClass_fromJson Sample.imports 4
       [("strength", VString "Referencing"); ("baseClass", VString "Element")]
       Sample.schema_heap).2 ∧
  class_field 4 structure (RelationshipClass, None, VRef 5, VRef 6)
    (RelationshipClass_fromJson Sample.imports 4 [("strength", VString "Tight")]
       Sample.schema_heap).2.
Proof.
  split.
  - apply (class_fromJson_keeps_structure Sample.imports 4 Sample.pipe_connects
             [("strength", VString "Referencing"); ("baseClass", VString "Element")]
             Sample.schema_heap schema_heap_pipe_connects).
  - apply (class_fromJson_keeps_structure Sample.imports 4 Sample.pipe_connects
             [("strength", VString "Tight")] Sample.schema_heap schema_heap_pipe_connects).
Defined.

(** ** Creating properties *)

(** What the creation methods share once the name is known to be new and
    the type is settled: the property object is allocated and pushed. *)
Lemma append_new_property {ext : Imports} (h : Heap) (this : loc) (c : ECClass) (p : Property) :
  well_formed_class ext h this c →
  fresh_name ext h c (Property_name p) →
  ∃ prop h',
    (prop <- alloc (OProperty p) ;; push_property this prop ;; ret prop) h
    = (Normal prop, h') ∧
    appended ext this c p prop h h'.
Proof.
  intros (Hc & Hall & Huniq) Hnew.
  set (props := default [] (properties c)) in *.
  destruct (alloc_fresh h (OProperty p)) as [Ealloc Hfresh].
  set (prop := fresh (dom h)) in *.
  assert (Nthis : prop ≠ this) by (intros E; rewrite E, Hc in Hfresh; done).
  set (h1 := <[prop := OProperty p]> h) in *.
  assert (Hc1 : h1 !! this = Some (OClass c)) by (subst h1; by rewrite lookup_insert_ne).
  set (c' := set_properties (Some (props ++ [prop])%list) c).
  set (h2 := <[this := OClass c']> h1).
  assert (Hold : ∀ l q, h !! l = Some (OProperty q) → h2 !! l = Some (OProperty q)).
  { intros l q Hl. subst h2 h1.
    rewrite !lookup_insert_ne; [done| |]; intros E; subst l; congruence. }
  assert (Hprop : h2 !! prop = Some (OProperty p)).
  { subst h2 h1. rewrite lookup_insert_ne by done. apply lookup_insert_eq. }
  assert (Hback : ∀ l q, l ∈ props → h2 !! l = Some (OProperty q) → h !! l = Some (OProperty q)).
  { intros l q Hin Hl.
    apply (proj1 (Forall_forall _ _) Hall) in Hin as [q' Hq'].
    rewrite (Hold _ _ Hq') in Hl. congruence. }
  exists prop, h2. split.
  - rewrite (bind_normal _ _ _ _ _ Ealloc).
    by rewrite (bind_normal _ _ _ _ _ (push_property_at _ _ _ _ Hc1)).
  - split; [done|]. split; [done|]. split.
    { intros l o Hl Ho. subst h2 h1. rewrite !lookup_insert_ne; [done| |done].
      intros E. subst l. congruence. }
    split; [apply lookup_insert_eq|]. simpl. split.
    + apply Forall_app. split.
      * eapply Forall_impl; [exact Hall|]. intros l [q Hq]. exists q. by apply Hold.
      * repeat constructor. by exists p.
    + intros l1 l2 q1 q2 Hin1 Hin2 H1 H2 Hname.
      apply elem_of_app in Hin1 as [Hin1|Hin1%list_elem_of_singleton];
        apply elem_of_app in Hin2 as [Hin2|Hin2%list_elem_of_singleton].
      * apply (Huniq l1 l2 q1 q2); eauto.
      * exfalso. subst l2. rewrite Hprop in H2. injection H2 as <-.
        apply (Hnew l1). split; [done|]. exists q1. split; [by apply Hback|done].
      * exfalso. subst l1. rewrite Hprop in H1. injection H1 as <-.
        apply (Hnew l2). split; [done|]. exists q2. split; [by apply Hback|done].
      * congruence.
Qed.

Lemma getProperty_fresh {ext : Imports} (h : Heap) (this : loc) (c : ECClass) (name : string) :
  well_formed_class ext h this c → fresh_name ext h c name →
  getProperty ext this name h = (Normal None, h).
Proof.
  intros (Hc & Hall & _) Hnew. unfold getProperty.
  rewrite (bind_normal _ _ _ _ _ (readClass_at _ _ _ Hc)).
  unfold fresh_name in Hnew.
  destruct (properties c) as [ps|] eqn:Hp; [|done].
  by rewrite (find_property_none h name ps Hall Hnew).
Qed.

(** [createPrimitiveProperty] and [createPrimitiveArrayProperty] under a
    name the class does not have: a type given as a non-empty string goes
    through [parsePrimitiveType]; when the parser throws, the call throws
    the same and the heap is untouched (no property object is left
    behind); otherwise a property of that name and type is created and
    pushed at the end of the list, which stays well formed. *)
Theorem createPrimitiveProperty_new (ext : Imports) (h : Heap) (this : loc)
    (c : ECClass) (name : string) (type : JsValue) :
  well_formed_class ext h this c →
  fresh_name ext h c name →
  match correct_primitive_type ext type with
  | Throw e =>
      createPrimitiveProperty ext this name type h = (Throw e, h) ∧
      createPrimitiveArrayProperty ext this name type h = (Throw e, h)
  | Normal correctType =>
      (∃ prop h',
         createPrimitiveProperty ext this name type h = (Normal prop, h') ∧
         appended ext this c (PrimitiveProperty name correctType) prop h h') ∧
      (∃ prop h',
         createPrimitiveArrayProperty ext this name type h = (Normal prop, h') ∧
         appended ext this c (PrimitiveArrayProperty name correctType) prop h h')
  end.
Proof.
  intros Hwf Hnew.
  pose proof (getProperty_fresh _ _ _ _ Hwf Hnew) as Hget.
  unfold createPrimitiveProperty, createPrimitiveArrayProperty, correct_primitive_type.
  rewrite !(bind_normal _ _ _ _ _ Hget). simpl.
  destruct (truthy type && typeof_string type).
  - destruct (parsePrimitiveType ext type) as [correctType|e] eqn:Hparse.
    + split.
      * destruct (append_new_property h this c (PrimitiveProperty name correctType) Hwf Hnew)
          as (prop & h' & Hrun & Happ).
        exists prop, h'. split; [|done]. unfold bind at 1. unfold lift at 1. done.
      * destruct (append_new_property h this c (PrimitiveArrayProperty name correctType)
                    Hwf Hnew) as (prop & h' & Hrun & Happ).
        exists prop, h'. split; [|done]. unfold bind at 1. unfold lift at 1. done.
    + split; unfold bind at 1; unfold lift at 1; done.
  - split.
    + destruct (append_new_property h this c (PrimitiveProperty name type) Hwf Hnew)
        as (prop & h' & Hrun & Happ).
      exists prop, h'. split; [|done]. unfold bind at 1. unfold ret at 1. done.
    + destruct (append_new_property h this c (PrimitiveArrayProperty name type) Hwf Hnew)
        as (prop & h' & Hrun & Happ).
      exists prop, h'. split; [|done]. unfold bind at 1. unfold ret at 1. done.
Qed.

Lemma pipe_well_formed : well_formed_class Sample.imports Sample.pipe_heap 2 Sample.pipe.
Proof.
  split; [apply pipe_heap_pipe|]. split; [apply pipe_all_properties|apply pipe_names_unique].
Qed.

Lemma pipe_fresh_name (name : string) :
  toLowerCase Sample.imports name ≠ "length" → fresh_name Sample.imports Sample.pipe_heap Sample.pipe name.
Proof.
  intros Hname prop [Hin (p & Hp & E)].
  apply list_elem_of_singleton in Hin. subst prop.
  rewrite pipe_heap_Length in Hp. injection Hp as <-. apply Hname. symmetry. exact E.
Qed.

Lemma createPrimitiveProperty_new_witness :
  (∃ prop h',
     createPrimitiveProperty Sample.imports 2 "Diameter" (VString "int") Sample.pipe_heap
     = (Normal prop, h') ∧
     appended Sample.imports 2 Sample.pipe (PrimitiveProperty "Diameter" (VNumber 2)) prop
       Sample.pipe_heap h') ∧
  createPrimitiveArrayProperty Sample.imports 2 "Diameter" (VString "float") Sample.pipe_heap
  = (Throw (ECObjectsError (OtherStatus 0) "float"), Sample.pipe_heap).
Proof.
  split.
  - exact (proj1 (createPrimitiveProperty_new Sample.imports Sample.pipe_heap 2 Sample.pipe
                    "Diameter" (VString "int") pipe_well_formed
                    (pipe_fresh_name "Diameter" ltac:(discriminate)))).
  - exact (proj2 (createPrimitiveProperty_new Sample.imports Sample.pipe_heap 2 Sample.pipe
                    "Diameter" (VString "float") pipe_well_formed
                    (pipe_fresh_name "Diameter" ltac:(discriminate)))).
Defined.

(** [createStructProperty] and [createStructArrayProperty] under a name the
    class does not have.  A type given as a string is looked up in the
    schema of the class; without a schema object that is a [TypeError].  A
    type that is then falsy (a name the schema does not know, [undefined],
    [null]) makes the call throw the base error.  In both cases the heap
    is untouched.  Otherwise a property with the resolved type is created
    and pushed at the end of the list. *)
Theorem createStructProperty_new (ext : Imports) (h : Heap) (this : loc) (c : ECClass)
    (name : string) (type : JsValue) :
  well_formed_class ext h this c →
  fresh_name ext h c name →
  match correct_struct_type c type with
  | Throw e =>
      createStructProperty ext this name type h = (Throw e, h) ∧
      createStructArrayProperty ext this name type h = (Throw e, h)
  | Normal correctType =>
      if truthy correctType then
        (∃ prop h',
           createStructProperty ext this name type h = (Normal prop, h') ∧
           appended ext this c (StructProperty name correctType) prop h h') ∧
        (∃ prop h',
           createStructArrayProperty ext this name type h = (Normal prop, h') ∧
           appended ext this c (StructArrayProperty name correctType) prop h h')
      else
        createStructProperty ext this name type h
        = (Throw (ECObjectsError ECOBJECTS_ERROR_BASE ""), h) ∧
        createStructArrayProperty ext this name type h
        = (Throw (ECObjectsError ECOBJECTS_ERROR_BASE ""), h)
  end.
Proof.
  intros Hwf Hnew.
  pose proof (getProperty_fresh _ _ _ _ Hwf Hnew) as Hget.
  pose proof (proj1 Hwf) as Hc.
  assert (Hresolve :
    (if typeof_string type
     then c0 <- readClass this ;;
          child <- lift (call_getChild (schema (base c0)) type) ;;
          ret (of_option child)
     else ret type) h
    = (correct_struct_type c type, h)).
  { unfold correct_struct_type. destruct (typeof_string type); [|done].
    rewrite (bind_normal _ _ _ _ _ (readClass_at _ _ _ Hc)).
    unfold bind, lift, ret, call_getChild. by destruct (schema (base c)). }
  unfold createStructProperty, createStructArrayProperty.
  rewrite !(bind_normal _ _ _ _ _ Hget). simpl.
  destruct (correct_struct_type c type) as [correctType|e] eqn:Htype.
  - rewrite !(bind_normal _ _ _ _ _ Hresolve).
    destruct (truthy correctType); simpl; [|done].
    split.
    + by destruct (append_new_property h this c (StructProperty name correctType) Hwf Hnew)
        as (prop & h' & Hrun & Happ); exists prop, h'.
    + by destruct (append_new_property h this c (StructArrayProperty name correctType)
                     Hwf Hnew) as (prop & h' & Hrun & Happ); exists prop, h'.
  - by rewrite !(bind_throw _ _ _ _ _ Hresolve).
Qed.

(** [createNavigationProperty], of [EntityClass] and of
    [RelationshipClass], under a name the class does not have.  A
    relationship given as a string makes the call throw the base error,
    whatever the direction is.  Otherwise a direction given as a string
    goes through [parseStrengthDirection], whose throw the call passes on.
    In both cases the heap is untouched.  Otherwise the property is created
    and pushed at the end of the list; the relationship is stored as it
    was given, [undefined] included. *)
Theorem createNavigationProperty_new (ext : Imports) (h : Heap) (this : loc)
    (c : ECClass) (name : string) (relationship direction : JsValue) :
  well_formed_class ext h this c →
  fresh_name ext h c name →
  if typeof_string relationship then
    EntityClass_createNavigationProperty ext this name relationship direction h
    = (Throw (ECObjectsError ECOBJECTS_ERROR_BASE ""), h) ∧
    RelationshipClass_createNavigationProperty ext this name relationship direction h
    = (Throw (ECObjectsError ECOBJECTS_ERROR_BASE ""), h)
  else
    match correct_direction ext direction with
    | Throw e =>
        EntityClass_createNavigationProperty ext this name relationship direction h
        = (Throw e, h) ∧
        RelationshipClass_createNavigationProperty ext this name relationship direction h
        = (Throw e, h)
    | Normal d =>
        (∃ prop h',
           EntityClass_createNavigationProperty ext this name relationship direction h
           = (Normal prop, h') ∧
           appended ext this c (NavigationProperty name relationship d) prop h h') ∧
        (∃ prop h',
           RelationshipClass_createNavigationProperty ext this name relationship direction h
           = (Normal prop, h') ∧
           appended ext this c (NavigationProperty name relationship d) prop h h')
    end.
Proof.
  intros Hwf Hnew.
  pose proof (getProperty_fresh _ _ _ _ Hwf Hnew) as Hget.
  unfold EntityClass_createNavigationProperty, RelationshipClass_createNavigationProperty.
  rewrite !(bind_normal _ _ _ _ _ Hget). simpl.
  destruct (typeof_string relationship); [done|].
  assert (Hdir :
    (if typeof_string direction
     then lift (parseStrengthDirection ext direction) else ret direction) h
    = (correct_direction ext direction, h)).
  { unfold correct_direction. by destruct (typeof_string direction). }
  destruct (correct_direction ext direction) as [d|e] eqn:Hd.
  - rewrite !(bind_normal _ _ _ _ _ Hdir).
    destruct (append_new_property h this c (NavigationProperty name relationship d) Hwf Hnew)
      as (prop & h' & Hrun & Happ).
    split; by exists prop, h'.
  - by rewrite !(bind_throw _ _ _ _ _ Hdir).
Qed.

Lemma schema_heap_Length :
  Sample.schema_heap !! 3 = Some (OProperty (PrimitiveProperty "Length" (VNumber 2))).
Proof. vm_compute. reflexivity. Qed.

Lemma schema_pipe_well_formed : well_formed_class Sample.imports Sample.schema_heap 2 Sample.pipe_in_schema.
Proof.
  split; [apply schema_heap_pipe|]. split.
  - repeat constructor. eexists. apply schema_heap_Length.
  - intros prop1 prop2 p1 p2 H1 H2 _ _ _.
    apply list_elem_of_singleton in H1, H2. congruence.
Qed.

Lemma schema_pipe_fresh_name (name : string) :
  toLowerCase Sample.imports name ≠ "length" → fresh_name Sample.imports Sample.schema_heap Sample.pipe_in_schema name.
Proof.
  intros Hname prop [Hin (p & Hp & E)].
  apply list_elem_of_singleton in Hin. subst prop.
  rewrite schema_heap_Length in Hp. injection Hp as <-. apply Hname. symmetry. exact E.
Qed.

Lemma createStructProperty_new_witness :
  (∃ prop h',
     createStructProperty Sample.imports 2 "Material" (VString "Element") Sample.schema_heap
     = (Normal prop, h') ∧
     appended Sample.imports 2 Sample.pipe_in_schema (StructProperty "Material" (VRef 0)) prop
       Sample.schema_heap h') ∧
  createStructArrayProperty Sample.imports 2 "Material" (VString "Steel") Sample.schema_heap
  = (Throw (ECObjectsError ECOBJECTS_ERROR_BASE ""), Sample.schema_heap) ∧
  createStructProperty Sample.imports 2 "Material" (VString "Steel") Sample.pipe_heap
  = (Throw TypeError, Sample.pipe_heap).
Proof.
  split; [|split].
  - exact (proj1 (createStructProperty_new Sample.imports Sample.schema_heap 2 Sample.pipe_in_schema
                    "Material" (VString "Element") schema_pipe_well_formed
                    (schema_pipe_fresh_name "Material" ltac:(discriminate)))).
  - exact (proj2 (createStructProperty_new Sample.imports Sample.schema_heap 2 Sample.pipe_in_schema
                    "Material" (VString "Steel") schema_pipe_well_formed
                    (schema_pipe_fresh_name "Material" ltac:(discriminate)))).
  - exact (proj1 (createStructProperty_new Sample.imports Sample.pipe_heap 2 Sample.pipe
                    "Material" (VString "Steel") pipe_well_formed
                    (pipe_fresh_name "Material" ltac:(discriminate)))).
Defined.

Lemma createNavigationProperty_new_witness :
  EntityClass_createNavigationProperty Sample.imports 2 "Next" (VString "PipeConnects")
    (VString "Forward") Sample.pipe_heap
  = (Throw (ECObjectsError ECOBJECTS_ERROR_BASE ""), Sample.pipe_heap) ∧
  (∃ prop h',
     EntityClass_createNavigationProperty Sample.imports 2 "Next" (VRef 4)
       (VString "Forward") Sample.pipe_heap = (Normal prop, h') ∧
     appended Sample.imports 2 Sample.pipe (NavigationProperty "Next" (VRef 4) (VNumber 1)) prop
       Sample.pipe_heap h') ∧
  RelationshipClass_createNavigationProperty Sample.imports 2 "Next" (VRef 4)
    (VString "Sideways") Sample.pipe_heap
  = (Throw (ECObjectsError (OtherStatus 0) "Sideways"), Sample.pipe_heap).
Proof.
  split; [|split].
  - exact (proj1 (createNavigationProperty_new Sample.imports Sample.pipe_heap 2 Sample.pipe
                    "Next" (VString "PipeConnects") (VString "Forward") pipe_well_formed
                    (pipe_fresh_name "Next" ltac:(discriminate)))).
  - exact (proj1 (createNavigationProperty_new Sample.imports Sample.pipe_heap 2 Sample.pipe
                    "Next" (VRef 4) (VString "Forward") pipe_well_formed
                    (pipe_fresh_name "Next" ltac:(discriminate)))).
  - exact (proj2 (createNavigationProperty_new Sample.imports Sample.pipe_heap 2 Sample.pipe
                    "Next" (VRef 4) (VString "Sideways") pipe_well_formed
                    (pipe_fresh_name "Next" ltac:(discriminate)))).
Defined.

(** ** Creation and lookup together *)

(** A lookup that finds a property keeps finding it when the list grows at
    the end and the property objects of the old list are as they were. *)
Lemma find_property_grows {ext : Imports} (h h' : Heap) (name : string) (props extra : list loc)
    (found : loc) :
  (∀ l p, l ∈ props → h !! l = Some (OProperty p) → h' !! l = Some (OProperty p)) →
  find_property ext h name props = Normal (Some found) →
  find_property ext h' name (props ++ extra) = Normal (Some found).
Proof.
  intros Hsame. induction props as [|x rest IH]; [done|]. simpl.
  destruct (h !! x) as [[| |p]|] eqn:Hx; try done.
  rewrite (Hsame x p (list_elem_of_here _ _) Hx).
  destruct (String.eqb _ _); [done|].
  apply IH. intros l q Hin. apply Hsame. by right.
Qed.

(** Creation and lookup round trip.  Once a creation method has pushed a
    property, [getProperty] finds that very object under every case variant
    of its name, and still finds, under their names, the objects it found
    before; a second creation under any case variant of the new name
    throws DuplicateProperty. *)
Theorem created_property_is_found (ext : Imports) (h h' : Heap) (this : loc) (c : ECClass)
    (p : Property) (prop : loc) (name' : string) (type relationship direction : JsValue) :
  well_formed_class ext h this c →
  appended ext this c p prop h h' →
  toLowerCase ext name' = toLowerCase ext (Property_name p) →
  getProperty ext this name' h' = (Normal (Some prop), h') ∧
  (∀ name0 found,
     getProperty ext this name0 h = (Normal (Some found), h) →
     getProperty ext this name0 h' = (Normal (Some found), h')) ∧
  (∃ e,
     createPrimitiveProperty ext this name' type h' = (Throw e, h') ∧
     createPrimitiveArrayProperty ext this name' type h' = (Throw e, h') ∧
     createStructProperty ext this name' type h' = (Throw e, h') ∧
     createStructArrayProperty ext this name' type h' = (Throw e, h') ∧
     EntityClass_createNavigationProperty ext this name' relationship direction h'
       = (Throw e, h') ∧
     RelationshipClass_createNavigationProperty ext this name' relationship direction h'
       = (Throw e, h') ∧
     ∃ message, e = ECObjectsError DuplicateProperty message).
Proof.
  intros (Hc & Hall & Huniq) (Hfresh & Hprop & Hframe & Hc' & Hall' & Huniq') Hname.
  simpl in Hall', Huniq'.
  set (props := default [] (properties c)) in *.
  set (c' := set_properties (Some (props ++ [prop])%list) c) in *.
  assert (Hnamed : named ext h' (props ++ [prop]) name' prop).
  { split; [apply elem_of_app; right; constructor|]. exists p. by split. }
  assert (Hget : getProperty ext this name' h' = (Normal (Some prop), h')).
  { rewrite (getProperty_at _ _ c' _ _ Hc' eq_refl).
    destruct (find_property_found _ _ _ _ Hall' Hnamed) as (found & -> & Hin & q & Hq & Eq).
    f_equal. f_equal. f_equal.
    apply (Huniq' found prop q p); try done; [apply Hnamed|congruence]. }
  split; [exact Hget|]. split.
  - intros name0 found Hfound.
    assert (Nthis : ∀ l q, h !! l = Some (OProperty q) → l ≠ this)
      by (intros l q Hl E; subst l; congruence).
    rewrite (getProperty_at _ _ c' _ _ Hc' eq_refl).
    unfold getProperty in Hfound.
    rewrite (bind_normal _ _ _ _ _ (readClass_at _ _ _ Hc)) in Hfound.
    subst props. destruct (properties c) as [ps|]; [|done]. simpl in *.
    injection Hfound as Hfound.
    erewrite find_property_grows; [done| |exact Hfound].
    intros l q _ Hl. apply Hframe; [by eapply Nthis|done].
  - eexists. repeat split.
    + unfold createPrimitiveProperty. duplicate_case Hget Hc'.
    + unfold createPrimitiveArrayProperty. duplicate_case Hget Hc'.
    + unfold createStructProperty. duplicate_case Hget Hc'.
    + unfold createStructArrayProperty. duplicate_case Hget Hc'.
    + unfold EntityClass_createNavigationProperty. duplicate_case Hget Hc'.
    + unfold RelationshipClass_createNavigationProperty. duplicate_case Hget Hc'.
    + by eexists.
Qed.

Lemma diameter_appended :
  appended Sample.imports 2 Sample.pipe (PrimitiveProperty "Diameter" (VNumber 2)) 4
    Sample.pipe_heap Sample.diameter_heap.
Proof.
  destruct (append_new_property Sample.pipe_heap 2 Sample.pipe
              (PrimitiveProperty "Diameter" (VNumber 2)) pipe_well_formed
              (pipe_fresh_name "Diameter" ltac:(discriminate)))
    as (prop & h' & Hrun & Happ).
  assert (Hval : (prop <- alloc (OProperty (PrimitiveProperty "Diameter" (VNumber 2))) ;;
                  push_property 2 prop ;; ret prop) Sample.pipe_heap
                 = (Normal 4, Sample.diameter_heap)) by (vm_compute; reflexivity).
  rewrite Hval in Hrun. injection Hrun as <- <-. exact Happ.
Qed.

Lemma created_property_is_found_witness :
  getProperty Sample.imports 2 "DIAMETER" Sample.diameter_heap = (Normal (Some 4), Sample.diameter_heap) ∧
  getProperty Sample.imports 2 "length" Sample.diameter_heap = (Normal (Some 3), Sample.diameter_heap) ∧
  ∃ e, createStructProperty Sample.imports 2 "diameter" VUndefined Sample.diameter_heap
       = (Throw e, Sample.diameter_heap).
Proof.
  destruct (created_property_is_found Sample.imports Sample.pipe_heap Sample.diameter_heap 2
              Sample.pipe (PrimitiveProperty "Diameter" (VNumber 2)) 4 "DIAMETER"
              VUndefined VUndefined VUndefined pipe_well_formed diameter_appended eq_refl)
    as (Hnew & Hold & _).
  destruct (created_property_is_found Sample.imports Sample.pipe_heap Sample.diameter_heap 2
              Sample.pipe (PrimitiveProperty "Diameter" (VNumber 2)) 4 "diameter"
              VUndefined VUndefined VUndefined pipe_well_formed diameter_appended eq_refl)
    as (_ & _ & e & _ & _ & Hdup & _).
  split; [exact Hnew|]. split.
  - apply Hold. vm_compute. reflexivity.
  - exists e. exact Hdup.
Defined.

(** ** Constructors *)

(** [new C(name, modifier)] for a class [C] of the module.  When the base
    constructor throws, nothing is created.  Otherwise the new object is
    placed at a location not in use and every object of the heap is left as
    it was; its modifier is the argument when that is truthy and
    [ECClassModifier.None] otherwise; it has no property list, and
    [getProperty] on it answers [undefined] for every name. *)
Theorem new_ECClass_empty (ext : Imports) (h : Heap) (k : ClassKind) (name : string)
    (given : JsValue) :
  match SchemaChild_constructor ext name with
  | Throw e => new_ECClass ext k name given h = (Throw e, h)
  | Normal b =>
      ∃ this h' c,
        new_ECClass ext k name given h = (Normal this, h') ∧
        h !! this = None ∧
        (∀ l o, h !! l = Some o → h' !! l = Some o) ∧
        well_formed_class ext h' this c ∧
        kind c = k ∧ base c = b ∧
        modifier c = (if truthy given then given else ECClassModifier_None ext) ∧
        properties c = None ∧
        ∀ lookup, getProperty ext this lookup h' = (Normal None, h')
  end.
Proof.
  unfold new_ECClass.
  destruct (SchemaChild_constructor ext name) as [b|e] eqn:Hb; [|done].
  unfold bind at 1. unfold lift at 1.
  match goal with |- context [alloc ?o] =>
    destruct (alloc_fresh h o) as [-> Hfresh]; set (obj := o) end.
  eexists _, _, _. split; [reflexivity|]. split; [exact Hfresh|]. split.
  { intros l o Hl. rewrite lookup_insert_ne; [done|]. intros E. subst l. congruence. }
  assert (Hwf : well_formed_class ext (<[fresh (dom h) := obj]> h) (fresh (dom h))
                  (mkECClass k b (if truthy given then given else ECClassModifier_None ext)
                     VUndefined None None VUndefined VUndefined VUndefined VUndefined
                     VUndefined VUndefined)).
  { split; [apply lookup_insert_eq|]. split; [constructor|].
    intros l1 l2 p1 p2 Hin. by apply elem_of_nil in Hin. }
  split; [exact Hwf|]. repeat split.
  intros lookup. apply (getProperty_fresh _ _ _ _ Hwf).
  intros prop [Hin _]. by apply elem_of_nil in Hin.
Qed.

Lemma assign_either (this : loc) (b : bool) (set : JsValue → ECClass → ECClass)
    (x y : JsValue) :
  (if b then assign this (set x) else assign this (set y))
  = assign this (set (if b then x else y)).
Proof. by destruct b. Qed.

(** [new RelationshipClass(name, strength, strengthDirection, modifier)].
    When the base constructor throws, nothing is created.  Otherwise three
    objects are created, the class and its two constraints, and nothing
    else in the heap changes.  A truthy [strength] or [strengthDirection]
    is stored; a falsy one, an enumeration member numbered 0 included, is
    replaced by the default.  Each constraint starts non-polymorphic, with
    multiplicity [zeroOne], no role label, no constraint class and no
    abstract constraint. *)
Theorem new_RelationshipClass_arguments (ext : Imports) (h : Heap) (name : string)
    (strength strengthDirection given : JsValue) :
  match SchemaChild_constructor ext name with
  | Throw e =>
      new_RelationshipClass ext name strength strengthDirection given h = (Throw e, h)
  | Normal b =>
      ∃ this src tgt h',
        new_RelationshipClass ext name strength strengthDirection given h = (Normal this, h') ∧
        h !! this = None ∧ h !! src = None ∧ h !! tgt = None ∧
        (∀ l, l ≠ this → l ≠ src → l ≠ tgt → h' !! l = h !! l) ∧
        h' !! this = Some (OClass {|
          kind := RelationshipClass; base := b;
          modifier := if truthy given then given else ECClassModifier_None ext;
          baseClass := VUndefined; properties := None; mixins := None;
          appliesTo := VUndefined; containerType := VUndefined;
          strength := if truthy strength then strength else StrengthType_Referencing ext;
          strengthDirection := if truthy strengthDirection then strengthDirection
                               else RelatedInstanceDirection_Forward ext;
          source := VRef src; target := VRef tgt |}) ∧
        h' !! src = Some (OConstraint (initial_constraint ext this (RelationshipEnd_Source ext))) ∧
        h' !! tgt = Some (OConstraint (initial_constraint ext this (RelationshipEnd_Target ext)))
  end.
Proof.
  unfold new_RelationshipClass, new_ECClass, new_RelationshipConstraint.
  destruct (SchemaChild_constructor ext name) as [b|e] eqn:Hb; [|done].
  unfold bind at 1. unfold bind at 1. unfold lift at 1.
  set (c0 := mkECClass _ _ _ _ _ _ _ _ _ _ _ _).
  destruct (alloc_fresh h (OClass c0)) as [-> Hthis].
  set (this := fresh (dom h)) in *.
  set (h1 := <[this := OClass c0]> h).
  assert (H1 : h1 !! this = Some (OClass c0)) by apply lookup_insert_eq.
  rewrite assign_either.
  rewrite (bind_normal _ _ _ _ _ (assign_at _ _ _ _ H1)).
  set (c1 := set_strength _ c0).
  set (h2 := <[this := OClass c1]> h1).
  assert (H2 : h2 !! this = Some (OClass c1)) by apply lookup_insert_eq.
  rewrite assign_either.
  rewrite (bind_normal _ _ _ _ _ (assign_at _ _ _ _ H2)).
  set (c2 := set_strengthDirection _ c1).
  set (h3 := <[this := OClass c2]> h2).
  assert (H3 : h3 !! this = Some (OClass c2)) by apply lookup_insert_eq.
  set (rs := mkRelationshipConstraint _ this (RelationshipEnd_Source ext) _ _ _ _).
  destruct (alloc_fresh h3 (OConstraint rs)) as [Es Hsrc].
  rewrite (bind_normal _ _ _ _ _ Es).
  set (src := fresh (dom h3)) in *.
  assert (Nsrc : this ≠ src) by (intros E; rewrite <- E, H3 in Hsrc; done).
  set (h4 := <[src := OConstraint rs]> h3).
  assert (H4 : h4 !! this = Some (OClass c2)) by (subst h4; by rewrite lookup_insert_ne).
  rewrite (bind_normal _ _ _ _ _ (assign_at _ _ _ _ H4)).
  set (c3 := set_source _ c2).
  set (h5 := <[this := OClass c3]> h4).
  assert (H5 : h5 !! this = Some (OClass c3)) by apply lookup_insert_eq.
  assert (H5s : h5 !! src = Some (OConstraint rs)).
  { subst h5 h4. rewrite lookup_insert_ne by done. apply lookup_insert_eq. }
  set (rt := mkRelationshipConstraint _ this (RelationshipEnd_Target ext) _ _ _ _).
  destruct (alloc_fresh h5 (OConstraint rt)) as [Et Htgt].
  rewrite (bind_normal _ _ _ _ _ Et).
  set (tgt := fresh (dom h5)) in *.
  assert (Ntgt : this ≠ tgt) by (intros E; rewrite <- E, H5 in Htgt; done).
  assert (Nst : src ≠ tgt) by (intros E; rewrite <- E, H5s in Htgt; done).
  set (h6 := <[tgt := OConstraint rt]> h5).
  assert (H6 : h6 !! this = Some (OClass c3)) by (subst h6; by rewrite lookup_insert_ne).
  rewrite (bind_normal _ _ _ _ _ (assign_at _ _ _ _ H6)).
  set (c4 := set_target _ c3).
  set (h7 := <[this := OClass c4]> h6).
  exists this, src, tgt, h7.
  split; [done|]. split; [done|].
  split; [subst h3 h2 h1; by rewrite !lookup_insert_ne in Hsrc|].
  split; [subst h5 h4 h3 h2 h1; by rewrite !lookup_insert_ne in Htgt|].
  split; [|split; [|split]].
  - intros l N1 N2 N3. subst h7 h6 h5 h4 h3 h2 h1. by rewrite !lookup_insert_ne.
  - apply lookup_insert_eq.
  - subst h7 h6. by rewrite !lookup_insert_ne.
  - subst h7 h6. rewrite lookup_insert_ne by done. apply lookup_insert_eq.
Qed.

(** ** Constraint classes and the abstract constraint *)

(** All of [addClass].  It throws InvalidECJson, and writes nothing, only
    when the argument is [undefined] and a collection exists; in every
    other case it ends normally with the argument pushed at the end of the
    collection, created when there was none, so that [addClass(undefined)]
    on a new constraint stores [undefined] as its first class. *)
Theorem addClass_behaviour (h : Heap) (this : loc) (rc : RelationshipConstraint)
    (constraint : JsValue) :
  h !! this = Some (OConstraint rc) →
  addClass this constraint h
  = if isSome (constraintClasses rc) && is_undefined constraint
    then (Throw (ECObjectsError InvalidECJson ""), h)
    else (Normal (), <[this := OConstraint (with_class constraint rc)]> h).
Proof.
  intros Hrc.
  destruct constraint;
    try (rewrite andb_false_r; by apply addClass_appends).
  destruct (constraintClasses rc) as [classes|] eqn:Hcc; simpl.
  - by apply addClass_undefined with (rc := rc) (classes := classes).
  - unfold addClass.
    rewrite (bind_normal _ _ _ _ _ (readConstraint_at _ _ _ Hrc)), Hcc. simpl.
    unfold bind. rewrite (assignConstraint_at _ _ _ _ Hrc).
    unfold readConstraint, assignConstraint.
    repeat (rewrite lookup_insert_eq; simpl).
    rewrite insert_insert_eq. unfold with_class. by rewrite Hcc.
Qed.

Lemma addClass_behaviour_witness :
  addClass 6 VUndefined Sample.connects_heap
  = (Normal (), <[6 := OConstraint (with_class VUndefined Sample.connects_target)]>
                  Sample.connects_heap) ∧
  addClass 5 VUndefined Sample.connects_heap
  = (Throw (ECObjectsError InvalidECJson ""), Sample.connects_heap).
Proof.
  split.
  - exact (addClass_behaviour Sample.connects_heap 6 Sample.connects_target VUndefined
             connects_heap_target).
  - exact (addClass_behaviour Sample.connects_heap 5 Sample.connects_source VUndefined
             connects_heap_source).
Defined.

(** The implicit abstract constraint comes and goes with the number of
    classes.  On a constraint with no explicit abstract constraint,
    [addClass] of a class makes the getter answer that class when it is the
    first one, and makes it answer the absent explicit value as soon as the
    collection holds a second one.  After the setter has stored a truthy
    value, the getter answers that value however many classes there are. *)
Theorem abstractConstraint_after_addClass (h : Heap) (this : loc)
    (rc : RelationshipConstraint) (constraint explicit : JsValue) :
  h !! this = Some (OConstraint rc) →
  constraint ≠ VUndefined →
  ((addClass this constraint ;; abstractConstraint this) h).1
  = Normal (if truthy (_abstractConstraint rc) then _abstractConstraint rc
            else match constraintClasses rc with
                 | None | Some [] => constraint
                 | Some (_ :: _) => _abstractConstraint rc
                 end) ∧
  (truthy explicit = true →
   ((abstractConstraint_set this explicit ;; addClass this constraint ;;
     abstractConstraint this) h).1 = Normal explicit).
Proof.
  intros Hrc Hdef. split.
  - rewrite (bind_normal _ _ _ _ _ (addClass_appends _ _ _ _ Hrc Hdef)).
    unfold abstractConstraint.
    erewrite bind_normal; [|apply readConstraint_at, lookup_insert_eq].
    unfold ret, get_abstractConstraint. simpl.
    destruct (truthy (_abstractConstraint rc)); [done|].
    by destruct (constraintClasses rc) as [[|x [|y rest]]|].
  - intros Ht. unfold abstractConstraint_set.
    rewrite (bind_normal _ _ _ _ _ (assignConstraint_at _ _ _ _ Hrc)).
    erewrite bind_normal; [|by apply addClass_appends; [apply lookup_insert_eq|]].
    unfold abstractConstraint.
    erewrite bind_normal; [|apply readConstraint_at, lookup_insert_eq].
    unfold ret, get_abstractConstraint. simpl. by rewrite Ht.
Qed.

Lemma abstractConstraint_after_addClass_witness :
  ((addClass 6 (VRef 2) ;; abstractConstraint 6) Sample.connects_heap).1 = Normal (VRef 2) ∧
  ((addClass 5 (VRef 0) ;; abstractConstraint 5) Sample.connects_heap).1 = Normal VUndefined ∧
  ((abstractConstraint_set 5 (VRef 0) ;; addClass 5 (VRef 0) ;; abstractConstraint 5)
     Sample.connects_heap).1 = Normal (VRef 0).
Proof.
  split; [|split].
  - exact (proj1 (abstractConstraint_after_addClass Sample.connects_heap 6
                    Sample.connects_target (VRef 2) VUndefined connects_heap_target
                    ltac:(discriminate))).
  - exact (proj1 (abstractConstraint_after_addClass Sample.connects_heap 5
                    Sample.connects_source (VRef 0) VUndefined connects_heap_source
                    ltac:(discriminate))).
  - exact (proj2 (abstractConstraint_after_addClass Sample.connects_heap 5
                    Sample.connects_source (VRef 0) (VRef 0) connects_heap_source
                    ltac:(discriminate)) eq_refl).
Defined.

(** ** RelationshipConstraint.fromJson: references *)

Lemma scalars_references (ext : Imports) (jsonObj : JsonObj) (rc : RelationshipConstraint) :
  relationshipClass (scalars ext jsonObj rc) = relationshipClass rc ∧
  _abstractConstraint (scalars ext jsonObj rc) = _abstractConstraint rc ∧
  constraintClasses (scalars ext jsonObj rc) = constraintClasses rc.
Proof.
  unfold scalars, copy_scalars.
  by destruct (truthy (get_field jsonObj "multiplicity")),
              (RelationshipMultiplicity_fromString ext (get_field jsonObj "multiplicity")),
              (truthy (get_field jsonObj "roleLabel")),
              (truthy (get_field jsonObj "polymorphic")).
Qed.

(** [fromJson] up to the [abstractConstraint] field, when the multiplicity
    raises no error. *)
Lemma RelationshipConstraint_fromJson_scalars (ext : Imports) (h : Heap) (this : loc)
    (rc : RelationshipConstraint) (jsonObj : JsonObj) (k : Js unit) :
  h !! this = Some (OConstraint rc) →
  multiplicity_parses ext jsonObj →
  ((if truthy (get_field jsonObj "roleLabel")
    then assignConstraint this (set_roleLabel (get_field jsonObj "roleLabel"))
    else ret ()) ;;
   (if truthy (get_field jsonObj "polymorphic")
    then assignConstraint this (set_polymorphic (get_field jsonObj "polymorphic"))
    else ret ()) ;;
   (if truthy (get_field jsonObj "multiplicity") then
      match RelationshipMultiplicity_fromString ext (get_field jsonObj "multiplicity") with
      | None => throw (ECObjectsError InvalidMultiplicity "")
      | Some multTmp => assignConstraint this (set_multiplicity multTmp)
      end
    else ret ()) ;;
   k) h
  = k (<[this := OConstraint (scalars ext jsonObj rc)]> h).
Proof.
  intros Hrc Hmult.
  rewrite (RelationshipConstraint_fromJson_prefix _ _ _ _ _ Hrc).
  unfold scalars, multiplicity_parses in *.
  destruct (truthy (get_field jsonObj "multiplicity")); [|done].
  destruct (RelationshipMultiplicity_fromString ext _) as [m|]; [|by destruct Hmult].
  erewrite bind_normal; [|by apply assignConstraint_at, lookup_insert_eq].
  by rewrite insert_insert_eq.
Qed.

Lemma relationshipClass_schema_at (h : Heap) (this : loc) (rc : RelationshipConstraint)
    (relClass : ECClass) :
  h !! this = Some (OConstraint rc) →
  h !! relationshipClass rc = Some (OClass relClass) →
  relationshipClass_schema this h = (Normal (schema (base relClass)), h).
Proof.
  intros Hrc Hrel. unfold relationshipClass_schema.
  rewrite (bind_normal _ _ _ _ _ (readConstraint_at _ _ _ Hrc)).
  by rewrite (bind_normal _ _ _ _ _ (readClass_at _ _ _ Hrel)).
Qed.

Lemma append_classes_cons (child : loc) (resolved : list loc) (rc : RelationshipConstraint) :
  append_classes resolved (with_class (VRef child) rc) = append_classes (child :: resolved) rc.
Proof.
  destruct resolved as [|r rest]; [done|].
  unfold append_classes, with_class, set_constraintClasses. simpl.
  by rewrite <- app_assoc.
Qed.

Lemma forEach_add_resolved (this : loc) (sch : Schema) (relClass : ECClass)
    (names : list JsValue) (resolved : list loc) :
  resolves sch names resolved →
  schema (base relClass) = SchemaObject sch →
  ∀ (h : Heap) (rc : RelationshipConstraint),
    h !! this = Some (OConstraint rc) →
    h !! relationshipClass rc = Some (OClass relClass) →
    forEach (add_resolved this) names h
    = (Normal (), <[this := OConstraint (append_classes resolved rc)]> h) ∧
    ∀ bad rest,
      getChild sch bad = None →
      forEach (add_resolved this) (names ++ bad :: rest) h
      = (Throw (ECObjectsError InvalidECJson ""),
         <[this := OConstraint (append_classes resolved rc)]> h).
Proof.
  intros Hres Hsch.
  induction Hres as [|constraintClass child names resolved Hchild Hrest IH]; intros h rc Hrc Hrel.
  - simpl. rewrite (insert_id _ _ _ Hrc). split; [done|].
    intros bad rest Hbad. simpl.
    assert (Hstep : add_resolved this bad h = (Throw (ECObjectsError InvalidECJson ""), h)).
    { unfold add_resolved.
      rewrite (bind_normal _ _ _ _ _ (relationshipClass_schema_at _ _ _ _ Hrc Hrel)).
      by rewrite Hsch, Hbad. }
    by rewrite (bind_throw _ _ _ _ _ Hstep).
  - assert (Hstep : add_resolved this constraintClass h
                    = (Normal (), <[this := OConstraint (with_class (VRef child) rc)]> h)).
    { unfold add_resolved.
      rewrite (bind_normal _ _ _ _ _ (relationshipClass_schema_at _ _ _ _ Hrc Hrel)).
      rewrite Hsch, Hchild. by apply addClass_appends. }
    assert (Nthis : relationshipClass rc ≠ this) by (intros E; congruence).
    destruct (IH (<[this := OConstraint (with_class (VRef child) rc)]> h)
                 (with_class (VRef child) rc)) as [Hall Hbad].
    { apply lookup_insert_eq. }
    { simpl. by rewrite lookup_insert_ne. }
    rewrite append_classes_cons, insert_insert_eq in Hall, Hbad.
    split.
    + simpl. by rewrite (bind_normal _ _ _ _ _ Hstep).
    + intros bad rest Hnone. simpl. rewrite (bind_normal _ _ _ _ _ Hstep).
      by rewrite (Hbad bad rest Hnone).
Qed.

Lemma forEach_add_resolved_no_schema (this : loc) (relClass : ECClass)
    (names : list JsValue) (h : Heap) (rc : RelationshipConstraint) :
  is_schema_object (schema (base relClass)) = false →
  h !! this = Some (OConstraint rc) →
  h !! relationshipClass rc = Some (OClass relClass) →
  forEach (add_resolved this) names h = (Normal (), h).
Proof.
  intros Hno Hrc Hrel. induction names as [|x rest IH]; [done|]. simpl.
  assert (Hstep : add_resolved this x h = (Normal (), h)).
  { unfold add_resolved.
    rewrite (bind_normal _ _ _ _ _ (relationshipClass_schema_at _ _ _ _ Hrc Hrel)).
    by destruct (schema (base relClass)). }
  by rewrite (bind_normal _ _ _ _ _ Hstep).
Qed.

(** The getter on a constraint whose explicit abstract constraint is
    truthy. *)
Lemma abstractConstraint_explicit (h : Heap) (this : loc) (v : JsValue) :
  truthy v = true →
  constraint_field this _abstractConstraint v h →
  abstractConstraint this h = (Normal v, h).
Proof.
  intros Hv (rc & Hrc & Habs). unfold abstractConstraint.
  rewrite (bind_normal _ _ _ _ _ (readConstraint_at _ _ _ Hrc)).
  unfold ret, get_abstractConstraint. by rewrite Habs, Hv.
Qed.

Ltac constraint_prefix Hrc Hrel Hmult :=
  unfold RelationshipConstraint_fromJson;
  rewrite (RelationshipConstraint_fromJson_scalars _ _ _ _ _ _ Hrc Hmult);
  match goal with
  | |- context [<[?this := OConstraint (scalars ?ext ?jsonObj ?rc)]> ?h] =>
      destruct (scalars_references ext jsonObj rc) as (Erel & Eabs & Ecc);
      set (rc3 := scalars ext jsonObj rc) in *;
      set (h3 := <[this := OConstraint rc3]> h);
      assert (H3 : h3 !! this = Some (OConstraint rc3)) by apply lookup_insert_eq;
      assert (Hrel3 : h3 !! relationshipClass rc3 = Some (OClass _))
        by (subst h3; rewrite Erel, lookup_insert_ne; [exact Hrel|congruence])
  end.

(** The [abstractConstraint] field of the JSON object, when the scalar
    fields before it raise no error.  A truthy value that is not a string
    makes [fromJson] throw InvalidECJson.  A name is looked up in the
    schema of the owning relationship class: a name the schema does not
    know makes [fromJson] throw InvalidECJson; a resolved class is stored,
    the getter answers it once [fromJson] has ended, however it ends, and
    [fromJson] returns normally when the object has no truthy
    [constraintClasses].  When the owning class has no schema object the
    name is dropped without an error: the abstract constraint stays as it
    was and [fromJson] ends as it does without the field, normally with
    the scalar fields copied, unless [constraintClasses] is truthy and not
    an array. *)
Theorem RelationshipConstraint_fromJson_abstractConstraint (ext : Imports) (h : Heap)
    (this : loc) (rc : RelationshipConstraint) (relClass : ECClass) (jsonObj : JsonObj) :
  h !! this = Some (OConstraint rc) →
  h !! relationshipClass rc = Some (OClass relClass) →
  multiplicity_parses ext jsonObj →
  truthy (get_field jsonObj "abstractConstraint") = true →
  if typeof_string (get_field jsonObj "abstractConstraint") then
    match schema (base relClass) with
    | SchemaObject sch =>
        match getChild sch (get_field jsonObj "abstractConstraint") with
        | None =>
            RelationshipConstraint_fromJson ext this jsonObj h
            = (Throw (ECObjectsError InvalidECJson ""),
               <[this := OConstraint (scalars ext jsonObj rc)]> h)
        | Some child =>
            abstractConstraint this (RelationshipConstraint_fromJson ext this jsonObj h).2
            = (Normal (VRef child), (RelationshipConstraint_fromJson ext this jsonObj h).2) ∧
            (truthy (get_field jsonObj "constraintClasses") = false →
             RelationshipConstraint_fromJson ext this jsonObj h
             = (Normal (),
                <[this := OConstraint
                            (set__abstractConstraint (VRef child) (scalars ext jsonObj rc))]> h))
        end
    | _ =>
        RelationshipConstraint_fromJson ext this jsonObj h
        = (if truthy (get_field jsonObj "constraintClasses")
              && negb (isArray (get_field jsonObj "constraintClasses"))
           then Throw (ECObjectsError InvalidECJson "") else Normal (),
           <[this := OConstraint (scalars ext jsonObj rc)]> h) ∧
        _abstractConstraint (scalars ext jsonObj rc) = _abstractConstraint rc
    end
  else
    RelationshipConstraint_fromJson ext this jsonObj h
    = (Throw (ECObjectsError InvalidECJson ""),
       <[this := OConstraint (scalars ext jsonObj rc)]> h).
Proof.
  intros Hrc Hrel Hmult Ht.
  constraint_prefix Hrc Hrel Hmult.
  rewrite Ht.
  pose proof (relationshipClass_schema_at _ _ _ _ H3 Hrel3) as Hslot.
  destruct (typeof_string (get_field jsonObj "abstractConstraint")); simpl; [|done].
  assert (Hdropped :
    is_schema_object (schema (base relClass)) = false →
    (if truthy (get_field jsonObj "constraintClasses") then
       match get_field jsonObj "constraintClasses" with
       | VArray names => forEach (add_resolved this) names
       | _ => throw (ECObjectsError InvalidECJson "")
       end
     else ret ()) h3
    = (if truthy (get_field jsonObj "constraintClasses")
          && negb (isArray (get_field jsonObj "constraintClasses"))
       then Throw (ECObjectsError InvalidECJson "") else Normal (), h3)).
  { intros Hno.
    destruct (truthy (get_field jsonObj "constraintClasses")); [|done].
    destruct (get_field jsonObj "constraintClasses") as [| | | | |names| |]; try done.
    simpl. by apply forEach_add_resolved_no_schema with (rc := rc3) (relClass := relClass). }
  destruct (schema (base relClass)) as [|s|sch] eqn:Hsch.
  - split; [|exact Eabs].
    unfold bind at 1. rewrite (bind_normal _ _ _ _ _ Hslot).
    change (ret () h3) with (@Normal unit (), h3). cbv beta iota.
    by apply Hdropped.
  - split; [|exact Eabs].
    unfold bind at 1. rewrite (bind_normal _ _ _ _ _ Hslot).
    change (ret () h3) with (@Normal unit (), h3). cbv beta iota.
    by apply Hdropped.
  - destruct (getChild sch (get_field jsonObj "abstractConstraint")) as [child|] eqn:Hchild.
    + split.
      * apply abstractConstraint_explicit; [done|].
        unfold bind at 1. rewrite (bind_normal _ _ _ _ _ Hslot), Hchild.
        unfold abstractConstraint_set. rewrite (assignConstraint_at _ _ _ _ H3).
        cbv beta iota.
        match goal with |- constraint_field _ _ _ (?k ?x).2 =>
          assert (Hk : keeps (constraint_field this _abstractConstraint (VRef child)) k)
            by keeps_constraint
        end.
        apply Hk. eexists. split; [apply lookup_insert_eq|done].
      * intros Hcc. rewrite Hcc.
        unfold bind at 1. rewrite (bind_normal _ _ _ _ _ Hslot), Hchild.
        unfold abstractConstraint_set. rewrite (assignConstraint_at _ _ _ _ H3).
        cbv beta iota. unfold ret. subst h3. by rewrite insert_insert_eq.
    + unfold bind at 1. rewrite (bind_normal _ _ _ _ _ Hslot), Hchild. reflexivity.
Qed.

(** The [constraintClasses] field of the JSON object, when the fields
    before it raise no error and give no abstract constraint.  A truthy
    value that is not an array makes [fromJson] throw InvalidECJson.  The
    names of an array are looked up in the schema of the owning
    relationship class and pushed on the collection in the order of the
    array; at the first name the schema does not know [fromJson] throws
    InvalidECJson, the classes before it pushed.  When the owning class
    has no schema object every name is dropped without an error. *)
Theorem RelationshipConstraint_fromJson_constraintClasses (ext : Imports) (h : Heap)
    (this : loc) (rc : RelationshipConstraint) (relClass : ECClass) (jsonObj : JsonObj) :
  h !! this = Some (OConstraint rc) →
  h !! relationshipClass rc = Some (OClass relClass) →
  multiplicity_parses ext jsonObj →
  truthy (get_field jsonObj "abstractConstraint") = false →
  truthy (get_field jsonObj "constraintClasses") = true →
  match get_field jsonObj "constraintClasses" with
  | VArray names =>
      match schema (base relClass) with
      | SchemaObject sch =>
          (∀ resolved,
             resolves sch names resolved →
             RelationshipConstraint_fromJson ext this jsonObj h
             = (Normal (),
                <[this := OConstraint (append_classes resolved (scalars ext jsonObj rc))]> h)) ∧
          (∀ good resolved bad rest,
             names = (good ++ bad :: rest)%list →
             resolves sch good resolved →
             getChild sch bad = None →
             RelationshipConstraint_fromJson ext this jsonObj h
             = (Throw (ECObjectsError InvalidECJson ""),
                <[this := OConstraint (append_classes resolved (scalars ext jsonObj rc))]> h))
      | _ =>
          RelationshipConstraint_fromJson ext this jsonObj h
          = (Normal (), <[this := OConstraint (scalars ext jsonObj rc)]> h)
      end
  | _ =>
      RelationshipConstraint_fromJson ext this jsonObj h
      = (Throw (ECObjectsError InvalidECJson ""),
         <[this := OConstraint (scalars ext jsonObj rc)]> h)
  end.
Proof.
  intros Hrc Hrel Hmult Hf Ht.
  destruct (scalars_references ext jsonObj rc) as (Erel & Eabs & Ecc).
  set (rc3 := scalars ext jsonObj rc) in *.
  set (h3 := <[this := OConstraint rc3]> h).
  assert (H3 : h3 !! this = Some (OConstraint rc3)) by apply lookup_insert_eq.
  assert (Hrel3 : h3 !! relationshipClass rc3 = Some (OClass relClass))
    by (subst h3; rewrite Erel, lookup_insert_ne; [exact Hrel|congruence]).
  assert (Hrun : RelationshipConstraint_fromJson ext this jsonObj h
                 = match get_field jsonObj "constraintClasses" with
                   | VArray names => forEach (add_resolved this) names h3
                   | _ => (Throw (ECObjectsError InvalidECJson ""), h3)
                   end).
  { unfold RelationshipConstraint_fromJson.
    rewrite (RelationshipConstraint_fromJson_scalars _ _ _ _ _ _ Hrc Hmult).
    rewrite Hf, Ht. unfold bind at 1. unfold ret at 1. cbv beta iota.
    by destruct (get_field jsonObj "constraintClasses"). }
  rewrite Hrun.
  destruct (get_field jsonObj "constraintClasses") as [| | | | |names| |]; try reflexivity.
  destruct (schema (base relClass)) as [|s|sch] eqn:Hsch.
  - by apply forEach_add_resolved_no_schema with (rc := rc3) (relClass := relClass);
      [rewrite Hsch| |].
  - by apply forEach_add_resolved_no_schema with (rc := rc3) (relClass := relClass);
      [rewrite Hsch| |].
  - split.
    + intros resolved Hres.
      destruct (forEach_add_resolved this sch relClass names resolved Hres Hsch h3 rc3 H3 Hrel3)
        as [-> _].
      subst h3. by rewrite insert_insert_eq.
    + intros good resolved bad rest -> Hres Hbad.
      destruct (forEach_add_resolved this sch relClass good resolved Hres Hsch h3 rc3 H3 Hrel3)
        as [_ Hthrow].
      rewrite (Hthrow bad rest Hbad). subst h3. by rewrite insert_insert_eq.
Qed.

Lemma schema_heap_source :
  Sample.schema_heap !! 5 = Some (OConstraint Sample.connects_source).
Proof. vm_compute. reflexivity. Qed.

Lemma connects_heap_pipe_connects :
  Sample.connects_heap !! 4
  = Some (OClass (set_base {| name := "PipeConnects"; schema := SchemaUndefined |}
                    Sample.pipe_connects)).
Proof. vm_compute. reflexivity. Qed.

Lemma no_multiplicity_parses (ext : Imports) (jsonObj : JsonObj) :
  truthy (get_field jsonObj "multiplicity") = false → multiplicity_parses ext jsonObj.
Proof. intros Hf Ht. congruence. Qed.

Lemma RelationshipConstraint_fromJson_abstractConstraint_witness :
  RelationshipConstraint_fromJson Sample.imports 5
    [("abstractConstraint", VString "Element")] Sample.schema_heap
  = (Normal (),
     <[5 := OConstraint
        (set__abstractConstraint (VRef 0)
           (scalars Sample.imports [("abstractConstraint", VString "Element")]
              Sample.connects_source))]> Sample.schema_heap) ∧
  RelationshipConstraint_fromJson Sample.imports 5
    [("abstractConstraint", VString "Valve")] Sample.schema_heap
  = (Throw (ECObjectsError InvalidECJson ""),
     <[5 := OConstraint (scalars Sample.imports [("abstractConstraint", VString "Valve")]
                           Sample.connects_source)]> Sample.schema_heap) ∧
  RelationshipConstraint_fromJson Sample.imports 5
    [("abstractConstraint", VString "Valve")] Sample.connects_heap
  = (Normal (),
     <[5 := OConstraint (scalars Sample.imports [("abstractConstraint", VString "Valve")]
                           Sample.connects_source)]> Sample.connects_heap) ∧
  RelationshipConstraint_fromJson Sample.imports 5
    [("abstractConstraint", VString "Valve"); ("constraintClasses", VString "Pipe")]
    Sample.connects_heap
  = (Throw (ECObjectsError InvalidECJson ""),
     <[5 := OConstraint
        (scalars Sample.imports
           [("abstractConstraint", VString "Valve"); ("constraintClasses", VString "Pipe")]
           Sample.connects_source)]> Sample.connects_heap).
Proof.
  split; [|split; [|split]].
  - exact (proj2 (RelationshipConstraint_fromJson_abstractConstraint Sample.imports
             Sample.schema_heap 5 Sample.connects_source Sample.pipe_connects
             [("abstractConstraint", VString "Element")]
             schema_heap_source schema_heap_pipe_connects
             (no_multiplicity_parses _ [("abstractConstraint", VString "Element")] eq_refl)
             eq_refl) eq_refl).
  - exact (RelationshipConstraint_fromJson_abstractConstraint Sample.imports
             Sample.schema_heap 5 Sample.connects_source Sample.pipe_connects
             [("abstractConstraint", VString "Valve")]
             schema_heap_source schema_heap_pipe_connects
             (no_multiplicity_parses _ [("abstractConstraint", VString "Valve")] eq_refl)
             eq_refl).
  - exact (proj1 (RelationshipConstraint_fromJson_abstractConstraint Sample.imports
             Sample.connects_heap 5 Sample.connects_source _
             [("abstractConstraint", VString "Valve")]
             connects_heap_source connects_heap_pipe_connects
             (no_multiplicity_parses _ [("abstractConstraint", VString "Valve")] eq_refl)
             eq_refl)).
  - exact (proj1 (RelationshipConstraint_fromJson_abstractConstraint Sample.imports
             Sample.connects_heap 5 Sample.connects_source _
             [("abstractConstraint", VString "Valve"); ("constraintClasses", VString "Pipe")]
             connects_heap_source connects_heap_pipe_connects
             (no_multiplicity_parses _
                [("abstractConstraint", VString "Valve"); ("constraintClasses", VString "Pipe")]
                eq_refl)
             eq_refl)).
Defined.

Lemma RelationshipConstraint_fromJson_constraintClasses_witness :
  RelationshipConstraint_fromJson Sample.imports 5
    [("constraintClasses", VArray [VString "Element"; VString "Pipe"])] Sample.schema_heap
  = (Normal (),
     <[5 := OConstraint
        (append_classes [0; 2]
           (scalars Sample.imports
              [("constraintClasses", VArray [VString "Element"; VString "Pipe"])]
              Sample.connects_source))]> Sample.schema_heap) ∧
  RelationshipConstraint_fromJson Sample.imports 5
    [("constraintClasses", VArray [VString "Element"; VString "Valve"])] Sample.schema_heap
  = (Throw (ECObjectsError InvalidECJson ""),
     <[5 := OConstraint
        (append_classes [0]
           (scalars Sample.imports
              [("constraintClasses", VArray [VString "Element"; VString "Valve"])]
              Sample.connects_source))]> Sample.schema_heap) ∧
  RelationshipConstraint_fromJson Sample.imports 5
    [("constraintClasses", VArray [VString "Valve"])] Sample.connects_heap
  = (Normal (),
     <[5 := OConstraint
        (scalars Sample.imports [("constraintClasses", VArray [VString "Valve"])]
           Sample.connects_source)]> Sample.connects_heap).
Proof.
  split; [|split].
  - refine (proj1 (RelationshipConstraint_fromJson_constraintClasses Sample.imports
             Sample.schema_heap 5 Sample.connects_source Sample.pipe_connects
             [("constraintClasses", VArray [VString "Element"; VString "Pipe"])]
             schema_heap_source schema_heap_pipe_connects
             (no_multiplicity_parses _
                [("constraintClasses", VArray [VString "Element"; VString "Pipe"])] eq_refl)
             eq_refl eq_refl) [0; 2] _).
    repeat constructor.
  - refine (proj2 (RelationshipConstraint_fromJson_constraintClasses Sample.imports
             Sample.schema_heap 5 Sample.connects_source Sample.pipe_connects
             [("constraintClasses", VArray [VString "Element"; VString "Valve"])]
             schema_heap_source schema_heap_pipe_connects
             (no_multiplicity_parses _
                [("constraintClasses", VArray [VString "Element"; VString "Valve"])] eq_refl)
             eq_refl eq_refl) [VString "Element"] [0] (VString "Valve") [] eq_refl _ eq_refl).
    repeat constructor.
  - exact (RelationshipConstraint_fromJson_constraintClasses Sample.imports
             Sample.connects_heap 5 Sample.connects_source _
             [("constraintClasses", VArray [VString "Valve"])]
             connects_heap_source connects_heap_pipe_connects
             (no_multiplicity_parses _ [("constraintClasses", VArray [VString "Valve"])]
                eq_refl)
             eq_refl eq_refl).
Defined.

(** ** The subclasses' fromJson *)

(** An error of the inherited [ECClass.fromJson] ends the [fromJson] of
    every subclass with the same error and the same heap: the subclass
    reads none of its own fields. *)
Theorem subclass_fromJson_inherited_error (ext : Imports) (h h1 : Heap) (this : loc)
    (jsonObj : JsonObj) (e : Exn) :
  ECClass_fromJson ext this jsonObj h = (Throw e, h1) →
  EntityClass_fromJson ext this jsonObj h = (Throw e, h1) ∧
  MixinClass_fromJson ext this jsonObj h = (Throw e, h1) ∧
  CustomAttributeClass_fromJson ext this jsonObj h = (Throw e, h1) ∧
  RelationshipClass_fromJson ext this jsonObj h = (Throw e, h1).
Proof.
  intros Hsuper.
  unfold EntityClass_fromJson, MixinClass_fromJson, CustomAttributeClass_fromJson,
    RelationshipClass_fromJson.
  by rewrite !(bind_throw _ _ _ _ _ Hsuper).
Qed.

Lemma subclass_fromJson_inherited_error_witness :
  EntityClass_fromJson Sample.imports 2 [("baseClass", VNumber 5); ("mixin", VNumber 7)]
    Sample.schema_heap
  = (Throw (ECObjectsError InvalidECJson "The base class of Pipe is not a string type."),
     Sample.schema_heap) ∧
  CustomAttributeClass_fromJson Sample.imports 9 [("modifier", VString "Open")]
    Sample.schema_heap
  = (Throw (ECObjectsError (OtherStatus 0) "Open"), Sample.schema_heap).
Proof.
  split.
  - apply (subclass_fromJson_inherited_error Sample.imports Sample.schema_heap
             Sample.schema_heap 2 [("baseClass", VNumber 5); ("mixin", VNumber 7)]).
    vm_compute. reflexivity.
  - apply (subclass_fromJson_inherited_error Sample.imports Sample.schema_heap
             Sample.schema_heap 9 [("modifier", VString "Open")]).
    vm_compute. reflexivity.
Defined.

(** [MixinClass.fromJson] with a truthy [appliesTo], once the inherited
    method has returned.  The value is handed to the schema of the class as
    it is: [appliesTo] becomes the class the schema answers, a name it does
    not know makes [fromJson] throw InvalidECJson, and a class without a
    schema object makes it end in a [TypeError]. *)
Theorem MixinClass_fromJson_appliesTo (ext : Imports) (h h1 : Heap) (this : loc)
    (c1 : ECClass) (jsonObj : JsonObj) :
  ECClass_fromJson ext this jsonObj h = (Normal (), h1) →
  h1 !! this = Some (OClass c1) →
  truthy (get_field jsonObj "appliesTo") = true →
  MixinClass_fromJson ext this jsonObj h
  = match schema (base c1) with
    | SchemaObject sch =>
        match getChild sch (get_field jsonObj "appliesTo") with
        | Some tmpClass => (Normal (), <[this := OClass (set_appliesTo (VRef tmpClass) c1)]> h1)
        | None => (Throw (ECObjectsError InvalidECJson ""), h1)
        end
    | _ => (Throw TypeError, h1)
    end.
Proof.
  intros Hsuper Hc1 Ht. unfold MixinClass_fromJson.
  rewrite (bind_normal _ _ _ _ _ Hsuper), Ht.
  rewrite (bind_normal _ _ _ _ _ (readClass_at _ _ _ Hc1)).
  unfold bind, lift, call_getChild.
  destruct (schema (base c1)) as [|s|sch]; try done.
  destruct (getChild sch _); [|done]. by apply assign_at.
Qed.

Lemma MixinClass_fromJson_appliesTo_witness :
  MixinClass_fromJson Sample.imports 7 [("appliesTo", VString "Pipe")] Sample.schema_heap
  = (Normal (), <[7 := OClass (set_appliesTo (VRef 2) Sample.insulated)]> Sample.schema_heap) ∧
  MixinClass_fromJson Sample.imports 7 [("appliesTo", VString "Valve")] Sample.schema_heap
  = (Throw (ECObjectsError InvalidECJson ""), Sample.schema_heap).
Proof.
  split.
  - apply (MixinClass_fromJson_appliesTo Sample.imports Sample.schema_heap Sample.schema_heap
             7 Sample.insulated [("appliesTo", VString "Pipe")]);
      [vm_compute; reflexivity|apply schema_heap_insulated|reflexivity].
  - apply (MixinClass_fromJson_appliesTo Sample.imports Sample.schema_heap Sample.schema_heap
             7 Sample.insulated [("appliesTo", VString "Valve")]);
      [vm_compute; reflexivity|apply schema_heap_insulated|reflexivity].
Defined.

(** [CustomAttributeClass.fromJson] with a truthy [appliesTo], once the
    inherited method has returned: a value that is not a string makes it
    throw InvalidECJson; a string goes through
    [parseCustomAttributeContainerType], whose result becomes
    [containerType] and whose throw is passed on with the class as the
    inherited method left it. *)
Theorem CustomAttributeClass_fromJson_appliesTo (ext : Imports) (h h1 : Heap) (this : loc)
    (c1 : ECClass) (jsonObj : JsonObj) :
  ECClass_fromJson ext this jsonObj h = (Normal (), h1) →
  h1 !! this = Some (OClass c1) →
  truthy (get_field jsonObj "appliesTo") = true →
  CustomAttributeClass_fromJson ext this jsonObj h
  = if typeof_string (get_field jsonObj "appliesTo") then
      match parseCustomAttributeContainerType ext (get_field jsonObj "appliesTo") with
      | Normal parsed => (Normal (), <[this := OClass (set_containerType parsed c1)]> h1)
      | Throw e => (Throw e, h1)
      end
    else (Throw (ECObjectsError InvalidECJson ""), h1).
Proof.
  intros Hsuper Hc1 Ht. unfold CustomAttributeClass_fromJson.
  rewrite (bind_normal _ _ _ _ _ Hsuper), Ht. simpl.
  destruct (typeof_string _); simpl; [|done].
  unfold bind, lift.
  destruct (parseCustomAttributeContainerType ext _); [|done]. by apply assign_at.
Qed.

Lemma schema_heap_units :
  ∃ units, Sample.schema_heap !! 9 = Some (OClass units) ∧ kind units = CustomAttributeClass.
Proof. eexists. split; [vm_compute; reflexivity|reflexivity]. Qed.

Lemma CustomAttributeClass_fromJson_appliesTo_witness :
  ∃ units,
    Sample.schema_heap !! 9 = Some (OClass units) ∧
    CustomAttributeClass_fromJson Sample.imports 9 [("appliesTo", VString "Schema")]
      Sample.schema_heap
    = (Normal (), <[9 := OClass (set_containerType (VNumber 1) units)]> Sample.schema_heap) ∧
    CustomAttributeClass_fromJson Sample.imports 9 [("appliesTo", VNumber 3)]
      Sample.schema_heap
    = (Throw (ECObjectsError InvalidECJson ""), Sample.schema_heap).
Proof.
  destruct schema_heap_units as (units & Hunits & _).
  exists units. split; [exact Hunits|]. split.
  - apply (CustomAttributeClass_fromJson_appliesTo Sample.imports Sample.schema_heap
             Sample.schema_heap 9 units [("appliesTo", VString "Schema")]);
      [vm_compute; reflexivity|exact Hunits|reflexivity].
  - apply (CustomAttributeClass_fromJson_appliesTo Sample.imports Sample.schema_heap
             Sample.schema_heap 9 units [("appliesTo", VNumber 3)]);
      [vm_compute; reflexivity|exact Hunits|reflexivity].
Defined.

Lemma set_strength_id (c : ECClass) : set_strength (strength c) c = c.
Proof. by destruct c. Qed.

Lemma set_strengthDirection_id (c : ECClass) :
  set_strengthDirection (strengthDirection c) c = c.
Proof. by destruct c. Qed.

(** [RelationshipClass.fromJson], once the inherited method has returned:
    each of [strength] and [strengthDirection] is parsed when its field is
    truthy and left alone otherwise.  The fields are taken in that order
    and nothing is undone: when the direction does not parse, [fromJson]
    throws with the new strength already stored. *)
Theorem RelationshipClass_fromJson_strength (ext : Imports) (h h1 : Heap) (this : loc)
    (c1 : ECClass) (jsonObj : JsonObj) :
  ECClass_fromJson ext this jsonObj h = (Normal (), h1) →
  h1 !! this = Some (OClass c1) →
  RelationshipClass_fromJson ext this jsonObj h
  = match parsed_or (parseStrength ext) (get_field jsonObj "strength") (strength c1) with
    | Throw e => (Throw e, h1)
    | Normal s =>
        match parsed_or (parseStrengthDirection ext) (get_field jsonObj "strengthDirection")
                (strengthDirection c1) with
        | Throw e => (Throw e, <[this := OClass (set_strength s c1)]> h1)
        | Normal d =>
            (Normal (), <[this := OClass (set_strengthDirection d (set_strength s c1))]> h1)
        end
    end.
Proof.
  intros Hsuper Hc1. unfold RelationshipClass_fromJson, parsed_or.
  rewrite (bind_normal _ _ _ _ _ Hsuper).
  assert (Hfirst :
    (if truthy (get_field jsonObj "strength") then
       s <- lift (parseStrength ext (get_field jsonObj "strength")) ;;
       assign this (set_strength s)
     else ret ()) h1
    = match (if truthy (get_field jsonObj "strength")
             then parseStrength ext (get_field jsonObj "strength")
             else Normal (strength c1)) with
      | Throw e => (Throw e, h1)
      | Normal s => (Normal (), <[this := OClass (set_strength s c1)]> h1)
      end).
  { destruct (truthy (get_field jsonObj "strength")).
    - unfold bind, lift. destruct (parseStrength ext _); [by apply assign_at|done].
    - unfold ret. by rewrite set_strength_id, insert_id. }
  destruct (if truthy (get_field jsonObj "strength")
            then parseStrength ext (get_field jsonObj "strength")
            else Normal (strength c1)) as [s|e].
  - rewrite (bind_normal _ _ _ _ _ Hfirst).
    set (c2 := set_strength s c1).
    assert (H2 : (<[this := OClass c2]> h1) !! this = Some (OClass c2))
      by apply lookup_insert_eq.
    destruct (truthy (get_field jsonObj "strengthDirection")).
    + unfold bind, lift. destruct (parseStrengthDirection ext _); [|done].
      rewrite (assign_at _ _ _ _ H2). by rewrite insert_insert_eq.
    + unfold ret.
      replace (set_strengthDirection (strengthDirection c1) (set_strength s c1)) with c2
        by (subst c2; by destruct c1).
      done.
  - by rewrite (bind_throw _ _ _ _ _ Hfirst).
Qed.

Lemma RelationshipClass_fromJson_strength_witness :
  RelationshipClass_fromJson Sample.imports 4
    [("strength", VString "Referencing"); ("strengthDirection", VString "Sideways")]
    Sample.schema_heap
  = (Throw (ECObjectsError (OtherStatus 0) "Sideways"),
     <[4 := OClass (set_strength (VNumber 0) Sample.pipe_connects)]> Sample.schema_heap).
Proof.
  apply (RelationshipClass_fromJson_strength Sample.imports Sample.schema_heap
           Sample.schema_heap 4 Sample.pipe_connects
           [("strength", VString "Referencing"); ("strengthDirection", VString "Sideways")]);
    [vm_compute; reflexivity|apply schema_heap_pipe_connects].
Defined.

Ltac modifier_leaf :=
  simple apply keeps_assign; intros ?; reflexivity.

(** [ECClass.fromJson] before it comes to [baseClass].  An error of the
    base [SchemaChild.fromJson] ends it, with what the base method wrote
    kept and neither [modifier] nor [baseClass] read.  Then a truthy
    [modifier] goes through [parseClassModifier]: its throw ends
    [fromJson]; its result is the modifier of the class once [fromJson]
    has ended, however it ends.  A falsy [modifier] leaves the modifier of
    the class as it was. *)
Theorem ECClass_fromJson_modifier (ext : Imports) (h : Heap) (this : loc) (c : ECClass)
    (jsonObj : JsonObj) :
  h !! this = Some (OClass c) →
  match SchemaChild_fromJson ext (base c) jsonObj with
  | (Throw e, b') =>
      ECClass_fromJson ext this jsonObj h = (Throw e, <[this := OClass (set_base b' c)]> h)
  | (Normal _, b') =>
      match parsed_or (parseClassModifier ext) (get_field jsonObj "modifier") (modifier c) with
      | Throw e =>
          ECClass_fromJson ext this jsonObj h
          = (Throw e, <[this := OClass (set_base b' c)]> h)
      | Normal m =>
          class_field this modifier m (ECClass_fromJson ext this jsonObj h).2
      end
  end.
Proof.
  intros Hc. unfold ECClass_fromJson, parsed_or.
  assert (Hstep : SchemaChild_fromJson_on ext this jsonObj h
                  = ((SchemaChild_fromJson ext (base c) jsonObj).1,
                     <[this := OClass (set_base (SchemaChild_fromJson ext (base c) jsonObj).2 c)]> h)).
  { unfold SchemaChild_fromJson_on.
    rewrite (bind_normal _ _ _ _ _ (readClass_at _ _ _ Hc)).
    by rewrite (bind_normal _ _ _ _ _ (assign_at _ _ _ _ Hc)). }
  destruct (SchemaChild_fromJson ext (base c) jsonObj) as [[[]|e] b']; simpl in Hstep.
  - rewrite (bind_normal _ _ _ _ _ Hstep).
    set (c1 := set_base b' c).
    assert (H1 : (<[this := OClass c1]> h) !! this = Some (OClass c1))
      by apply lookup_insert_eq.
    destruct (truthy (get_field jsonObj "modifier")).
    + unfold bind at 1. unfold bind at 1. unfold lift at 1.
      destruct (parseClassModifier ext _) as [m|e]; [|done].
      rewrite (assign_at _ _ _ _ H1).
      match goal with |- class_field _ _ _ (?k ?x).2 =>
        assert (Hk : keeps (class_field this modifier m) k) by keeps_walk modifier_leaf
      end.
      apply Hk. eexists. split; [apply lookup_insert_eq|done].
    + unfold bind at 1. unfold ret at 1.
      match goal with |- class_field _ _ _ (?k ?x).2 =>
        assert (Hk : keeps (class_field this modifier (modifier c)) k)
          by keeps_walk modifier_leaf
      end.
      apply Hk. by exists c1.
  - by rewrite (bind_throw _ _ _ _ _ Hstep).
Qed.

Lemma ECClass_fromJson_modifier_witness :
  class_field 2 modifier (VNumber 2)
    (ECClass_fromJson Sample.imports 2
       [("modifier", VString "Sealed"); ("baseClass", VString "Valve")]
       Sample.schema_heap).2 ∧
  ECClass_fromJson Sample.imports 2
    [("modifier", VString "Open"); ("baseClass", VString "Element")] Sample.schema_heap
  = (Throw (ECObjectsError (OtherStatus 0) "Open"),
     <[2 := OClass (set_base {| name := "Pipe"; schema := SchemaObject Sample.piping |}
                      Sample.pipe_in_schema)]> Sample.schema_heap).
Proof.
  split.
  - exact (ECClass_fromJson_modifier Sample.imports Sample.schema_heap 2
             Sample.pipe_in_schema
             [("modifier", VString "Sealed"); ("baseClass", VString "Valve")]
             schema_heap_pipe).
  - exact (ECClass_fromJson_modifier Sample.imports Sample.schema_heap 2
             Sample.pipe_in_schema
             [("modifier", VString "Open"); ("baseClass", VString "Element")]
             schema_heap_pipe).
Defined.

(** * IModel *)

(** The registry of an [IModel] is created once.  On a model that has
    none, the getter creates a registry object, stores it and answers it;
    asked again it answers the same object without calling the registry's
    constructor and without changing the store.  The token of the model
    and every other object are left as they were.  When the constructor of
    the registry throws, the getter throws the same and the model still
    has no registry. *)
Theorem classMetaDataRegistry_once (s : gmap nat IModel.Obj) (this : loc)
    (m : IModel.IModelObj) :
  s !! this = Some (IModel.OIModel m) →
  truthy (IModel._classMetaDataRegistry m) = false →
  (∃ registry s1,
     IModel.classMetaDataRegistry None this s = (Normal (VRef registry), s1) ∧
     s !! registry = None ∧
     s1 !! registry = Some IModel.ORegistry ∧
     (∀ again, IModel.classMetaDataRegistry again this s1 = (Normal (VRef registry), s1)) ∧
     IModel.iModelToken this s1 = (Normal (IModel._iModelToken m), s1) ∧
     (∀ l, l ≠ this → l ≠ registry → s1 !! l = s !! l)) ∧
  (∀ e, IModel.classMetaDataRegistry (Some e) this s = (Throw e, s)).
Proof.
  intros Hm Hnone. split.
  - unfold IModel.classMetaDataRegistry at 1. rewrite Hm, Hnone. simpl.
    set (registry := fresh (dom s)).
    assert (Hfresh : s !! registry = None) by apply not_elem_of_dom, is_fresh.
    assert (Nthis : this ≠ registry) by (intros E; rewrite <- E, Hm in Hfresh; done).
    eexists registry, _. split; [reflexivity|]. split; [exact Hfresh|]. split.
    { rewrite lookup_insert_ne by done. apply lookup_insert_eq. }
    split; [|split].
    + intros again. unfold IModel.classMetaDataRegistry. by rewrite lookup_insert_eq.
    + unfold IModel.iModelToken. by rewrite lookup_insert_eq.
    + intros l N1 N2. by rewrite !lookup_insert_ne.
  - intros e. unfold IModel.classMetaDataRegistry. by rewrite Hm, Hnone.
Qed.

Lemma classMetaDataRegistry_once_witness :
  ∃ registry s1,
    IModel.classMetaDataRegistry None 1
      (IModel.new_IModel (VRef 0)
         (IModel.fromFile (VString "plant.bim") (VNumber 1) (VBool true) ∅).2).2
    = (Normal (VRef registry), s1) ∧
    IModel.classMetaDataRegistry (Some TypeError) 1 s1 = (Normal (VRef registry), s1).
Proof.
  destruct (classMetaDataRegistry_once
              (IModel.new_IModel (VRef 0)
                 (IModel.fromFile (VString "plant.bim") (VNumber 1) (VBool true) ∅).2).2
              1 (IModel.mkIModel (VRef 0) VUndefined))
    as [(registry & s1 & Hfirst & _ & _ & Hagain & _) _];
    [vm_compute; reflexivity|reflexivity|].
  exists registry, s1. split; [exact Hfirst|apply Hagain].
Defined.

(** The first call of the getter, on a model without a registry. *)
Lemma classMetaDataRegistry_step (s : gmap nat IModel.Obj) (this : loc) (token : JsValue) :
  s !! this = Some (IModel.OIModel (IModel.mkIModel token VUndefined)) →
  ∃ registry,
    s !! registry = None ∧
    IModel.classMetaDataRegistry None this s
    = (Normal (VRef registry),
       <[this := IModel.OIModel (IModel.mkIModel token (VRef registry))]>
         (<[registry := IModel.ORegistry]> s)).
Proof.
  intros Hm. exists (fresh (dom s)). split; [apply not_elem_of_dom, is_fresh|].
  unfold IModel.classMetaDataRegistry. by rewrite Hm.
Qed.

(** A token and the model built on it.  [fromFile] creates one token
    object, with the three fields it is given and [undefined] in the five
    others, and changes no object of the store; a model constructed on the
    token answers that token from [iModelToken], before and after its
    registry has been created, and creating the registry leaves the token
    object as it was. *)
Theorem IModel_token_round_trip (s : gmap nat IModel.Obj)
    (pathname openMode isOpen : JsValue) :
  let token := (IModel.fromFile pathname openMode isOpen s).1 in
  let s1 := (IModel.fromFile pathname openMode isOpen s).2 in
  let this := (IModel.new_IModel (VRef token) s1).1 in
  let s2 := (IModel.new_IModel (VRef token) s1).2 in
  let s3 := (IModel.classMetaDataRegistry None this s2).2 in
  s !! token = None ∧
  (∀ l o, s !! l = Some o → s3 !! l = Some o) ∧
  s1 !! token
  = Some (IModel.OToken (IModel.mkIModelToken pathname openMode VUndefined VUndefined
                           VUndefined VUndefined VUndefined isOpen)) ∧
  s3 !! token = s1 !! token ∧
  IModel.iModelToken this s2 = (Normal (VRef token), s2) ∧
  IModel.iModelToken this s3 = (Normal (VRef token), s3).
Proof.
  unfold IModel.fromFile, IModel.new_IModel. simpl.
  set (token := fresh (dom s)).
  set (s1 := <[token := _]> s).
  set (this := fresh (dom s1)).
  set (s2 := <[this := _]> s1).
  assert (Htoken : s !! token = None) by apply not_elem_of_dom, is_fresh.
  assert (Hthis : s1 !! this = None) by apply not_elem_of_dom, is_fresh.
  assert (H1 : s1 !! token = Some (IModel.OToken
                 (IModel.mkIModelToken pathname openMode VUndefined VUndefined
                    VUndefined VUndefined VUndefined isOpen))) by apply lookup_insert_eq.
  assert (Nthis : this ≠ token) by (intros E; rewrite E, H1 in Hthis; done).
  assert (H2 : s2 !! this = Some (IModel.OIModel (IModel.mkIModel (VRef token) VUndefined)))
    by apply lookup_insert_eq.
  destruct (classMetaDataRegistry_step s2 this (VRef token) H2)
    as (registry & Hreg & Hrun).
  rewrite Hrun. simpl.
  assert (Nreg : registry ≠ token).
  { intros E. rewrite E in Hreg. subst s2.
    rewrite lookup_insert_ne in Hreg by done. congruence. }
  assert (Nreg' : registry ≠ this) by (intros E; rewrite E, H2 in Hreg; done).
  split; [exact Htoken|]. split; [|split; [exact H1|split; [|split]]].
  - intros l o Hl.
    assert (l ≠ token) by (intros E; subst l; congruence).
    assert (Hl1 : s1 !! l = Some o) by (subst s1; by rewrite lookup_insert_ne).
    assert (l ≠ this) by (intros E; subst l; congruence).
    assert (Hl2 : s2 !! l = Some o) by (subst s2; by rewrite lookup_insert_ne).
    assert (l ≠ registry) by (intros E; subst l; congruence).
    by rewrite !lookup_insert_ne.
  - rewrite !lookup_insert_ne by done. subst s2. by rewrite lookup_insert_ne.
  - unfold IModel.iModelToken. by rewrite H2.
  - unfold IModel.iModelToken. by rewrite lookup_insert_eq.
Qed.

(** * The Icon component *)

(** What [Icon] renders.  It returns [null] exactly for a falsy
    specification (none, [null], [false], [0], the empty string).  For a
    string or a conditional string whose value is not empty it returns the
    [i] element of class ["icon core-svg-icon"] around the sprite of the
    value's SVG source, when the value has one, and else the bare [i]
    element of class ["icon "] followed by the value.  For every other
    truthy specification (a node, or a string or conditional string with
    no value or an empty one) it returns the element of class
    ["icon core-svg-icon"] around the specification itself.  Conversely
    each rendering comes from its case only, and every class name begins
    with ["icon "]. *)
Theorem Icon_rendering (getValue : IconComponent.IconSpec → option string)
    (getSvgSource : string → option string) (iconSpec : IconComponent.IconSpec) :
  (IconComponent.Icon getValue getSvgSource iconSpec = IconComponent.RenderNull
   ↔ IconComponent.spec_truthy iconSpec = false) ∧
  (IconComponent.spec_truthy iconSpec = true →
   (∀ iconString,
      IconComponent.string_like iconSpec = true →
      getValue iconSpec = Some iconString → iconString ≠ "" →
      IconComponent.Icon getValue getSvgSource iconSpec
      = match getSvgSource iconString with
        | Some svgSource =>
            IconComponent.RenderI "icon core-svg-icon" (IconComponent.SvgSprite svgSource)
        | None => IconComponent.RenderI ("icon " +:+ iconString) IconComponent.NoChildren
        end) ∧
   (IconComponent.string_like iconSpec = false ∨ getValue iconSpec = None
    ∨ getValue iconSpec = Some "" →
    IconComponent.Icon getValue getSvgSource iconSpec
    = IconComponent.RenderI "icon core-svg-icon" (IconComponent.SpecItself iconSpec))) ∧
  ∀ className children,
    IconComponent.Icon getValue getSvgSource iconSpec
    = IconComponent.RenderI className children →
    (∃ rest, className = "icon " +:+ rest) ∧
    match children with
    | IconComponent.NoChildren =>
        ∃ iconString,
          IconComponent.string_like iconSpec = true ∧
          getValue iconSpec = Some iconString ∧ iconString ≠ "" ∧
          getSvgSource iconString = None ∧
          className = "icon " +:+ iconString
    | IconComponent.SvgSprite svgSource =>
        className = "icon core-svg-icon" ∧
        ∃ iconString,
          getValue iconSpec = Some iconString ∧ getSvgSource iconString = Some svgSource
    | IconComponent.SpecItself shown =>
        className = "icon core-svg-icon" ∧ shown = iconSpec
    end.
Proof.
  unfold IconComponent.Icon. split; [|split].
  - destruct (IconComponent.spec_truthy iconSpec); simpl; [|done].
    split; [|done].
    destruct (IconComponent.string_like iconSpec); [|done].
    destruct (getValue iconSpec) as [s|]; [|done].
    destruct (negb (String.eqb s "")); [|done].
    by destruct (getSvgSource s).
  - intros ->. simpl. split.
    + intros iconString -> -> Hvalue.
      apply String.eqb_neq in Hvalue. by rewrite Hvalue.
    + intros [->|[->| ->]]; [done| |]; by destruct (IconComponent.string_like iconSpec).
  - intros className children.
    destruct (IconComponent.spec_truthy iconSpec); simpl; [|done].
    destruct (IconComponent.string_like iconSpec) eqn:Hlike;
      [|intros [= <- <-]; split; [by exists "core-svg-icon"|done]].
    destruct (getValue iconSpec) as [s|] eqn:Hvalue;
      [|intros [= <- <-]; split; [by exists "core-svg-icon"|done]].
    destruct (String.eqb s "") eqn:Hempty; simpl;
      [intros [= <- <-]; split; [by exists "core-svg-icon"|done]|].
    apply String.eqb_neq in Hempty.
    destruct (getSvgSource s) as [svgSource|] eqn:Hsvg; intros [= <- <-].
    + split; [by exists "core-svg-icon"|]. split; [done|]. by exists s.
    + split; [by exists s|]. exists s. by repeat split.
Qed.

(** * Edges of EntityClass.fromJson *)

(** Two edges of the [mixin] field, once the inherited method has
    returned.  An empty array is accepted and does nothing: a class that
    had no [mixins] array still has none.  On a class without a schema
    object a mixin name, given alone or as the first entry of an array,
    ends [fromJson] in a [TypeError] and not in an ECObjects error: the
    lookup is made without the guard [ECClass.fromJson] has. *)
Theorem EntityClass_fromJson_mixin_edges (ext : Imports) (h h1 : Heap) (this : loc)
    (c1 : ECClass) (jsonObj : JsonObj) :
  ECClass_fromJson ext this jsonObj h = (Normal (), h1) →
  h1 !! this = Some (OClass c1) →
  (get_field jsonObj "mixin" = VArray [] →
     EntityClass_fromJson ext this jsonObj h = (Normal (), h1)) ∧
  (is_schema_object (schema (base c1)) = false →
     (∀ mixinName, mixinName ≠ "" → get_field jsonObj "mixin" = VString mixinName →
        EntityClass_fromJson ext this jsonObj h = (Throw TypeError, h1)) ∧
     (∀ first others, get_field jsonObj "mixin" = VArray (first :: others) →
        EntityClass_fromJson ext this jsonObj h = (Throw TypeError, h1))).
Proof.
  intros Hsuper Hc1. unfold EntityClass_fromJson.
  rewrite (bind_normal _ _ _ _ _ Hsuper).
  assert (Hload : is_schema_object (schema (base c1)) = false →
                  ∀ mixinFullName, loadMixin this mixinFullName h1 = (Throw TypeError, h1)).
  { intros Hno mixinFullName. unfold loadMixin.
    rewrite (bind_normal _ _ _ _ _ (readClass_at _ _ _ Hc1)).
    unfold bind, lift, call_getChild. by destruct (schema (base c1)). }
  split; [by intros ->|].
  intros Hno. split.
  - intros mixinName Hne ->. simpl.
    apply String.eqb_neq in Hne. rewrite Hne. simpl. by apply Hload.
  - intros first others ->. simpl. by rewrite (bind_throw _ _ _ _ _ (Hload Hno first)).
Qed.

Lemma EntityClass_fromJson_mixin_edges_witness :
  EntityClass_fromJson Sample.imports 2 [("mixin", VArray [])] Sample.pipe_heap
  = (Normal (), Sample.pipe_heap) ∧
  EntityClass_fromJson Sample.imports 2 [("mixin", VString "Insulated")] Sample.pipe_heap
  = (Throw TypeError, Sample.pipe_heap).
Proof.
  split.
  - apply (EntityClass_fromJson_mixin_edges Sample.imports Sample.pipe_heap Sample.pipe_heap
             2 Sample.pipe [("mixin", VArray [])]);
      [vm_compute; reflexivity|apply pipe_heap_pipe|reflexivity].
  - refine (proj1 (proj2 (EntityClass_fromJson_mixin_edges Sample.imports Sample.pipe_heap
             Sample.pipe_heap 2 Sample.pipe [("mixin", VString "Insulated")] _
             pipe_heap_pipe) eq_refl) "Insulated" _ eq_refl);
      [vm_compute; reflexivity|discriminate].
Defined.

(** * The theorems above, on concrete inputs *)

Lemma new_ECClass_empty_witness :
  ∃ this h' c,
    new_ECClass Sample.imports StructClass "Flange" (VNumber 0) Sample.pipe_heap
    = (Normal this, h') ∧
    modifier c = VNumber 0 ∧
    getProperty Sample.imports this "Length" h' = (Normal None, h').
Proof.
  destruct (new_ECClass_empty Sample.imports Sample.pipe_heap StructClass "Flange" (VNumber 0))
    as (this & h' & c & Hnew & _ & _ & _ & _ & _ & Hmod & _ & Hget).
  exists this, h', c. split; [exact Hnew|]. split; [exact Hmod|apply Hget].
Defined.

Lemma new_RelationshipClass_arguments_witness :
  ∃ this src tgt h',
    new_RelationshipClass Sample.imports "Feeds" (VNumber 2) (VNumber 0) VUndefined
      Sample.pipe_heap = (Normal this, h') ∧
    h' !! this = Some (OClass {|
      kind := RelationshipClass;
      base := {| name := "Feeds"; schema := SchemaUndefined |};
      modifier := VNumber 0;
      baseClass := VUndefined; properties := None; mixins := None;
      appliesTo := VUndefined; containerType := VUndefined;
      strength := VNumber 2; strengthDirection := VNumber 1;
      source := VRef src; target := VRef tgt |}).
Proof.
  destruct (new_RelationshipClass_arguments Sample.imports Sample.pipe_heap "Feeds"
              (VNumber 2) (VNumber 0) VUndefined)
    as (this & src & tgt & h' & Hnew & _ & _ & _ & _ & Hclass & _).
  exists this, src, tgt, h'. split; [exact Hnew|exact Hclass].
Defined.

Lemma IModel_token_round_trip_witness :
  IModel.iModelToken 1
    (IModel.new_IModel (VRef 0)
       (IModel.fromFile (VString "plant.bim") (VNumber 1) (VBool true) ∅).2).2
  = (Normal (VRef 0),
     (IModel.new_IModel (VRef 0)
        (IModel.fromFile (VString "plant.bim") (VNumber 1) (VBool true) ∅).2).2).
Proof.
  exact (proj1 (proj2 (proj2 (proj2 (proj2
           (IModel_token_round_trip ∅ (VString "plant.bim") (VNumber 1) (VBool true))))))).
Defined.

Lemma Icon_rendering_witness :
  IconComponent.Icon IconComponent.sample_getValue IconComponent.sample_getSvgSource
    (IconComponent.SpecString "") = IconComponent.RenderNull ∧
  IconComponent.Icon IconComponent.sample_getValue IconComponent.sample_getSvgSource
    (IconComponent.SpecString "icon-placeholder")
  = IconComponent.RenderI "icon icon-placeholder" IconComponent.NoChildren ∧
  IconComponent.Icon IconComponent.sample_getValue IconComponent.sample_getSvgSource
    (IconComponent.SpecString "svg:sprite.svg#pipe")
  = IconComponent.RenderI "icon core-svg-icon" (IconComponent.SvgSprite "sprite.svg#pipe") ∧
  IconComponent.Icon IconComponent.sample_getValue IconComponent.sample_getSvgSource
    (IconComponent.SpecElement 1)
  = IconComponent.RenderI "icon core-svg-icon"
      (IconComponent.SpecItself (IconComponent.SpecElement 1)) ∧
  IconComponent.Icon IconComponent.sample_getValue IconComponent.sample_getSvgSource
    (IconComponent.SpecConditional 1)
  = IconComponent.RenderI "icon core-svg-icon"
      (IconComponent.SpecItself (IconComponent.SpecConditional 1)).
Proof.
  split; [|split; [|split; [|split]]].
  - exact (proj2 (proj1 (Icon_rendering IconComponent.sample_getValue
             IconComponent.sample_getSvgSource (IconComponent.SpecString ""))) eq_refl).
  - exact (proj1 (proj1 (proj2 (Icon_rendering IconComponent.sample_getValue
             IconComponent.sample_getSvgSource (IconComponent.SpecString "icon-placeholder")))
             eq_refl) "icon-placeholder" eq_refl eq_refl ltac:(discriminate)).
  - exact (proj1 (proj1 (proj2 (Icon_rendering IconComponent.sample_getValue
             IconComponent.sample_getSvgSource
             (IconComponent.SpecString "svg:sprite.svg#pipe")))
             eq_refl) "svg:sprite.svg#pipe" eq_refl eq_refl ltac:(discriminate)).
  - exact (proj2 (proj1 (proj2 (Icon_rendering IconComponent.sample_getValue
             IconComponent.sample_getSvgSource (IconComponent.SpecElement 1)))
             eq_refl) (or_introl eq_refl)).
  - exact (proj2 (proj1 (proj2 (Icon_rendering IconComponent.sample_getValue
             IconComponent.sample_getSvgSource (IconComponent.SpecConditional 1)))
             eq_refl) (or_intror (or_introl eq_refl))).
Defined.
